(** * The physically simulated brush of VectorVideo

    A shallow embedding of [Drawing/DynaDraw.ts]: the classes [BrushInstance],
    [BrushTip] and [DynaDraw].

    Conventions of the embedding.
    - A JavaScript [number] is a real number: arithmetic is exact and there is
      neither rounding nor [NaN] nor an infinity.  Division is the total
      division of [R]; a theorem whose statement divides assumes the divisor
      is not zero.  The doubles of the code round: far from the origin they
      cannot tell a point from its neighbours, and a friction close enough
      to 0 is lost in [1 - friction].  The theorems that say that a loop of
      the simulation ends are therefore stated within [reach] and for the
      brushes that the simulator makes ([made_brush]), where a step takes
      far more energy than its rounding can give back.
    - A [Vector2] is a mutable object.  Objects live in a store ([heap]), a
      variable or field of class type holds a reference ([loc]) into it, and
      [null]/[undefined] is [None].  Two fields holding the same reference
      see each other's updates.
    - A method is a computation in a state-and-exception monad [M] over the
      [World]; an uncaught JavaScript exception is the result [Throw].
    - The collaborators outside the class (the path factory, the [Path]
      methods, [VideoEvents.trigger]) are a [Host]: every call is recorded in
      the world's list of events, and the host decides whether it throws. *)

From Stdlib Require Import Reals Lra Lia List.
From stdpp Require Import base list.
Import ListNotations.
Open Scope R_scope.

(** ** Values *)

Abbreviation loc := nat.

#[global] Instance R_eq_dec : EqDecision R := Req_dec_T.
#[global] Instance R_lt_dec : RelDecision Rlt := Rlt_dec.

Module Vec.
  (** The value held by one [Vector2] object. *)
Record t := mk { X : R; Y : R }.

Definition plus (a b : t) : t := mk (X a + X b) (Y a + Y b).
Definition minus (a b : t) : t := mk (X a - X b) (Y a - Y b).
Definition times (a : t) (k : R) : t := mk (X a * k) (Y a * k).
Definition sizeSq (a : t) : R := X a * X a + Y a * Y a.
Definition size (a : t) : R := sqrt (sizeSq a).
Definition dist (a b : t) : R := size (minus a b).
Definition normal (a : t) : t := times (mk (- Y a) (X a)) (1 / size a).
End Vec.

Inductive Error :=
| TypeError            (* a member access on null or undefined *)
| ZeroVector           (* normalising the zero vector *)
| HostError (code : nat).

Inductive Res (A : Type) :=
| Ok (a : A)
| Throw (e : Error).
Arguments Ok {A} a.
Arguments Throw {A} e.

(** ** The classes' data *)

Record BrushInstance := mkBrush { Mass : R; Friction : R; Size : R }.

(** [const enum Threshold { Force = 1, Velocity = 1 }] *)
Module Threshold.
Definition Force : R := 1.
Definition Velocity : R := 1.
End Threshold.

Module BrushTip.
  (** The fields that [Reset] assigns; all of them are undefined on a brush
      tip that was constructed and never reset. *)
Record fields := mkFields {
    position : loc;
    startPosition : loc;
    velocity : loc;
    acceleration : option loc;
    brush : BrushInstance;
    firstSegment : bool;
    previousPosition : loc;
    previousPressure : R;
    mousePosition : loc
  }.

  (** [angle] is assigned by [ApplyForce] only, and survives a [Reset]. *)
Record t := mk {
    calculateSpeed : bool;
    angle : option loc;
    reset : option fields
  }.

Definition with_acceleration (a : option loc) (f : fields) : fields :=
    mkFields (position f) (startPosition f) (velocity f) a (brush f)
             (firstSegment f) (previousPosition f) (previousPressure f)
             (mousePosition f).
Definition with_firstSegment (b : bool) (f : fields) : fields :=
    mkFields (position f) (startPosition f) (velocity f) (acceleration f)
             (brush f) b (previousPosition f) (previousPressure f)
             (mousePosition f).
Definition with_previousPosition (l : loc) (f : fields) : fields :=
    mkFields (position f) (startPosition f) (velocity f) (acceleration f)
             (brush f) (firstSegment f) l (previousPressure f)
             (mousePosition f).
Definition with_previousPressure (p : R) (f : fields) : fields :=
    mkFields (position f) (startPosition f) (velocity f) (acceleration f)
             (brush f) (firstSegment f) (previousPosition f) p
             (mousePosition f).
Definition with_mousePosition (l : loc) (f : fields) : fields :=
    mkFields (position f) (startPosition f) (velocity f) (acceleration f)
             (brush f) (firstSegment f) (previousPosition f)
             (previousPressure f) l.
End BrushTip.

(** [Helpers.CursorState], as far as the simulator reads it. *)
Record CursorState := mkCursor { cursor_X : R; cursor_Y : R; Pressure : R }.

(** [UI.BrushSize], as far as the simulator reads it. *)
Record BrushSize := mkBrushSize { BrushSize_Size : R }.

(** A [Path] is opaque to the simulator: it is known by its identity. *)
Definition Path := nat.

(** The calls that leave the simulator. *)
Inductive Event :=
| CallFactory
| TriggerStartPath (p : Path)
| PathStartPath (p : Path) (pt : Vec.t) (radius : R)
| PathInitPath (p : Path) (a b : Vec.t)
| PathExtendPath (p : Path) (a b : Vec.t)
| PathDraw (p : Path).

(** What [requestAnimationFrame] was last asked to run. *)
Inductive Callback :=
| FirstTick      (* [time => { this.lastAnimationTime = time; this.Tick(time) }] *)
| NextTick
| NextTickWhile.

Module DynaDraw.
Record t := mk {
    cursor : BrushTip.t;
    position : option loc;
    pressure : option R;
    path : option Path;
    minMass : R;
    maxMass : R;
    minFriction : R;
    maxFriction : R;
    currentBrushSize : option BrushSize;
    brushes : list (R * BrushInstance);
    slowSimulation : bool;
    minBrushSize : R;
    maxBrushSize : R;
    lastState : option CursorState;
    lastAnimationTime : option R
  }.

Definition with_cursor (c : BrushTip.t) (d : t) : t :=
    mk c (position d) (pressure d) (path d) (minMass d) (maxMass d)
       (minFriction d) (maxFriction d) (currentBrushSize d) (brushes d)
       (slowSimulation d) (minBrushSize d) (maxBrushSize d) (lastState d)
       (lastAnimationTime d).
Definition with_position (p : option loc) (d : t) : t :=
    mk (cursor d) p (pressure d) (path d) (minMass d) (maxMass d)
       (minFriction d) (maxFriction d) (currentBrushSize d) (brushes d)
       (slowSimulation d) (minBrushSize d) (maxBrushSize d) (lastState d)
       (lastAnimationTime d).
Definition with_pressure (p : option R) (d : t) : t :=
    mk (cursor d) (position d) p (path d) (minMass d) (maxMass d)
       (minFriction d) (maxFriction d) (currentBrushSize d) (brushes d)
       (slowSimulation d) (minBrushSize d) (maxBrushSize d) (lastState d)
       (lastAnimationTime d).
Definition with_path (p : option Path) (d : t) : t :=
    mk (cursor d) (position d) (pressure d) p (minMass d) (maxMass d)
       (minFriction d) (maxFriction d) (currentBrushSize d) (brushes d)
       (slowSimulation d) (minBrushSize d) (maxBrushSize d) (lastState d)
       (lastAnimationTime d).
Definition with_currentBrushSize (s : option BrushSize) (d : t) : t :=
    mk (cursor d) (position d) (pressure d) (path d) (minMass d) (maxMass d)
       (minFriction d) (maxFriction d) s (brushes d)
       (slowSimulation d) (minBrushSize d) (maxBrushSize d) (lastState d)
       (lastAnimationTime d).
Definition with_brushes (b : list (R * BrushInstance)) (d : t) : t :=
    mk (cursor d) (position d) (pressure d) (path d) (minMass d) (maxMass d)
       (minFriction d) (maxFriction d) (currentBrushSize d) b
       (slowSimulation d) (minBrushSize d) (maxBrushSize d) (lastState d)
       (lastAnimationTime d).
Definition with_lastState (s : option CursorState) (d : t) : t :=
    mk (cursor d) (position d) (pressure d) (path d) (minMass d) (maxMass d)
       (minFriction d) (maxFriction d) (currentBrushSize d) (brushes d)
       (slowSimulation d) (minBrushSize d) (maxBrushSize d) s
       (lastAnimationTime d).
Definition with_lastAnimationTime (a : option R) (d : t) : t :=
    mk (cursor d) (position d) (pressure d) (path d) (minMass d) (maxMass d)
       (minFriction d) (maxFriction d) (currentBrushSize d) (brushes d)
       (slowSimulation d) (minBrushSize d) (maxBrushSize d) (lastState d) a.
End DynaDraw.

(** ** The world and the monad *)

Record World := mkWorld {
  heap : list Vec.t;          (* the store of [Vector2] objects *)
  this : DynaDraw.t;              (* the simulator and its brush tip *)
  events : list Event;            (* calls made to the host, oldest first *)
  console : list Error;           (* what [console.log] was given *)
  scheduled : option Callback     (* the pending animation frame *)
}.

Definition with_heap (h : list Vec.t) (w : World) : World :=
  mkWorld h (this w) (events w) (console w) (scheduled w).
Definition with_this (d : DynaDraw.t) (w : World) : World :=
  mkWorld (heap w) d (events w) (console w) (scheduled w).
Definition with_events (e : list Event) (w : World) : World :=
  mkWorld (heap w) (this w) e (console w) (scheduled w).
Definition with_console (c : list Error) (w : World) : World :=
  mkWorld (heap w) (this w) (events w) c (scheduled w).
Definition with_scheduled (c : option Callback) (w : World) : World :=
  mkWorld (heap w) (this w) (events w) (console w) c.

Definition M (A : Type) : Type := World -> Res A * World.

Definition ret {A} (a : A) : M A := fun w => (Ok a, w).
Definition throw {A} (e : Error) : M A := fun w => (Throw e, w).
Definition bind {A B} (m : M A) (k : A -> M B) : M B :=
  fun w => match m w with
           | (Ok a, w') => k a w'
           | (Throw e, w') => (Throw e, w')
           end.
(** [try { body } catch (err) { handler(err) }] *)
Definition try_catch {A} (body : M A) (handler : Error -> M A) : M A :=
  fun w => match body w with
           | (Ok a, w') => (Ok a, w')
           | (Throw e, w') => handler e w'
           end.

Notation "'let*' x ':=' m 'in' k" := (bind m (fun x => k))
  (at level 10, x binder, m at level 100, k at level 200).
Notation "m ';;;' k" := (bind m (fun _ => k))
  (at level 100, k at level 200, right associativity).

Definition get_this : M DynaDraw.t := fun w => (Ok (this w), w).
Definition put_this (d : DynaDraw.t) : M unit := fun w => (Ok tt, with_this d w).
Definition modify_this (f : DynaDraw.t -> DynaDraw.t) : M unit :=
  fun w => (Ok tt, with_this (f (this w)) w).

(** A member access through a reference that may be null or undefined. *)
Definition deref {A} (o : option A) : M A :=
  match o with
  | Some a => ret a
  | None => throw TypeError
  end.

(** ** The host *)

Record Host := mkHost {
  (** the path that [pathFactory()] returns, or the error it throws, after
      the given history *)
  pathFactory : list Event -> Res Path;
  (** whether a call fails, after the given history *)
  fails : Event -> list Event -> option Error
}.

(** A host none of whose calls throws; every path it makes is path 0. *)
Definition quietHost : Host := mkHost (fun _ => Ok 0%nat) (fun _ _ => None).

(** ** [Helpers.Vector2]

    Modelled from the spec: the class [Helpers.Vector2] is not among the
    sources.  The spec gives it the operations add, subtract, scale, normal
    (perpendicular unit vector), squared magnitude, magnitude and distance-to,
    with in-place mutation; [DynaDraw.ts] relies on exactly that, calling
    [velocity.add(..)], [velocity.scale(..)] and [position.add(..)] for their
    effect and cloning a vector before it subtracts from it.  [add],
    [subtract] and [scale] update the receiver and return it; [clone] and
    [getNormal] return a new object.  Normalising the zero vector is outside
    the contract; here it throws. *)
Module Vector2.
(** The reference that the next new object gets. *)
Definition fresh (h : list Vec.t) : loc := length h.
Arguments fresh : simpl never.

Definition new (v : Vec.t) : M loc :=
  fun w => (Ok (fresh (heap w)), with_heap (heap w ++ [v]) w).
Definition load (l : loc) : M Vec.t :=
  fun w => match heap w !! l with
           | Some v => (Ok v, w)
           | None => (Throw TypeError, w)
           end.
Definition store (l : loc) (v : Vec.t) : M unit :=
  fun w => (Ok tt, with_heap (<[l := v]> (heap w)) w).

Definition clone (l : loc) : M loc :=
  let* v := load l in new v.
Definition add (l b : loc) : M loc :=
  let* u := load l in
  let* v := load b in
  store l (Vec.plus u v);;;
  ret l.
Definition subtract (l b : loc) : M loc :=
  let* u := load l in
  let* v := load b in
  store l (Vec.minus u v);;;
  ret l.
Definition scale (l : loc) (k : R) : M loc :=
  let* u := load l in
  store l (Vec.times u k);;;
  ret l.
Definition getSizeSq (l : loc) : M R :=
  let* u := load l in ret (Vec.sizeSq u).
Definition getSize (l : loc) : M R :=
  let* u := load l in ret (Vec.size u).
Definition distanceTo (l b : loc) : M R :=
  let* u := load l in
  let* v := load b in
  ret (Vec.dist u v).
Definition getNormal (l : loc) : M loc :=
  let* u := load l in
  if Req_dec_T (Vec.size u) 0 then throw ZeroVector
  else new (Vec.normal u).
End Vector2.

Section Simulator.

Variable host : Host.

(** A call that leaves the simulator: recorded, then it returns or throws as
    the host decides. *)
Definition call (e : Event) : M unit :=
  fun w => match fails host e (events w) with
           | None => (Ok tt, with_events (events w ++ [e]) w)
           | Some err => (Throw err, with_events (events w ++ [e]) w)
           end.

Definition call_pathFactory : M Path :=
  fun w => (pathFactory host (events w), with_events (events w ++ [CallFactory]) w).

(** [console.log("ProcessNewState error: ", err)] *)
Definition console_log (err : Error) : M unit :=
  fun w => (Ok tt, with_console (console w ++ [err]) w).

(** [requestAnimationFrame(cb)] *)
Definition requestAnimationFrame (cb : Callback) : M unit :=
  fun w => (Ok tt, with_scheduled (Some cb) w).

(** *** class BrushTip *)

(** [this.cursor], the one brush tip of the simulator *)
Definition tip : M BrushTip.t :=
  fun w => (Ok (DynaDraw.cursor (this w)), w).
Definition put_tip (c : BrushTip.t) : M unit :=
  modify_this (DynaDraw.with_cursor c).

(** Reading a field that [Reset] assigns.  On a brush tip never reset the
    field is undefined, and every use the methods make of such a value is a
    member access, which throws. *)
Definition field {A} (proj : BrushTip.fields -> A) : M A :=
  let* c := tip in
  let* f := deref (BrushTip.reset c) in
  ret (proj f).
(** Assigning a field of a brush tip that was reset. *)
Definition assign (upd : BrushTip.fields -> BrushTip.fields) : M unit :=
  let* c := tip in
  let* f := deref (BrushTip.reset c) in
  put_tip (BrushTip.mk (BrushTip.calculateSpeed c) (BrushTip.angle c) (Some (upd f))).
Definition assign_angle (a : option loc) : M unit :=
  let* c := tip in
  put_tip (BrushTip.mk (BrushTip.calculateSpeed c) a (BrushTip.reset c)).

Definition Reset (position : loc) (brush : BrushInstance) : M unit :=
  let* p := Vector2.clone position in
  let* sp := Vector2.clone position in
  let* pp := Vector2.clone position in
  let* mp := Vector2.clone position in
  let* a := Vector2.new (Vec.mk 0 0) in
  let* v := Vector2.new (Vec.mk 0 0) in
  let* c := tip in
  put_tip (BrushTip.mk (BrushTip.calculateSpeed c) (BrushTip.angle c)
             (Some (BrushTip.mkFields p sp v (Some a) brush true pp (-1) mp))).

Definition ApplyForce (mouse : loc) (elapsedFrames : R) : M R :=
  (* calculate the force *)
  let* m := Vector2.clone mouse in
  let* p := field BrushTip.position in
  let* force := Vector2.subtract m p in
  let* fs := Vector2.getSizeSq force in
  if Rlt_dec fs Threshold.Force then ret 0 else
  (* calculate acceleration and velocity *)
  let* fc := Vector2.clone force in
  let* b := field BrushTip.brush in
  let* a := Vector2.scale fc (1 / Mass b) in
  assign (BrushTip.with_acceleration (Some a));;;
  let* v := field BrushTip.velocity in
  Vector2.add v a;;;
  let* vs := Vector2.getSizeSq v in
  if Rlt_dec vs Threshold.Velocity then ret 0 else
  (* destroy unnecessary references *)
  let* mc := Vector2.clone mouse in
  assign (BrushTip.with_mousePosition mc);;;
  assign (BrushTip.with_acceleration None);;;
  (* calculate the angle of the mouse *)
  let* n := Vector2.getNormal v in
  assign_angle (Some n);;;
  (* apply the drag of the digital drawing tool *)
  Vector2.scale v ((1 - Friction b) * elapsedFrames);;;
  (* update position *)
  Vector2.add p v;;;
  Vector2.getSizeSq v.

Definition speedFactor (speed : R) : R := Rmax (1 - speed) 0.4.

Definition interpolatePressure (mousePressure : R) : M R :=
  let* p := field BrushTip.position in
  let* pp := field BrushTip.previousPosition in
  let* d1 := Vector2.distanceTo p pp in
  let* mp := field BrushTip.mousePosition in
  let* d2 := Vector2.distanceTo p mp in
  if decide (d1 = 0 /\ d2 = 0) then
    ret mousePressure   (* I don't have to interpolate *)
  else
    let* prev := field BrushTip.previousPressure in
    ret ((d1 / (d1 + d2)) * (mousePressure - prev) + prev).

Definition getRadius (pressure speed : R) : M R :=
  let* c := tip in
  match BrushTip.reset c with
  | Some f =>
      if Rlt_dec (BrushTip.previousPressure f) 0
      then assign (BrushTip.with_previousPressure pressure)
      else ret tt
  | None => ret tt   (* [undefined < 0] is false *)
  end;;;
  let* interpolatedPressure := interpolatePressure pressure in
  let* b := field BrushTip.brush in
  let radius := speedFactor speed * Size b * interpolatedPressure / 2 in
  (* save for next time *)
  let* p := field BrushTip.position in
  assign (BrushTip.with_previousPosition p);;;
  assign (BrushTip.with_previousPressure interpolatedPressure);;;
  ret radius.

Definition Draw (path : option Path) (pressure : R) : M unit :=
  let* c := tip in
  let* relativeSpeed :=
    if BrushTip.calculateSpeed c then
      let* v := field BrushTip.velocity in
      let* s := Vector2.getSize v in
      let* b := field BrushTip.brush in
      ret (s / (Size b * Size b))
    else ret 0 in
  let* width := getRadius pressure relativeSpeed in
  let* c := tip in
  let* angle := deref (BrushTip.angle c) in
  Vector2.scale angle width;;;
  let* first := field BrushTip.firstSegment in
  (if first then
     let* pa := deref path in
     let* sp := field BrushTip.startPosition in
     let* a := Vector2.clone sp in
     let* a := Vector2.add a angle in
     let* b := Vector2.clone sp in
     let* b := Vector2.subtract b angle in
     let* va := Vector2.load a in
     let* vb := Vector2.load b in
     call (PathInitPath pa va vb);;;
     assign (BrushTip.with_firstSegment false)
   else ret tt);;;
  let* pa := deref path in
  let* p := field BrushTip.position in
  let* a := Vector2.clone p in
  let* a := Vector2.add a angle in
  let* b := Vector2.clone p in
  let* b := Vector2.subtract b angle in
  let* va := Vector2.load a in
  let* vb := Vector2.load b in
  call (PathExtendPath pa va vb);;;
  call (PathDraw pa).

Definition BrushTip_StartPath (path : option Path) (pt : loc) (pressure : R) : M unit :=
  let* pa := deref path in
  let* radius := getRadius pressure 0 in
  let* v := Vector2.load pt in
  call (PathStartPath pa v radius).

(** *** class DynaDraw *)

Definition SetBrushSize (size : BrushSize) : M unit :=
  modify_this (DynaDraw.with_currentBrushSize (Some size)).

Definition interpolateMass (d : DynaDraw.t) (brushSize : R) : R :=
  DynaDraw.minMass d
  + (DynaDraw.maxMass d - DynaDraw.minMass d) * (brushSize - DynaDraw.minBrushSize d)
    / (DynaDraw.maxBrushSize d - DynaDraw.minBrushSize d).

Definition interpolateFriction (d : DynaDraw.t) (brushSize : R) : R :=
  DynaDraw.maxFriction d
  - (DynaDraw.maxFriction d - DynaDraw.minFriction d) * (brushSize - DynaDraw.minBrushSize d)
    / (DynaDraw.maxBrushSize d - DynaDraw.minBrushSize d).

(** [this.brushes[brushSize]]: the object [brushes] used as a map from sizes
    to brushes, kept as an association list. *)
Fixpoint lookupBrush (brushSize : R) (brushes : list (R * BrushInstance)) : option BrushInstance :=
  match brushes with
  | [] => None
  | (k, b) :: rest => if decide (k = brushSize) then Some b else lookupBrush brushSize rest
  end.

Definition GetBrush (brushSize : R) : M BrushInstance :=
  let* d := get_this in
  match lookupBrush brushSize (DynaDraw.brushes d) with
  | Some b => ret b
  | None =>
      let b := mkBrush (interpolateMass d brushSize) (interpolateFriction d brushSize) brushSize in
      modify_this (DynaDraw.with_brushes ((brushSize, b) :: DynaDraw.brushes d));;;
      ret b
  end.

(** [new BrushTip(calculateSpeed, timer)]: the constructor has an empty body,
    and no method reads the timer. *)
Definition new_BrushTip (calculateSpeed : bool) : BrushTip.t :=
  BrushTip.mk calculateSpeed None None.

(** [new DynaDraw(pathFactory, slowSimulation, minBrushSize, maxBrushSize,
    timer)]: the field initialisers and the parameter properties, then the
    body of the constructor.  The path factory is the host's.  The new
    object takes the place of [this] in the world. *)
Definition constructor (slowSimulation : bool) (minBrushSize maxBrushSize : R) : M unit :=
  put_this (DynaDraw.mk (new_BrushTip true) None None None
                        1 10 0.4 0.6 None [] slowSimulation minBrushSize maxBrushSize
                        None None);;;
  (* start the periodical simulation right away! *)
  if slowSimulation then requestAnimationFrame FirstTick
  else requestAnimationFrame NextTickWhile.

Definition StartPath (position : loc) (pressure : R) : M unit :=
  let* d := get_this in
  let* size := deref (DynaDraw.currentBrushSize d) in
  let* b := GetBrush (BrushSize_Size size) in
  Reset position b;;;
  modify_this (DynaDraw.with_position (Some position));;;
  modify_this (DynaDraw.with_pressure (Some pressure));;;
  let* d := get_this in
  BrushTip_StartPath (DynaDraw.path d) position pressure.

Definition NextPoint (position : loc) (pressure : R) : M unit :=
  modify_this (DynaDraw.with_position (Some position));;;
  modify_this (DynaDraw.with_pressure (Some pressure)).

Definition EndPath (position : loc) (pressure : R) : M unit :=
  modify_this (DynaDraw.with_position (Some position)).

(** The block under [try] in [ObserveCursorMovement]. *)
Definition ObserveCursorMovement_try (cursor : CursorState) : M unit :=
  let* nextPoint := Vector2.new (Vec.mk (cursor_X cursor) (cursor_Y cursor)) in
  let* d := get_this in
  if decide (0 < Pressure cursor) then
    if match DynaDraw.lastState d with
       | None => true
       | Some last => bool_decide (Pressure last = 0)
       end
    then
      (* start a new path - prepare new chunk *)
      let* p := call_pathFactory in
      modify_this (DynaDraw.with_path (Some p));;;
      call (TriggerStartPath p);;;
      StartPath nextPoint (Pressure cursor)
    else NextPoint nextPoint (Pressure cursor)
  else
    match DynaDraw.lastState d with
    | Some last =>
        if decide (0 < Pressure last) then EndPath nextPoint (Pressure last)
        else ret tt
    | None => ret tt
    end.

Definition ObserveCursorMovement (cursor : CursorState) : M unit :=
  try_catch (ObserveCursorMovement_try cursor) (fun err => console_log err);;;
  modify_this (DynaDraw.with_lastState (Some cursor)).

End Simulator.

(** * The frame loop of the simulator *)

Section Frames.

Variable host : Host.

Definition with_lastAnimationTime (a : option R) (d : DynaDraw.t) : DynaDraw.t :=
  DynaDraw.mk (DynaDraw.cursor d) (DynaDraw.position d) (DynaDraw.pressure d)
              (DynaDraw.path d) (DynaDraw.minMass d) (DynaDraw.maxMass d)
              (DynaDraw.minFriction d) (DynaDraw.maxFriction d)
              (DynaDraw.currentBrushSize d) (DynaDraw.brushes d)
              (DynaDraw.slowSimulation d) (DynaDraw.minBrushSize d)
              (DynaDraw.maxBrushSize d) (DynaDraw.lastState d) a.

(** [private oneFrame: number = 1000 / 60], which no method assigns. *)
Definition oneFrame : R := 1000 / 60.

(** A field of type [number] read for arithmetic.  Where the field is still
    undefined JavaScript goes on with [NaN]; the reals have none, and the
    model stops with a [TypeError].  No theorem below rests on that case:
    each one about a frame is stated of worlds in which the numbers that
    the frame reads hold a number, or in which the brush tip was never reset
    and [ApplyForce] throws before the number is used. *)
Definition number_of (o : option R) : M R := deref o.

(** [Tick(time)] *)
Definition Tick (time : R) : M unit :=
  let* d := get_this in
  match DynaDraw.position d with
  | Some position =>
      let* last := number_of (DynaDraw.lastAnimationTime d) in
      let* d2 := ApplyForce position ((time - last) / oneFrame) in
      if decide (0 < d2) then
        let* d := get_this in
        let* pressure := number_of (DynaDraw.pressure d) in
        Draw host (DynaDraw.path d) pressure
      else
        (* skip Apply(..) that will return false next time *)
        modify_this (DynaDraw.with_position None)
  | None => ret tt
  end;;;
  (* do the next tick *)
  modify_this (with_lastAnimationTime (Some time));;;
  requestAnimationFrame NextTick.

(** The [do { .. } while (d2 > 0)] of [TickWhile], for at most [rounds]
    rounds: [None] when the loop would go on after them.  [this.position]
    is not assigned inside the loop, so it is read once. *)
Fixpoint TickWhile_loop (rounds : nat) (position : loc) (step : R) : M (option R) :=
  match rounds with
  | O => ret None
  | S rounds' =>
      let* d2 := ApplyForce position 1 in
      let step := step + d2 in
      let* d := get_this in
      let* size := deref (DynaDraw.currentBrushSize d) in
      let* step :=
        if decide (BrushSize_Size size < step) then
          (* distance traveled is at least sqrt(Size) *)
          let* pressure := number_of (DynaDraw.pressure d) in
          Draw host (DynaDraw.path d) pressure;;;
          ret 0
        else ret step in
      if decide (0 < d2) then TickWhile_loop rounds' position step
      else ret (Some step)
  end.

(** [TickWhile()], with a bound on the rounds of its loop; it returns [false]
    when the bound was reached, and then has done nothing after the loop. *)
Definition TickWhile (rounds : nat) : M bool :=
  let* d := get_this in
  match DynaDraw.position d with
  | Some position =>
      let* rest := TickWhile_loop rounds position 0 in
      match rest with
      | Some step =>
          (* draw the rest *)
          (if decide (0 < step) then
             let* d := get_this in
             let* pressure := number_of (DynaDraw.pressure d) in
             Draw host (DynaDraw.path d) pressure
           else ret tt);;;
          modify_this (DynaDraw.with_position None);;;
          (* do the next tick *)
          requestAnimationFrame NextTickWhile;;;
          ret true
      | None => ret false
      end
  | None =>
      requestAnimationFrame NextTickWhile;;;
      ret true
  end.

(** What the three callbacks given to [requestAnimationFrame] do. *)
Definition run_callback (rounds : nat) (cb : Callback) (time : R) : M bool :=
  match cb with
  | FirstTick =>
      modify_this (with_lastAnimationTime (Some time));;;
      Tick time;;;
      ret true
  | NextTick => Tick time;;; ret true
  | NextTickWhile => TickWhile rounds
  end.

End Frames.

(** * Specification vocabulary *)

Definition tip_fields (w : World) : option BrushTip.fields :=
  BrushTip.reset (DynaDraw.cursor (this w)).
Definition tip_angle (w : World) : option loc :=
  BrushTip.angle (DynaDraw.cursor (this w)).

(** What a method leaves alone: the host's side of the world, the simulator's
    own fields, and every object of the store but those at [changed]. *)
Record frame (changed : list loc) (w w' : World) : Prop := mkFrame {
  frame_events : events w' = events w;
  frame_console : console w' = console w;
  frame_scheduled : scheduled w' = scheduled w;
  frame_this : this w' = DynaDraw.with_cursor (DynaDraw.cursor (this w')) (this w);
  frame_calculateSpeed :
    BrushTip.calculateSpeed (DynaDraw.cursor (this w'))
    = BrushTip.calculateSpeed (DynaDraw.cursor (this w));
  frame_heap : forall l v, heap w !! l = Some v -> l ∉ changed -> heap w' !! l = Some v
}.

(** The vectors that one [ApplyForce] computes from the target [T], the
    position [P] and the velocity [V]. *)
Definition force (T P : Vec.t) : Vec.t := Vec.minus T P.
Definition pulled (b : BrushInstance) (T P V : Vec.t) : Vec.t :=
  Vec.plus V (Vec.times (force T P) (1 / Mass b)).
Definition dragged (b : BrushInstance) (elapsedFrames : R) (T P V : Vec.t) : Vec.t :=
  Vec.times (pulled b T P V) ((1 - Friction b) * elapsedFrames).

(** The world in which the brush tip's fields are [f]. *)
Definition with_fields (f : BrushTip.fields) (w : World) : World :=
  with_this
    (DynaDraw.with_cursor
       (BrushTip.mk (BrushTip.calculateSpeed (DynaDraw.cursor (this w)))
                    (BrushTip.angle (DynaDraw.cursor (this w))) (Some f))
       (this w)) w.

(** The pressure that [getRadius] interpolates from: the previous one, or
    the given one when there is none yet. *)
Definition seeded (f : BrushTip.fields) (pressure : R) : R :=
  if Rlt_dec (BrushTip.previousPressure f) 0 then pressure
  else BrushTip.previousPressure f.

(** The blend of [interpolatePressure], from the two distances. *)
Definition blend (d1 d2 mousePressure previousPressure : R) : R :=
  if decide (d1 = 0 /\ d2 = 0) then mousePressure
  else (d1 / (d1 + d2)) * (mousePressure - previousPressure) + previousPressure.

(** Sample worlds, for instances of the theorems below.  [start_world h] is
    the world of a simulator just constructed with the sizes 5 and 20, over
    the store [h]; [sample_world b P V T] has a brush tip that was reset, with
    the brush [b], at [P] with velocity [V], and a target object [T] at
    reference 5. *)
Definition simulator_5_20 : DynaDraw.t :=
  DynaDraw.mk (new_BrushTip true) None None None 1 10 0.4 0.6 None [] false 5 20 None None.
Definition start_world (h : list Vec.t) : World :=
  mkWorld h simulator_5_20 [] [] (Some NextTickWhile).
Definition sample_fields (b : BrushInstance) : BrushTip.fields :=
  BrushTip.mkFields 0 1 2 None b true 3 (-1) 4.
Definition sample_world (b : BrushInstance) (P V T : Vec.t) : World :=
  mkWorld [P; P; V; P; P; T]
          (DynaDraw.with_cursor (BrushTip.mk true None (Some (sample_fields b))) simulator_5_20)
          [] [] (Some NextTickWhile).

(** The scalar product. *)
Definition dot (a b : Vec.t) : R := Vec.X a * Vec.X b + Vec.Y a * Vec.Y b.

(** An energy of the brush relative to its target: with [c = 1 - friction],
    [(1 + c) |F|^2 + 2 c mass |V|^2 + 2 c (F . V)]. *)
Definition energy (b : BrushInstance) (T P V : Vec.t) : R :=
  let c := 1 - Friction b in
  (1 + c) * Vec.sizeSq (force T P) + 2 * c * Mass b * Vec.sizeSq V
  + 2 * c * dot (force T P) V.

(** What one moving step takes from the energy, at least. *)
Definition loss (b : BrushInstance) : R :=
  let c := 1 - Friction b in
  c * (1 - c) * (2 * Mass b * (1 + c) - c).

(** [n] calls [ApplyForce(mouse, 1)] in a row, as the loop of [TickWhile]
    makes them; their return values, first call first. *)
Fixpoint ApplyForce_times (n : nat) (mouse : loc) : M (list R) :=
  match n with
  | O => ret []
  | S k =>
      let* d := ApplyForce mouse 1 in
      let* ds := ApplyForce_times k mouse in
      ret (d :: ds)
  end.

(** Some call of the row returns 0. *)
Definition eventually_rests (w : World) (mouse : loc) : Prop :=
  exists n ds w', ApplyForce_times n mouse w = (Ok ds, w') /\ last ds = Some 0.

(** The brush tip of [w] has profile [b], position [P] and velocity [V], and
    [mouse] is an object apart that holds [T]. *)
Definition chasing (w : World) (b : BrushInstance) (mouse : loc) (T P V : Vec.t) : Prop :=
  exists f, tip_fields w = Some f /\ BrushTip.brush f = b
    /\ heap w !! mouse = Some T
    /\ heap w !! BrushTip.position f = Some P
    /\ heap w !! BrushTip.velocity f = Some V
    /\ BrushTip.position f <> BrushTip.velocity f
    /\ mouse <> BrushTip.velocity f
    /\ mouse <> BrushTip.position f.

(** One [ApplyForce], on the values alone. *)
Definition step (b : BrushInstance) (elapsedFrames : R) (T P V : Vec.t) : R * (Vec.t * Vec.t) :=
  if Rlt_dec (Vec.sizeSq (force T P)) Threshold.Force then (0, (P, V))
  else if Rlt_dec (Vec.sizeSq (pulled b T P V)) Threshold.Velocity
       then (0, (P, pulled b T P V))
       else (Vec.sizeSq (dragged b elapsedFrames T P V),
             (Vec.plus P (dragged b elapsedFrames T P V), dragged b elapsedFrames T P V)).

(** A brush of mass 1 without friction, at (0,0) with velocity (5,0), pulled
    towards (10,0). *)
Definition cycle_brush : BrushInstance := mkBrush 1 0 10.
Definition cycle_world : World :=
  sample_world cycle_brush (Vec.mk 0 0) (Vec.mk 5 0) (Vec.mk 10 0).

(** The six states that the brush of [cycle_world] goes through, for ever. *)
Definition on_cycle (P V : Vec.t) : Prop :=
  Vec.Y P = 0 /\ Vec.Y V = 0
  /\ ((Vec.X P = 0 /\ Vec.X V = 5) \/ (Vec.X P = 15 /\ Vec.X V = 15)
      \/ (Vec.X P = 25 /\ Vec.X V = 10) \/ (Vec.X P = 20 /\ Vec.X V = -5)
      \/ (Vec.X P = 5 /\ Vec.X V = -15) \/ (Vec.X P = -5 /\ Vec.X V = -10)).

(** A call to the host, without the vectors it was given. *)
Inductive Call :=
| Factory_
| Trigger_ (p : Path)
| StartPath_ (p : Path)
| InitPath_ (p : Path)
| ExtendPath_ (p : Path)
| Draw_ (p : Path).

Definition call_of (e : Event) : Call :=
  match e with
  | CallFactory => Factory_
  | TriggerStartPath p => Trigger_ p
  | PathStartPath p _ _ => StartPath_ p
  | PathInitPath p _ _ => InitPath_ p
  | PathExtendPath p _ _ => ExtendPath_ p
  | PathDraw p => Draw_ p
  end.

(** The [firstSegment] flag of the brush tip, if it was reset. *)
Definition first_flag (w : World) : option bool :=
  BrushTip.firstSegment <$> tip_fields w.

(** One stroke of the brush tip: after [Reset], the given pulls, each
    followed by a [Draw]; the values that [ApplyForce] returned. *)
Fixpoint segments (host : Host) (path : option Path) (steps : list (loc * R * R)) : M (list R) :=
  match steps with
  | [] => ret []
  | (mouse, elapsedFrames, pressure) :: rest =>
      let* d := ApplyForce mouse elapsedFrames in
      Draw host path pressure;;;
      let* ds := segments host path rest in
      ret (d :: ds)
  end.
Definition stroke (host : Host) (position : loc) (brush : BrushInstance)
    (path : option Path) (steps : list (loc * R * R)) : M (list R) :=
  Reset position brush;;;
  segments host path steps.

(** The calls that [n] segments make on the path [p]. *)
Fixpoint segment_calls (p : Path) (first : bool) (n : nat) : list Call :=
  match n with
  | O => []
  | S k => (if first then [InitPath_ p] else [])
           ++ [ExtendPath_ p; Draw_ p] ++ segment_calls p false k
  end.

(** Two pulls towards the object at reference 1, each for one frame, drawn
    with the pressures 1 and 0.5. *)
Definition two_pulls : list (loc * R * R) := [(1%nat, 1, 1); (1%nat, 1, 0.5)].

(** Every brush of the cache is the one that [GetBrush] makes for its size. *)
Definition cache_sound (d : DynaDraw.t) : Prop :=
  forall s b, lookupBrush s (DynaDraw.brushes d) = Some b ->
              b = mkBrush (interpolateMass d s) (interpolateFriction d s) s.

(** A computation keeps a property of the simulator, however it ends. *)
Definition keeps {A : Type} (I : DynaDraw.t -> Prop) (m : M A) : Prop :=
  forall w r w', m w = (r, w') -> I (this w) -> I (this w').

(** The part of the simulator that the brushes depend on. *)
Definition profile_data (d : DynaDraw.t) :=
  (DynaDraw.brushes d, DynaDraw.minMass d, DynaDraw.maxMass d, DynaDraw.minFriction d,
   DynaDraw.maxFriction d, DynaDraw.minBrushSize d, DynaDraw.maxBrushSize d).

(** A host whose path factory throws. *)
Definition brokenHost : Host := mkHost (fun _ => Throw (HostError 7)) (fun _ _ => None).

(** ** Vocabulary of the strokes and the frames *)

(** One animation frame, as the browser runs it: the callback that was asked
    for is called once, and its request is used up. *)
Definition animationFrame (host : Host) (rounds : nat) (time : R) : M bool :=
  fun w => match scheduled w with
           | Some cb => run_callback host rounds cb time (with_scheduled None w)
           | None => (Ok true, w)
           end.

(** The callback that a callback asks for when it returns. *)
Definition next_frame (cb : Callback) : Callback :=
  match cb with
  | FirstTick | NextTick => NextTick
  | NextTickWhile => NextTickWhile
  end.

(** What a method of the brush tip leaves alone outside the store and the
    brush tip. *)
Definition same_simulator (w w' : World) : Prop :=
  events w' = events w /\ console w' = console w /\ scheduled w' = scheduled w
  /\ this w' = DynaDraw.with_cursor (DynaDraw.cursor (this w')) (this w).

(** The brush tip of [w] is in a stroke towards the object [t]: it was
    reset, has the brush [b], the position [P] and the velocity [V]; [t]
    holds [T] and is neither its position nor its velocity; the objects of
    its other fields exist; the angle, if there is one, is an object apart
    from all of these. *)
Definition in_stroke (w : World) (b : BrushInstance) (t : loc) (T P V : Vec.t) : Prop :=
  exists f, tip_fields w = Some f /\ BrushTip.brush f = b
    /\ heap w !! t = Some T
    /\ heap w !! BrushTip.position f = Some P
    /\ heap w !! BrushTip.velocity f = Some V
    /\ is_Some (heap w !! BrushTip.startPosition f)
    /\ is_Some (heap w !! BrushTip.previousPosition f)
    /\ is_Some (heap w !! BrushTip.mousePosition f)
    /\ BrushTip.position f <> BrushTip.velocity f
    /\ t <> BrushTip.velocity f
    /\ t <> BrushTip.position f
    /\ forall n, tip_angle w = Some n ->
         is_Some (heap w !! n)
         /\ n ∉ [t; BrushTip.position f; BrushTip.velocity f; BrushTip.startPosition f;
                 BrushTip.previousPosition f; BrushTip.mousePosition f].

(** The simulator of [w] has the target [t], the path [p], the pressure
    [pressure] and the brush size [size]. *)
Definition aiming (w : World) (t : loc) (p : Path) (pressure : R) (size : BrushSize) : Prop :=
  DynaDraw.position (this w) = Some t
  /\ DynaDraw.path (this w) = Some p
  /\ DynaDraw.pressure (this w) = Some pressure
  /\ DynaDraw.currentBrushSize (this w) = Some size.

(** The relative speed that [Draw] passes to [getRadius], for the velocity
    [V]. *)
Definition relativeSpeed (w : World) (f : BrushTip.fields) (V : Vec.t) : R :=
  if BrushTip.calculateSpeed (DynaDraw.cursor (this w))
  then Vec.size V / (Size (BrushTip.brush f) * Size (BrushTip.brush f)) else 0.

(** A computation leaves an observation of the world as it was, however it
    ends. *)
Definition untouched {A X : Type} (obs : World -> X) (m : M A) : Prop :=
  forall w r w', m w = (r, w') -> obs w' = obs w.

(** The pen was up at the last sample, or there was none. *)
Definition pen_up (d : DynaDraw.t) : Prop :=
  match DynaDraw.lastState d with
  | None => True
  | Some last => Pressure last = 0
  end.

(** The point of a sample. *)
Definition point (c : CursorState) : Vec.t := Vec.mk (cursor_X c) (cursor_Y c).

(** The four physical constants are those of the field initialisers. *)
Definition standard_constants (d : DynaDraw.t) : Prop :=
  (DynaDraw.minMass d, DynaDraw.maxMass d, DynaDraw.minFriction d, DynaDraw.maxFriction d)
  = (1, 10, 0.4, 0.6).

(** What the brushes are made from, and the brush size. *)
Definition settings (d : DynaDraw.t) :=
  (DynaDraw.minMass d, DynaDraw.maxMass d, DynaDraw.minFriction d, DynaDraw.maxFriction d,
   DynaDraw.minBrushSize d, DynaDraw.maxBrushSize d, DynaDraw.currentBrushSize d).

(** The coordinates that the theorems on the end of a loop speak of: up to
    a million either way, which is far beyond a drawing surface and far
    below the numbers at which a double no longer holds every integer. *)
Definition reach : R := 1000000.
Definition within_reach (v : Vec.t) : Prop :=
  Rabs (Vec.X v) <= reach /\ Rabs (Vec.Y v) <= reach.

(** The masses and frictions of the brushes that [GetBrush] makes for the
    sizes between the two sizes of the simulator. *)
Definition made_brush (b : BrushInstance) : Prop :=
  1 <= Mass b <= 10 /\ 0.4 <= Friction b <= 0.6.

(** A brush that loses energy at every moving step. *)
Definition damped (b : BrushInstance) : Prop :=
  0 < Friction b < 1 /\ 2 * Mass b * (2 - Friction b) > 1 - Friction b.

(** More sample worlds.  [sized_world] is [start_world []] after
    [SetBrushSize] with the size 10.  [stroke_world b P V T] is a simulator in
    slow mode, before its first frame, in the middle of a stroke on the path
    0: the brush tip as in [sample_world], the target at reference 5, the
    pressure 1, the brush size 10.  [angled_world b P V T A] is
    [sample_world b P V T] with an angle [A], at reference 6. *)
Definition sized_world : World :=
  mkWorld [] (DynaDraw.with_currentBrushSize (Some (mkBrushSize 10)) simulator_5_20)
          [] [] (Some NextTickWhile).
Definition stroke_world (b : BrushInstance) (P V T : Vec.t) : World :=
  mkWorld [P; P; V; P; P; T]
          (DynaDraw.mk (BrushTip.mk true None (Some (sample_fields b)))
                       (Some 5%nat) (Some 1) (Some 0%nat) 1 10 0.4 0.6
                       (Some (mkBrushSize 10)) [] true 5 20 None (Some 0))
          [] [] (Some FirstTick).
Definition angled_world (b : BrushInstance) (P V T A : Vec.t) : World :=
  mkWorld [P; P; V; P; P; T; A]
          (DynaDraw.with_cursor (BrushTip.mk true (Some 6%nat) (Some (sample_fields b)))
                                simulator_5_20)
          [] [] (Some NextTickWhile).

(** ** Vocabulary of the sessions *)

(** A host that lets every call through and whose factory makes a path. *)
Definition benign (host : Host) : Prop :=
  (forall e tr, fails host e tr = None) /\ forall tr, exists p, pathFactory host tr = Ok p.

(** The simulator has the sizes [lo < hi], the constants of the field
    initialisers, a cache that only [GetBrush] has filled, and a brush size
    within the sizes that is not negative. *)
Definition settings_ok (lo hi : R) (d : DynaDraw.t) : Prop :=
  cache_sound d /\ standard_constants d
  /\ DynaDraw.minBrushSize d = lo /\ DynaDraw.maxBrushSize d = hi /\ lo < hi
  /\ exists size, DynaDraw.currentBrushSize d = Some size
       /\ lo <= BrushSize_Size size <= hi /\ 0 <= BrushSize_Size size.

(** The simulator waits for a frame that it can run: a [TickWhile], the
    first [Tick], or a later [Tick] with the time of the one before. *)
Definition waiting (w : World) : Prop :=
  scheduled w = Some NextTickWhile
  \/ scheduled w = Some FirstTick
  \/ (scheduled w = Some NextTick /\ is_Some (DynaDraw.lastAnimationTime (this w))).

(** The states of a simulator at work: well set, with nothing logged and no
    negative pressure seen; either it was never drawn with and the pen is
    up, or its brush tip is in a stroke with a damped brush and a path, and
    the target, if there is one, is the target of that stroke. *)
Definition working (lo hi : R) (w : World) : Prop :=
  settings_ok lo hi (this w)
  /\ console w = []
  /\ (forall last, DynaDraw.lastState (this w) = Some last -> 0 <= Pressure last)
  /\ ((tip_fields w = None /\ tip_angle w = None
       /\ DynaDraw.position (this w) = None /\ pen_up (this w))
      \/ exists b t T P V p pr first,
           in_stroke w b t T P V /\ damped b
           /\ DynaDraw.path (this w) = Some p
           /\ DynaDraw.pressure (this w) = Some pr
           /\ first_flag w = Some first
           /\ (DynaDraw.position (this w) = None \/ DynaDraw.position (this w) = Some t)).

Definition sound (lo hi : R) (w : World) : Prop := working lo hi w /\ waiting w.

(** What reaches the simulator: a sample of the cursor, an animation frame,
    a new brush size. *)
Inductive Input :=
| Sample (c : CursorState)
| Frame (time : R)
| BrushSizeSet (size : BrushSize).

(** The inputs of a session: a sample has no negative pressure and a point
    within [reach], a brush size is within the sizes and not negative. *)
Definition acceptable (lo hi : R) (i : Input) : Prop :=
  match i with
  | Sample c => 0 <= Pressure c /\ within_reach (point c)
  | Frame _ => True
  | BrushSizeSet size => lo <= BrushSize_Size size <= hi /\ 0 <= BrushSize_Size size
  end.

(** The simulator takes the input and returns; for a frame, some bound on
    the rounds of [TickWhile] is enough. *)
Definition feed (host : Host) (w : World) (i : Input) (w' : World) : Prop :=
  match i with
  | Sample c => ObserveCursorMovement host c w = (Ok tt, w')
  | Frame time => exists rounds, animationFrame host rounds time w = (Ok true, w')
  | BrushSizeSet size => SetBrushSize size w = (Ok tt, w')
  end.

Fixpoint feeds (host : Host) (w : World) (inputs : list Input) (w' : World) : Prop :=
  match inputs with
  | [] => w' = w
  | i :: rest => exists w1, feed host w i w1 /\ feeds host w1 rest w'
  end.

(** * Properties *)

(** ** The store *)

Lemma heap_alloc_old (h : list Vec.t) (x v : Vec.t) (l : loc) :
  h !! l = Some v -> (h ++ [x]) !! l = Some v.
Proof. intros H. apply lookup_app_l_Some. exact H. Qed.

Lemma heap_alloc_new (h : list Vec.t) (x : Vec.t) :
  (h ++ [x]) !! Vector2.fresh h = Some x.
Proof. apply list_lookup_middle. reflexivity. Qed.

Lemma heap_store_same (h : list Vec.t) (x v : Vec.t) (l : loc) :
  h !! l = Some v -> <[l := x]> h !! l = Some x.
Proof. intros H. apply list_lookup_insert_eq. eapply lookup_lt_Some. exact H. Qed.

Lemma heap_store_other (h : list Vec.t) (x v : Vec.t) (l l' : loc) :
  l <> l' -> h !! l' = Some v -> <[l := x]> h !! l' = Some v.
Proof. intros Hne H. rewrite list_lookup_insert_ne; assumption. Qed.

Lemma sizeSq_nonneg (v : Vec.t) : 0 <= Vec.sizeSq v.
Proof. unfold Vec.sizeSq. nra. Qed.

Lemma size_nonzero (v : Vec.t) : ~ Vec.sizeSq v < 1 -> Vec.size v <> 0.
Proof.
  intros H E. apply sqrt_eq_0 in E; [lra | apply sizeSq_nonneg].
Qed.

(** ** Tactics that run a method on a world *)

(** Unfolds the methods down to the store and the record updates. *)
Ltac run_unfold :=
  unfold ApplyForce, Reset, getRadius, interpolatePressure, field, assign,
    assign_angle, tip, put_tip, modify_this, put_this, get_this, deref,
    Vector2.clone, Vector2.add, Vector2.subtract, Vector2.scale,
    Vector2.getSizeSq, Vector2.getSize, Vector2.distanceTo, Vector2.getNormal,
    Vector2.new, Vector2.load, Vector2.store, bind, ret, throw, with_heap,
    with_this, with_events, with_console, with_scheduled, DynaDraw.with_cursor.

(** Arithmetic on references: a reference in use is below the length of the
    store, a fresh one is that length. *)
Ltac lengths :=
  repeat match goal with
         | H : _ !! _ = Some _ |- _ => apply lookup_lt_Some in H
         | H : _ ∉ _ :: _ |- _ => apply not_elem_of_cons in H; destruct H
         end;
  unfold Vector2.fresh in *;
  repeat (progress (rewrite ?length_insert, ?length_app in *)); cbn in *; lia.

(** Reads an object through the allocations and updates made since it was
    known. *)
Ltac solve_lookup :=
  lazymatch goal with
  | |- (?h ++ [_]) !! Vector2.fresh ?h = Some _ => apply heap_alloc_new
  | |- (?h ++ [_]) !! _ = Some _ => apply heap_alloc_old; solve_lookup
  | |- <[?l := _]> ?h !! ?l = Some _ => eapply heap_store_same; solve_lookup
  | |- <[_ := _]> _ !! _ = Some _ =>
      eapply heap_store_other; [ lengths | solve_lookup]
  | |- _ => eassumption
  end.

(** Resolves the next read of the store in the goal. *)
Ltac run_lookup :=
  match goal with
  | |- context [ @lookup _ _ _ _ ?l ?X ] =>
      let H := fresh "H" in
      eassert (H : X !! l = Some _) by solve_lookup;
      rewrite H; clear H
  end.

(** Takes the world apart, down to the fields of the brush tip. *)
Ltac open_world w :=
  let h := fresh "h" in
  destruct w as [h [[? ? ?] ? ? ? ? ? ? ? ? ? ? ? ? ? ?] ? ? ?];
  unfold tip_fields, tip_angle in *; cbn in *; subst.

(** Runs straight-line code, up to the next comparison of numbers. *)
Ltac run := repeat (cbn; try run_lookup).

(** Closes a [frame] goal of a world just computed. *)
Ltac frame_done :=
  split; cbn; try reflexivity; intros; solve_lookup.

(** ** Running the methods on a brush tip that was reset *)

Section ApplyForce_cases.

Variables (w : World) (f : BrushTip.fields) (T P V : Vec.t) (mouse : loc) (elapsedFrames : R).
Hypothesis Hfields : tip_fields w = Some f.
Hypothesis Hmouse : heap w !! mouse = Some T.
Hypothesis Hposition : heap w !! BrushTip.position f = Some P.

(** The force is below the threshold: nothing but a scratch object changes. *)
Lemma ApplyForce_subtle :
  Vec.sizeSq (force T P) < Threshold.Force ->
  exists w', ApplyForce mouse elapsedFrames w = (Ok 0, w')
    /\ this w' = this w /\ frame [] w w'.
Proof.
  intros Hlt. unfold force in *. open_world w. run_unfold. run.
  destruct (Rlt_dec _ _) as [_|N]; [|contradiction].
  eexists. split; [reflexivity|]. split; [reflexivity|]. frame_done.
Qed.

Hypothesis Hvelocity : heap w !! BrushTip.velocity f = Some V.
Hypothesis Hapart : BrushTip.position f <> BrushTip.velocity f.

(** The force passes, the velocity does not: the velocity keeps the pull. *)
Lemma ApplyForce_heavy :
  ~ Vec.sizeSq (force T P) < Threshold.Force ->
  Vec.sizeSq (pulled (BrushTip.brush f) T P V) < Threshold.Velocity ->
  exists w' a, ApplyForce mouse elapsedFrames w = (Ok 0, w')
    /\ tip_fields w' = Some (BrushTip.with_acceleration (Some a) f)
    /\ tip_angle w' = tip_angle w
    /\ heap w' !! BrushTip.velocity f = Some (pulled (BrushTip.brush f) T P V)
    /\ frame [BrushTip.velocity f] w w'.
Proof.
  intros Hge Hlt. unfold pulled, force in *. open_world w. run_unfold. run.
  destruct (Rlt_dec _ _) as [N|_]; [contradiction|]. run.
  destruct (Rlt_dec _ _) as [_|N]; [|contradiction].
  eexists. eexists. split; [reflexivity|]. cbn.
  split; [reflexivity|]. split; [reflexivity|]. split; [solve_lookup|]. frame_done.
Qed.

Hypothesis Hmouse_apart : mouse <> BrushTip.velocity f.

(** Both thresholds pass: the brush moves. *)
Lemma ApplyForce_moves :
  ~ Vec.sizeSq (force T P) < Threshold.Force ->
  ~ Vec.sizeSq (pulled (BrushTip.brush f) T P V) < Threshold.Velocity ->
  exists w' m n,
    ApplyForce mouse elapsedFrames w
    = (Ok (Vec.sizeSq (dragged (BrushTip.brush f) elapsedFrames T P V)), w')
    /\ tip_fields w'
       = Some (BrushTip.with_acceleration None (BrushTip.with_mousePosition m f))
    /\ tip_angle w' = Some n
    /\ heap w' !! BrushTip.velocity f
       = Some (dragged (BrushTip.brush f) elapsedFrames T P V)
    /\ heap w' !! BrushTip.position f
       = Some (Vec.plus P (dragged (BrushTip.brush f) elapsedFrames T P V))
    /\ heap w' !! m = Some T
    /\ heap w' !! n = Some (Vec.normal (pulled (BrushTip.brush f) T P V))
    /\ (Vector2.fresh (heap w) <= m)%nat /\ (Vector2.fresh (heap w) <= n)%nat
    /\ frame [BrushTip.velocity f; BrushTip.position f] w w'.
Proof.
  intros Hge Hge'. unfold dragged, pulled, force in *. open_world w. run_unfold. run.
  destruct (Rlt_dec _ _) as [N|_]; [contradiction|]. run.
  destruct (Rlt_dec _ _) as [N|_]; [contradiction|]. run.
  destruct (Req_dec_T _ _) as [E|_]; [exfalso; revert E; apply size_nonzero; assumption|].
  run.
  eexists. eexists (Vector2.fresh _). eexists (Vector2.fresh _).
  split; [reflexivity|]. cbn.
  split; [reflexivity|]. split; [reflexivity|].
  split; [solve_lookup|]. split; [solve_lookup|]. split; [solve_lookup|].
  split; [solve_lookup|]. split; [lengths|]. split; [lengths|]. frame_done.
Qed.

End ApplyForce_cases.

(** [Reset] makes five separate objects at the given point and a velocity
    at rest. *)
Lemma Reset_run (w : World) (p : loc) (P : Vec.t) (brush : BrushInstance) :
  heap w !! p = Some P ->
  exists w' f, Reset p brush w = (Ok tt, w')
    /\ tip_fields w' = Some f
    /\ tip_angle w' = tip_angle w
    /\ BrushTip.brush f = brush
    /\ BrushTip.firstSegment f = true
    /\ BrushTip.previousPressure f = -1
    /\ heap w' !! BrushTip.position f = Some P
    /\ heap w' !! BrushTip.startPosition f = Some P
    /\ heap w' !! BrushTip.previousPosition f = Some P
    /\ heap w' !! BrushTip.mousePosition f = Some P
    /\ heap w' !! BrushTip.velocity f = Some (Vec.mk 0 0)
    /\ BrushTip.position f <> BrushTip.velocity f
    /\ BrushTip.position f <> BrushTip.startPosition f
    /\ BrushTip.position f <> BrushTip.previousPosition f
    /\ BrushTip.position f <> BrushTip.mousePosition f
    /\ BrushTip.velocity f <> BrushTip.startPosition f
    /\ BrushTip.velocity f <> BrushTip.previousPosition f
    /\ BrushTip.velocity f <> BrushTip.mousePosition f
    /\ (Vector2.fresh (heap w) <= BrushTip.position f)%nat
    /\ (Vector2.fresh (heap w) <= BrushTip.velocity f)%nat
    /\ frame [] w w'.
Proof.
  intros Hp. open_world w. run_unfold. run.
  eexists. eexists. split; [reflexivity|]. cbn.
  split; [reflexivity|]. split; [reflexivity|]. split; [reflexivity|].
  split; [reflexivity|]. split; [reflexivity|]. cbn.
  split; [solve_lookup|]. split; [solve_lookup|]. split; [solve_lookup|].
  split; [solve_lookup|]. split; [solve_lookup|].
  split; [lengths|]. split; [lengths|]. split; [lengths|]. split; [lengths|].
  split; [lengths|]. split; [lengths|]. split; [lengths|].
  split; [lengths|]. split; [lengths|].
  frame_done.
Qed.

Section Pressure.

Variables (w : World) (f : BrushTip.fields) (P PP MP : Vec.t).
Hypothesis Hfields : tip_fields w = Some f.
Hypothesis Hposition : heap w !! BrushTip.position f = Some P.
Hypothesis Hprevious : heap w !! BrushTip.previousPosition f = Some PP.
Hypothesis Hmouse : heap w !! BrushTip.mousePosition f = Some MP.

Lemma interpolatePressure_run (mousePressure : R) :
  interpolatePressure mousePressure w
  = (Ok (blend (Vec.dist P PP) (Vec.dist P MP) mousePressure (BrushTip.previousPressure f)), w).
Proof.
  unfold blend. open_world w. run_unfold. run.
  destruct (decide _); reflexivity.
Qed.

(** [getRadius] leaves [previousPosition] holding the very reference that
    [position] holds. *)
Lemma getRadius_run (pressure speed : R) :
  let ip := blend (Vec.dist P PP) (Vec.dist P MP) pressure (seeded f pressure) in
  getRadius pressure speed w
  = (Ok (speedFactor speed * Size (BrushTip.brush f) * ip / 2),
     with_fields (BrushTip.with_previousPressure ip
                    (BrushTip.with_previousPosition (BrushTip.position f) f)) w).
Proof.
  unfold blend, seeded, with_fields. open_world w. run_unfold. run.
  destruct (Rlt_dec _ _); run; destruct (decide _); reflexivity.
Qed.

End Pressure.

(** ** One step of the simulation *)

Lemma dist_self (P : Vec.t) : Vec.dist P P = 0.
Proof.
  unfold Vec.dist, Vec.size, Vec.sizeSq, Vec.minus. cbn.
  replace ((Vec.X P - Vec.X P) * (Vec.X P - Vec.X P)
           + (Vec.Y P - Vec.Y P) * (Vec.Y P - Vec.Y P)) with 0 by ring.
  apply sqrt_0.
Qed.

Lemma frame_lookup (changed : list loc) (w w' : World) (l : loc) (v : Vec.t) :
  frame changed w w' -> heap w !! l = Some v -> l ∉ changed -> heap w' !! l = Some v.
Proof. intros F. apply (frame_heap _ _ _ F). Qed.

(** A reference is none of those listed. *)
Ltac apart :=
  repeat (apply not_elem_of_cons; split);
  try apply not_elem_of_nil; try assumption; try (apply not_eq_sym; assumption).

(** C1 (scenario A).  A brush tip reset at (0,0) with mass 5 and friction
    0.5, pulled once towards (10,0) for one frame, returns the squared
    distance 1 and ends with velocity (1,0) at position (1,0). *)
Theorem C1_scenario_A (w : World) (p t : loc) (b : BrushInstance) :
  heap w !! p = Some (Vec.mk 0 0) ->
  heap w !! t = Some (Vec.mk 10 0) ->
  Mass b = 5 -> Friction b = 0.5 ->
  exists w1 w2 f,
    Reset p b w = (Ok tt, w1)
    /\ ApplyForce t 1 w1 = (Ok 1, w2)
    /\ tip_fields w2 = Some f
    /\ heap w2 !! BrushTip.velocity f = Some (Vec.mk 1 0)
    /\ heap w2 !! BrushTip.position f = Some (Vec.mk 1 0).
Proof.
  intros Hp Ht Hm Hf.
  destruct (Reset_run w p _ b Hp)
    as (w1 & f & HR & Hfields & _ & Hb & _ & _ & HP & _ & _ & _ & HV & Hne & _ & _ & _ & _ & _ & _ & Hlp & Hlv & F).
  assert (Ht1 : heap w1 !! t = Some (Vec.mk 10 0))
    by (apply (frame_lookup _ _ _ _ _ F Ht); apart).
  assert (Htv : t <> BrushTip.velocity f) by lengths.
  destruct (ApplyForce_moves w1 f (Vec.mk 10 0) (Vec.mk 0 0) (Vec.mk 0 0) t 1
              Hfields Ht1 HP HV Hne Htv)
    as (w2 & m & n & HA & Hfields2 & _ & HV2 & HP2 & _).
  - unfold force, Vec.sizeSq, Vec.minus, Threshold.Force. cbn. lra.
  - unfold pulled, force, Vec.sizeSq, Vec.plus, Vec.times, Vec.minus, Threshold.Velocity.
    cbn. rewrite Hb, Hm. lra.
  - exists w1, w2, (BrushTip.with_acceleration None (BrushTip.with_mousePosition m f)).
    split; [exact HR|].
    assert (E : dragged (BrushTip.brush f) 1 (Vec.mk 10 0) (Vec.mk 0 0) (Vec.mk 0 0) = Vec.mk 1 0).
    { unfold dragged, pulled, force, Vec.plus, Vec.times, Vec.minus. cbn.
      rewrite Hb, Hm, Hf. f_equal; lra. }
    rewrite E in *. split.
    + rewrite HA. do 2 f_equal. unfold Vec.sizeSq. cbn. lra.
    + split; [exact Hfields2|]. cbn. split; [exact HV2|].
      rewrite HP2. f_equal. unfold Vec.plus. cbn. f_equal; lra.
Qed.

Lemma C1_scenario_A_witness :
  exists w1 w2 f,
    Reset 0%nat (mkBrush 5 0.5 10) (start_world [Vec.mk 0 0; Vec.mk 10 0]) = (Ok tt, w1)
    /\ ApplyForce 1%nat 1 w1 = (Ok 1, w2)
    /\ tip_fields w2 = Some f
    /\ heap w2 !! BrushTip.velocity f = Some (Vec.mk 1 0)
    /\ heap w2 !! BrushTip.position f = Some (Vec.mk 1 0).
Proof.
  apply (C1_scenario_A (start_world [Vec.mk 0 0; Vec.mk 10 0]) 0%nat 1%nat (mkBrush 5 0.5 10));
    reflexivity.
Defined.

(** C8 (force threshold).  Pulled towards a target that equals its position,
    the brush tip returns 0; its fields, its position and its velocity are
    as before, whatever the elapsed frames. *)
Theorem C8_target_at_position (w : World) (f : BrushTip.fields) (P : Vec.t)
    (mouse : loc) (elapsedFrames : R) :
  tip_fields w = Some f ->
  heap w !! BrushTip.position f = Some P ->
  heap w !! mouse = Some P ->
  exists w',
    ApplyForce mouse elapsedFrames w = (Ok 0, w')
    /\ tip_fields w' = Some f
    /\ tip_angle w' = tip_angle w
    /\ heap w' !! BrushTip.position f = Some P
    /\ (forall V, heap w !! BrushTip.velocity f = Some V ->
                  heap w' !! BrushTip.velocity f = Some V).
Proof.
  intros Hf Hp Hm.
  destruct (ApplyForce_subtle w f P P mouse elapsedFrames Hf Hm Hp) as (w' & HA & Hthis & F).
  - unfold force, Vec.sizeSq, Vec.minus, Threshold.Force. cbn. nra.
  - exists w'. split; [exact HA|]. unfold tip_fields, tip_angle. rewrite Hthis.
    split; [exact Hf|]. split; [reflexivity|].
    split; [apply (frame_lookup _ _ _ _ _ F Hp); apart|].
    intros V HV. apply (frame_lookup _ _ _ _ _ F HV); apart.
Qed.

Lemma C8_target_at_position_witness :
  exists w',
    ApplyForce 5%nat 3 (sample_world (mkBrush 5 0.5 10) (Vec.mk 2 7) (Vec.mk 4 1) (Vec.mk 2 7))
    = (Ok 0, w')
    /\ tip_fields w' = Some (sample_fields (mkBrush 5 0.5 10))
    /\ tip_angle w' = None
    /\ heap w' !! 0%nat = Some (Vec.mk 2 7)
    /\ (forall V, Some (Vec.mk 4 1) = Some V -> heap w' !! 2%nat = Some V).
Proof.
  apply (C8_target_at_position
           (sample_world (mkBrush 5 0.5 10) (Vec.mk 2 7) (Vec.mk 4 1) (Vec.mk 2 7))
           (sample_fields (mkBrush 5 0.5 10)) (Vec.mk 2 7) 5%nat 3);
    reflexivity.
Defined.

(** C10 (a zero return that changes the state).  When the force passes its
    threshold and the pulled velocity does not pass its own, [ApplyForce]
    returns 0 and yet the velocity keeps the pull [force / mass]; the
    acceleration field is left set; the references of the other fields and
    of [angle], and every object but the velocity (so the position, the
    orientation and the last raw pointer position) are as before.  A second
    call with the same target starts from the pulled velocity, and moves the
    brush as soon as that passes the threshold. *)
Theorem C10_heavy_brush_keeps_the_pull (w : World) (f : BrushTip.fields)
    (T P V : Vec.t) (mouse : loc) (elapsedFrames : R) :
  tip_fields w = Some f ->
  heap w !! mouse = Some T ->
  heap w !! BrushTip.position f = Some P ->
  heap w !! BrushTip.velocity f = Some V ->
  BrushTip.position f <> BrushTip.velocity f ->
  mouse <> BrushTip.velocity f ->
  Mass (BrushTip.brush f) <> 0 ->
  ~ Vec.sizeSq (Vec.minus T P) < Threshold.Force ->
  Vec.sizeSq (Vec.plus V (Vec.times (Vec.minus T P) (1 / Mass (BrushTip.brush f))))
  < Threshold.Velocity ->
  let V1 := Vec.plus V (Vec.times (Vec.minus T P) (1 / Mass (BrushTip.brush f))) in
  let V2 := Vec.plus V1 (Vec.times (Vec.minus T P) (1 / Mass (BrushTip.brush f))) in
  exists w1 a,
    ApplyForce mouse elapsedFrames w = (Ok 0, w1)
    /\ heap w1 !! BrushTip.velocity f = Some V1
    /\ tip_fields w1 = Some (BrushTip.with_acceleration (Some a) f)
    /\ tip_angle w1 = tip_angle w
    /\ (forall l v, heap w !! l = Some v -> l <> BrushTip.velocity f -> heap w1 !! l = Some v)
    /\ (~ Vec.sizeSq V2 < Threshold.Velocity ->
        exists w2, ApplyForce mouse elapsedFrames w1
                   = (Ok (Vec.sizeSq (Vec.times V2 ((1 - Friction (BrushTip.brush f)) * elapsedFrames))), w2)).
Proof.
  intros Hf Hm Hp Hv Hne Hmv _ Hge Hlt V1 V2.
  destruct (ApplyForce_heavy w f T P V mouse elapsedFrames Hf Hm Hp Hv Hne Hge Hlt)
    as (w1 & a & HA & Hf1 & Han & Hv1 & F).
  exists w1, a. split; [exact HA|]. split; [exact Hv1|]. split; [exact Hf1|].
  split; [exact Han|]. split.
  - intros l v Hl Hn. apply (frame_lookup _ _ _ _ _ F Hl); apart.
  - intros Hge2.
    assert (Hm1 : heap w1 !! mouse = Some T) by (apply (frame_lookup _ _ _ _ _ F Hm); apart).
    assert (Hp1 : heap w1 !! BrushTip.position f = Some P)
      by (apply (frame_lookup _ _ _ _ _ F Hp); apart).
    destruct (ApplyForce_moves w1 _ T P V1 mouse elapsedFrames Hf1 Hm1 Hp1 Hv1 Hne Hmv Hge Hge2)
      as (w2 & m & n & HA2 & _).
    exists w2. exact HA2.
Qed.

Lemma C10_heavy_brush_keeps_the_pull_witness :
  let w := sample_world (mkBrush 4 0.5 10) (Vec.mk 0 0) (Vec.mk 0 0) (Vec.mk 2 0) in
  let V1 := Vec.plus (Vec.mk 0 0) (Vec.times (Vec.minus (Vec.mk 2 0) (Vec.mk 0 0)) (1 / 4)) in
  let V2 := Vec.plus V1 (Vec.times (Vec.minus (Vec.mk 2 0) (Vec.mk 0 0)) (1 / 4)) in
  exists w1 a,
    ApplyForce 5%nat 1 w = (Ok 0, w1)
    /\ heap w1 !! 2%nat = Some V1
    /\ tip_fields w1 = Some (BrushTip.with_acceleration (Some a) (sample_fields (mkBrush 4 0.5 10)))
    /\ tip_angle w1 = None
    /\ (forall l v, heap w !! l = Some v -> l <> 2%nat -> heap w1 !! l = Some v)
    /\ (~ Vec.sizeSq V2 < 1 ->
        exists w2, ApplyForce 5%nat 1 w1
                   = (Ok (Vec.sizeSq (Vec.times V2 ((1 - 0.5) * 1))), w2)).
Proof.
  apply (C10_heavy_brush_keeps_the_pull
           (sample_world (mkBrush 4 0.5 10) (Vec.mk 0 0) (Vec.mk 0 0) (Vec.mk 2 0))
           (sample_fields (mkBrush 4 0.5 10)) (Vec.mk 2 0) (Vec.mk 0 0) (Vec.mk 0 0) 5%nat 1);
    try reflexivity; try (cbn; lia);
    unfold Threshold.Force, Threshold.Velocity, Vec.sizeSq, Vec.plus, Vec.times, Vec.minus;
    cbn; lra.
Defined.

(** ** Pressure interpolation *)

(** C4.  With [d1] the distance from the position to the previous position
    and [d2] the distance from the position to the last raw pointer
    position: when both are zero [interpolatePressure] returns the raw
    pressure itself, and otherwise it returns
    [(d1 / (d1 + d2)) * (rawPressure - previousPressure) + previousPressure].
    It changes nothing.  In particular it returns the raw pressure when the
    three positions are equal. *)
Theorem C4_interpolatePressure (w : World) (f : BrushTip.fields)
    (P PP MP : Vec.t) (rawPressure : R) :
  tip_fields w = Some f ->
  heap w !! BrushTip.position f = Some P ->
  heap w !! BrushTip.previousPosition f = Some PP ->
  heap w !! BrushTip.mousePosition f = Some MP ->
  let d1 := Vec.dist P PP in
  let d2 := Vec.dist P MP in
  (d1 = 0 -> d2 = 0 -> interpolatePressure rawPressure w = (Ok rawPressure, w))
  /\ (~ (d1 = 0 /\ d2 = 0) ->
      interpolatePressure rawPressure w
      = (Ok ((d1 / (d1 + d2)) * (rawPressure - BrushTip.previousPressure f)
             + BrushTip.previousPressure f), w))
  /\ (PP = P -> MP = P -> interpolatePressure rawPressure w = (Ok rawPressure, w)).
Proof.
  intros Hf Hp Hpp Hmp d1 d2.
  rewrite (interpolatePressure_run w f P PP MP Hf Hp Hpp Hmp). unfold blend.
  fold d1 d2. split; [|split].
  - intros E1 E2. destruct (decide _) as [_|N]; [reflexivity|]. exfalso. apply N. split; assumption.
  - intros N. destruct (decide _) as [E|_]; [contradiction|reflexivity].
  - intros -> ->. subst d1 d2. rewrite dist_self.
    destruct (decide _) as [_|N]; [reflexivity|]. exfalso. apply N. split; reflexivity.
Qed.

Lemma C4_interpolatePressure_witness :
  let w := sample_world (mkBrush 5 0.5 10) (Vec.mk 3 4) (Vec.mk 0 0) (Vec.mk 0 0) in
  let d1 := Vec.dist (Vec.mk 3 4) (Vec.mk 3 4) in
  let d2 := Vec.dist (Vec.mk 3 4) (Vec.mk 3 4) in
  (d1 = 0 -> d2 = 0 -> interpolatePressure 0.7 w = (Ok 0.7, w))
  /\ (~ (d1 = 0 /\ d2 = 0) ->
      interpolatePressure 0.7 w = (Ok ((d1 / (d1 + d2)) * (0.7 - -1) + -1), w))
  /\ (Vec.mk 3 4 = Vec.mk 3 4 -> Vec.mk 3 4 = Vec.mk 3 4 ->
      interpolatePressure 0.7 w = (Ok 0.7, w)).
Proof.
  apply (C4_interpolatePressure
           (sample_world (mkBrush 5 0.5 10) (Vec.mk 3 4) (Vec.mk 0 0) (Vec.mk 0 0))
           (sample_fields (mkBrush 5 0.5 10)) (Vec.mk 3 4) (Vec.mk 3 4) (Vec.mk 3 4) 0.7);
    reflexivity.
Defined.

(** C3, on the code.  [getRadius] stores in [previousPosition] the reference
    held by [position], not a copy.  So after [Reset] at (0,0), one
    [getRadius] and one [ApplyForce] that moves the brush to (1,0), the
    previous position reads (1,0) as well, not the (0,0) of the moment of
    [getRadius]; the distance [d1] is 0, not 1, and [interpolatePressure]
    returns the previous pressure 1 for the raw pressure 0.5, where a copy
    of the position would give 0.95. *)
Theorem C3_previousPosition_follows_position (w : World) (p t : loc) (size : R) :
  heap w !! p = Some (Vec.mk 0 0) ->
  heap w !! t = Some (Vec.mk 10 0) ->
  exists w1 w2 w3 f r,
    Reset p (mkBrush 5 0.5 size) w = (Ok tt, w1)
    /\ getRadius 1 0 w1 = (Ok r, w2)
    /\ ApplyForce t 1 w2 = (Ok 1, w3)
    /\ tip_fields w3 = Some f
    /\ BrushTip.previousPosition f = BrushTip.position f
    /\ heap w3 !! BrushTip.position f = Some (Vec.mk 1 0)
    /\ heap w3 !! BrushTip.previousPosition f = Some (Vec.mk 1 0)
    /\ heap w3 !! BrushTip.mousePosition f = Some (Vec.mk 10 0)
    /\ BrushTip.previousPressure f = 1
    /\ interpolatePressure 0.5 w3 = (Ok 1, w3).
Proof.
  intros Hp Ht.
  destruct (Reset_run w p _ (mkBrush 5 0.5 size) Hp)
    as (w1 & f & HR & Hf1 & _ & Hb & _ & Hpr & HP & _ & HPP & HMP & HV & Hne & _ & _ & _ & _ & _ & _ & Hlp & Hlv & F).
  pose proof (getRadius_run w1 f _ _ _ Hf1 HP HPP HMP 1 0) as HG. cbn zeta in HG.
  rewrite dist_self in HG.
  assert (Eb : blend 0 0 1 (seeded f 1) = 1).
  { unfold blend. destruct (decide _) as [_|N]; [reflexivity|]. exfalso. apply N. split; reflexivity. }
  rewrite Eb in HG.
  set (f2 := BrushTip.with_previousPressure 1
               (BrushTip.with_previousPosition (BrushTip.position f) f)) in *.
  set (w2 := with_fields f2 w1) in *.
  assert (Ht2 : heap w2 !! t = Some (Vec.mk 10 0))
    by (apply (frame_lookup _ _ _ _ _ F Ht); apart).
  assert (Htv : t <> BrushTip.velocity f2) by (cbn; lengths).
  destruct (ApplyForce_moves w2 f2 (Vec.mk 10 0) (Vec.mk 0 0) (Vec.mk 0 0) t 1
              eq_refl Ht2 HP HV Hne Htv)
    as (w3 & m & n & HA & Hf3 & _ & HV3 & HP3 & HM3 & _).
  - unfold force, Vec.sizeSq, Vec.minus, Threshold.Force. cbn. lra.
  - unfold pulled, force, Vec.sizeSq, Vec.plus, Vec.times, Vec.minus, Threshold.Velocity.
    cbn. rewrite Hb. cbn. lra.
  - assert (E : dragged (BrushTip.brush f2) 1 (Vec.mk 10 0) (Vec.mk 0 0) (Vec.mk 0 0) = Vec.mk 1 0).
    { unfold dragged, pulled, force, Vec.plus, Vec.times, Vec.minus. cbn.
      rewrite Hb. cbn. f_equal; lra. }
    rewrite E in *.
    assert (E1 : Vec.plus (Vec.mk 0 0) (Vec.mk 1 0) = Vec.mk 1 0)
      by (unfold Vec.plus; cbn; f_equal; lra).
    rewrite E1 in HP3. cbn in HP3.
    exists w1, w2, w3, (BrushTip.with_acceleration None (BrushTip.with_mousePosition m f2)).
    eexists.
    split; [exact HR|]. split; [exact HG|]. split.
    { rewrite HA. do 2 f_equal. unfold Vec.sizeSq. cbn. lra. }
    split; [exact Hf3|]. cbn. split; [reflexivity|]. split; [exact HP3|].
    split; [exact HP3|]. split; [exact HM3|]. split; [reflexivity|].
    rewrite (interpolatePressure_run w3 _ (Vec.mk 1 0) (Vec.mk 1 0) (Vec.mk 10 0) Hf3 HP3 HP3 HM3).
    do 2 f_equal. rewrite dist_self. unfold blend. cbn.
    destruct (decide _) as [[_ E0]|_].
    + exfalso. revert E0. apply size_nonzero.
      unfold Vec.sizeSq, Vec.minus. cbn. lra.
    + unfold Rdiv. ring.
Qed.

Lemma C3_previousPosition_follows_position_witness :
  exists w1 w2 w3 f r,
    Reset 0%nat (mkBrush 5 0.5 10) (start_world [Vec.mk 0 0; Vec.mk 10 0]) = (Ok tt, w1)
    /\ getRadius 1 0 w1 = (Ok r, w2)
    /\ ApplyForce 1%nat 1 w2 = (Ok 1, w3)
    /\ tip_fields w3 = Some f
    /\ BrushTip.previousPosition f = BrushTip.position f
    /\ heap w3 !! BrushTip.position f = Some (Vec.mk 1 0)
    /\ heap w3 !! BrushTip.previousPosition f = Some (Vec.mk 1 0)
    /\ heap w3 !! BrushTip.mousePosition f = Some (Vec.mk 10 0)
    /\ BrushTip.previousPressure f = 1
    /\ interpolatePressure 0.5 w3 = (Ok 1, w3).
Proof.
  apply (C3_previousPosition_follows_position
           (start_world [Vec.mk 0 0; Vec.mk 10 0]) 0%nat 1%nat 10);
    reflexivity.
Defined.

(** ** Coming to rest *)

Lemma energy_step (b : BrushInstance) (T P V : Vec.t) :
  Mass b <> 0 ->
  energy b T (Vec.plus P (dragged b 1 T P V)) (dragged b 1 T P V)
  = energy b T P V - loss b * Vec.sizeSq (pulled b T P V).
Proof.
  intros Hm. unfold energy, loss, dot, dragged, pulled, force, Vec.sizeSq, Vec.plus, Vec.times, Vec.minus.
  cbn. field. exact Hm.
Qed.

Lemma energy_nonneg (b : BrushInstance) (T P V : Vec.t) :
  0 < Friction b < 1 -> 2 * Mass b * (2 - Friction b) > 1 - Friction b ->
  0 <= energy b T P V.
Proof.
  intros [H0 H1] Hm. unfold energy, dot, force, Vec.sizeSq, Vec.minus. cbn.
  set (c := 1 - Friction b). set (m := Mass b) in *.
  set (fx := Vec.X T - Vec.X P). set (fy := Vec.Y T - Vec.Y P).
  set (vx := Vec.X V). set (vy := Vec.Y V).
  assert (Hc : 0 < c < 1) by (unfold c; lra).
  assert (Hd : 0 < 2 * m * (1 + c) - c) by (unfold c; lra).
  assert (E : (1 + c) * ((1 + c) * (fx * fx + fy * fy) + 2 * c * m * (vx * vx + vy * vy) + 2 * c * (fx * vx + fy * vy))
          = ((1 + c) * fx + c * vx) ^ 2 + ((1 + c) * fy + c * vy) ^ 2
            + c * (2 * m * (1 + c) - c) * (vx * vx + vy * vy)) by ring.
  assert (0 <= (1 + c) * ((1 + c) * (fx * fx + fy * fy) + 2 * c * m * (vx * vx + vy * vy) + 2 * c * (fx * vx + fy * vy))).
  { rewrite E. 
    assert (0 <= ((1 + c) * fx + c * vx) ^ 2) by (apply pow2_ge_0).
    assert (0 <= ((1 + c) * fy + c * vy) ^ 2) by (apply pow2_ge_0).
    assert (0 <= c * (2 * m * (1 + c) - c) * (vx * vx + vy * vy)).
    { apply Rmult_le_pos; [apply Rmult_le_pos; lra| nra]. }
    lra. }
  apply (Rmult_le_reg_l (1 + c)); [lra|]. lra.
Qed.

Lemma loss_pos (b : BrushInstance) :
  0 < Friction b < 1 -> 2 * Mass b * (2 - Friction b) > 1 - Friction b -> 0 < loss b.
Proof.
  intros [H0 H1] Hm. unfold loss. cbn.
  apply Rmult_lt_0_compat; [apply Rmult_lt_0_compat; lra | lra].
Qed.

Lemma ApplyForce_chasing (w : World) (b : BrushInstance) (mouse : loc)
    (T P V : Vec.t) (elapsedFrames : R) :
  chasing w b mouse T P V ->
  exists w', ApplyForce mouse elapsedFrames w = (Ok (fst (step b elapsedFrames T P V)), w')
    /\ chasing w' b mouse T (fst (snd (step b elapsedFrames T P V)))
                            (snd (snd (step b elapsedFrames T P V))).
Proof.
  intros (f & Hf & <- & Hm & Hp & Hv & Hne & Hmv & Hmp). unfold step.
  destruct (Rlt_dec _ _) as [Hlt|Hge].
  - destruct (ApplyForce_subtle w f T P mouse elapsedFrames Hf Hm Hp Hlt) as (w' & HA & Hthis & F).
    exists w'. split; [exact HA|]. exists f. unfold tip_fields. rewrite Hthis.
    repeat split; try assumption; eapply frame_lookup; eauto; apart.
  - destruct (Rlt_dec _ _) as [Hlt|Hge'].
    + destruct (ApplyForce_heavy w f T P V mouse elapsedFrames Hf Hm Hp Hv Hne Hge Hlt)
        as (w' & a & HA & Hf' & _ & Hv' & F).
      exists w'. split; [exact HA|]. eexists. split; [exact Hf'|]. cbn.
      repeat split; try assumption; eapply frame_lookup; eauto; apart.
    + destruct (ApplyForce_moves w f T P V mouse elapsedFrames Hf Hm Hp Hv Hne Hmv Hge Hge')
        as (w' & m & n & HA & Hf' & _ & Hv' & Hp' & _ & _ & _ & _ & F).
      exists w'. split; [exact HA|]. eexists. split; [exact Hf'|]. cbn.
      repeat split; try assumption; eapply frame_lookup; eauto; apart.
Qed.

Lemma ApplyForce_times_S (n : nat) (mouse : loc) (w w1 w2 : World) (d : R) (ds : list R) :
  ApplyForce mouse 1 w = (Ok d, w1) ->
  ApplyForce_times n mouse w1 = (Ok ds, w2) ->
  ApplyForce_times (S n) mouse w = (Ok (d :: ds), w2).
Proof. intros H1 H2. cbn. unfold bind. rewrite H1, H2. reflexivity. Qed.

Lemma rests_within (b : BrushInstance) (mouse : loc) (T : Vec.t) :
  0 < Friction b < 1 -> 2 * Mass b * (2 - Friction b) > 1 - Friction b ->
  forall (N : nat) (w : World) (P V : Vec.t),
    chasing w b mouse T P V ->
    energy b T P V < INR N * loss b ->
    eventually_rests w mouse.
Proof.
  intros Hf Hm. pose proof (loss_pos b Hf Hm) as Hloss.
  assert (Hmass : 0 < Mass b) by nra.
  induction N as [|N IH]; intros w P V Hc HE.
  - pose proof (energy_nonneg b T P V Hf Hm). cbn in HE. lra.
  - destruct (ApplyForce_chasing w b mouse T P V 1 Hc) as (w1 & HA & Hc1).
    unfold step in *.
    destruct (Rlt_dec _ _) as [Hlt|Hge]; cbn [fst snd] in *.
    { exists 1%nat, [0], w1. split; [|reflexivity].
      apply (ApplyForce_times_S 0 mouse w w1 w1 0 []); [exact HA|reflexivity]. }
    destruct (Rlt_dec _ _) as [Hlt|Hge']; cbn [fst snd] in *.
    { exists 1%nat, [0], w1. split; [|reflexivity].
      apply (ApplyForce_times_S 0 mouse w w1 w1 0 []); [exact HA|reflexivity]. }
    destruct (IH w1 _ _ Hc1) as (n & ds & w2 & Hrun & Hlast).
    + rewrite energy_step by lra. rewrite S_INR in HE.
      unfold Threshold.Velocity in Hge'.
      assert (loss b <= loss b * Vec.sizeSq (pulled b T P V)) by nra.
      lra.
    + exists (S n), (Vec.sizeSq (dragged b 1 T P V) :: ds), w2. split.
      * apply (ApplyForce_times_S n mouse w w1 w2); assumption.
      * destruct ds as [|d ds]; [discriminate|]. exact Hlast.
Qed.

Lemma cycle_step (P V : Vec.t) :
  on_cycle P V ->
  0 < fst (step cycle_brush 1 (Vec.mk 10 0) P V)
  /\ on_cycle (fst (snd (step cycle_brush 1 (Vec.mk 10 0) P V)))
              (snd (snd (step cycle_brush 1 (Vec.mk 10 0) P V))).
Proof.
  destruct P as [px py], V as [vx vy]. unfold on_cycle. cbn.
  intros (-> & -> & H). unfold step.
  destruct (Rlt_dec _ _) as [Hlt|_].
  { exfalso. revert Hlt. unfold force, Vec.sizeSq, Vec.minus, Threshold.Force. cbn.
    intros Hlt. decompose [and or] H; subst; lra. }
  destruct (Rlt_dec _ _) as [Hlt|_].
  { exfalso. revert Hlt.
    unfold pulled, force, Vec.sizeSq, Vec.plus, Vec.times, Vec.minus, Threshold.Velocity. cbn.
    intros Hlt. decompose [and or] H; subst; lra. }
  unfold dragged, pulled, force, Vec.sizeSq, Vec.plus, Vec.times, Vec.minus. cbn.
  decompose [and or] H; subst; (split; [lra|]); (split; [lra|]); (split; [lra|]).
  - right; left. lra.
  - right; right; left. lra.
  - right; right; right; left. lra.
  - right; right; right; right; left. lra.
  - right; right; right; right; right. lra.
  - left. lra.
Qed.

Lemma cycle_runs (n : nat) :
  forall (w : World) (P V : Vec.t),
    chasing w cycle_brush 5%nat (Vec.mk 10 0) P V -> on_cycle P V ->
    exists ds w', ApplyForce_times n 5%nat w = (Ok ds, w') /\ Forall (fun d => 0 < d) ds.
Proof.
  induction n as [|n IH]; intros w P V Hc Hcy.
  - exists [], w. split; [reflexivity|constructor].
  - destruct (ApplyForce_chasing w _ _ _ P V 1 Hc) as (w1 & HA & Hc1).
    destruct (cycle_step P V Hcy) as [Hpos Hcy1].
    destruct (IH w1 _ _ Hc1 Hcy1) as (ds & w2 & Hrun & Hall).
    eexists (_ :: ds), w2. split.
    + apply (ApplyForce_times_S n _ w w1 w2); eassumption.
    + constructor; assumption.
Qed.

Lemma cycle_world_chasing :
  chasing cycle_world cycle_brush 5%nat (Vec.mk 10 0) (Vec.mk 0 0) (Vec.mk 5 0).
Proof.
  exists (sample_fields cycle_brush). cbn. repeat split; try reflexivity; lia.
Qed.

(** C7, on the code.  A brush of mass 1 > 0 and friction 0 < 1 at (0,0) with
    velocity (5,0), pulled towards (10,0): no call of the row returns 0; the
    brush goes round six states for ever. *)
Lemma C7_frictionless_brush_never_rests :
  0 < Mass cycle_brush /\ Friction cycle_brush < 1
  /\ ~ eventually_rests cycle_world 5%nat.
Proof.
  split; [cbn; lra|]. split; [cbn; lra|].
  intros (n & ds & w' & Hrun & Hlast).
  destruct (cycle_runs n cycle_world _ _ cycle_world_chasing) as (ds' & w'' & Hrun' & Hall).
  { unfold on_cycle. cbn. repeat split; try reflexivity. left. split; reflexivity. }
  rewrite Hrun in Hrun'. injection Hrun' as <- <-.
  apply last_Some_elem_of in Hlast.
  rewrite Forall_forall in Hall. specialize (Hall 0 Hlast). lra.
Qed.

(** C7, amended.  For a brush with a mass from 1 to 10 and a friction from
    0.4 to 0.6, as the simulator makes them, from any position and velocity
    and for any fixed target within [reach], the calls [ApplyForce(target,
    1)] made in a row eventually return 0. *)
Theorem C7_damped_brush_comes_to_rest (w : World) (f : BrushTip.fields)
    (T P V : Vec.t) (mouse : loc) :
  tip_fields w = Some f ->
  heap w !! mouse = Some T ->
  heap w !! BrushTip.position f = Some P ->
  heap w !! BrushTip.velocity f = Some V ->
  BrushTip.position f <> BrushTip.velocity f ->
  mouse <> BrushTip.velocity f ->
  mouse <> BrushTip.position f ->
  made_brush (BrushTip.brush f) ->
  within_reach T -> within_reach P -> within_reach V ->
  exists n ds w', ApplyForce_times n mouse w = (Ok ds, w') /\ last ds = Some 0.
Proof.
  intros Hf Hm Hp Hv Hne Hmv Hmp [Hma Hfri] _ _ _.
  assert (Hfr : 0 < Friction (BrushTip.brush f) < 1) by lra.
  assert (Hmass : 2 * Mass (BrushTip.brush f) * (2 - Friction (BrushTip.brush f))
                  > 1 - Friction (BrushTip.brush f)) by nra.
  pose proof (loss_pos _ Hfr Hmass) as Hloss.
  destruct (INR_unbounded (energy (BrushTip.brush f) T P V / loss (BrushTip.brush f)))
    as [N HN].
  apply (rests_within (BrushTip.brush f) mouse T Hfr Hmass N w P V).
  - exists f. repeat split; assumption.
  - apply (Rmult_lt_compat_r (loss (BrushTip.brush f))) in HN; [|exact Hloss].
    unfold Rdiv in HN. rewrite Rmult_assoc, Rinv_l in HN by lra. lra.
Qed.

Lemma C7_damped_brush_comes_to_rest_witness :
  exists n ds w',
    ApplyForce_times n 5%nat
      (sample_world (mkBrush 5 0.5 10) (Vec.mk 0 0) (Vec.mk 0 0) (Vec.mk 10 0))
    = (Ok ds, w')
    /\ last ds = Some 0.
Proof.
  apply (C7_damped_brush_comes_to_rest
           (sample_world (mkBrush 5 0.5 10) (Vec.mk 0 0) (Vec.mk 0 0) (Vec.mk 10 0))
           (sample_fields (mkBrush 5 0.5 10)) (Vec.mk 10 0) (Vec.mk 0 0) (Vec.mk 0 0) 5%nat).
  - reflexivity.
  - reflexivity.
  - reflexivity.
  - reflexivity.
  - cbn. lia.
  - cbn. lia.
  - cbn. lia.
  - unfold made_brush. cbn. lra.
  - unfold within_reach, reach. cbn. split; apply Rabs_le; lra.
  - unfold within_reach, reach. cbn. split; apply Rabs_le; lra.
  - unfold within_reach, reach. cbn. split; apply Rabs_le; lra.
Defined.

(** ** The calls that a stroke makes on its path *)

(** From a run that returned [Ok]: every read, test and host call on the
    way went through. *)
Ltac invert_step H :=
  cbn in H;
  lazymatch type of H with
  | context [match ?x !! ?l with _ => _ end] =>
      destruct (x !! l) eqn:?; [|try discriminate H]
  | context [Rlt_dec ?a ?b] => destruct (Rlt_dec a b)
  | context [Req_dec_T ?a ?b] => destruct (Req_dec_T a b)
  | context [decide ?P] => destruct (decide P)
  | context [match ?o with Some _ => _ | None => _ end] =>
      destruct o eqn:?; [|try discriminate H]
  | context [if ?b then _ else _] => destruct b eqn:?
  end.

Ltac invert_run H := repeat invert_step H.

Lemma ApplyForce_flag (mouse : loc) (elapsedFrames d : R) (w w' : World) :
  ApplyForce mouse elapsedFrames w = (Ok d, w') ->
  events w' = events w /\ first_flag w' = first_flag w.
Proof.
  intros H. open_world w. unfold first_flag, tip_fields. revert H. run_unfold. intros H.
  invert_run H; try discriminate H; injection H as <- <-; cbn; split; reflexivity.
Qed.

Lemma Reset_flag (p : loc) (b : BrushInstance) (w w' : World) :
  Reset p b w = (Ok tt, w') ->
  events w' = events w /\ first_flag w' = Some true.
Proof.
  intros H. open_world w. unfold first_flag, tip_fields. revert H. run_unfold. intros H.
  invert_run H; try discriminate H; injection H as <-; cbn; split; reflexivity.
Qed.

Ltac invert_host H :=
  cbn in H;
  lazymatch type of H with
  | context [fails ?h ?e ?tr] => destruct (fails h e tr) eqn:?; [try discriminate H|]
  end.

Lemma Draw_calls (host : Host) (path : option Path) (pressure : R) (w w' : World) :
  Draw host path pressure w = (Ok tt, w') ->
  exists p f new,
    path = Some p /\ tip_fields w = Some f
    /\ events w' = events w ++ new
    /\ map call_of new = segment_calls p (BrushTip.firstSegment f) 1
    /\ first_flag w' = Some false.
Proof.
  intros H. open_world w. unfold first_flag, tip_fields. revert H.
  unfold Draw, call. run_unfold. intros H.
  invert_run H; try discriminate H.
  all: repeat invert_host H; try discriminate H.
  all: injection H as <-; cbn.
  all: eexists; eexists; eexists; split; [reflexivity|]; split; [reflexivity|].
  all: split; [rewrite <- ?app_assoc; reflexivity|].
  all: match goal with E : BrushTip.firstSegment _ = _ |- _ => rewrite E end.
  all: split; reflexivity.
Qed.

Lemma bind_Ok_inv {A B : Type} (m : M A) (k : A -> M B) (w w' : World) (b : B) :
  bind m k w = (Ok b, w') ->
  exists a w1, m w = (Ok a, w1) /\ k a w1 = (Ok b, w').
Proof.
  unfold bind. destruct (m w) as [[a|e] w1]; [eauto|discriminate].
Qed.

Lemma bind_Ok {A B : Type} (m : M A) (k : A -> M B) (w w1 : World) (a : A)
    (r : Res B * World) :
  m w = (Ok a, w1) -> k a w1 = r -> bind m k w = r.
Proof. intros H1 H2. unfold bind. rewrite H1. exact H2. Qed.

Lemma segment_calls_next (p : Path) (n : nat) :
  segment_calls p false n = concat (replicate n [ExtendPath_ p; Draw_ p]).
Proof. induction n as [|n IH]; [reflexivity|]. cbn. rewrite IH. reflexivity. Qed.

Lemma segments_calls (host : Host) (p : Path) (steps : list (loc * R * R)) :
  forall (first : bool) (w w' : World) (ds : list R),
    segments host (Some p) steps w = (Ok ds, w') ->
    first_flag w = Some first ->
    exists new, events w' = events w ++ new
      /\ map call_of new = segment_calls p first (length steps).
Proof.
  induction steps as [|[[mouse elapsedFrames] pressure] rest IH]; intros first w w' ds H Hflag.
  - injection H as <- <-. exists []. split; [rewrite app_nil_r|]; reflexivity.
  - cbn [segments] in H.
    apply bind_Ok_inv in H as (d & w1 & HA & H).
    apply bind_Ok_inv in H as ([] & w2 & HD & H).
    apply bind_Ok_inv in H as (ds' & w3 & HS & H).
    injection H as <- <-.
    apply ApplyForce_flag in HA as [Hev1 Hflag1].
    apply Draw_calls in HD as (p' & f & new & Hp & Hf & Hev2 & Hcalls & Hflag2).
    injection Hp as <-.
    destruct (IH false w2 w3 ds' HS Hflag2) as (new' & Hev3 & Hcalls').
    assert (Hfirst : BrushTip.firstSegment f = first).
    { rewrite Hflag in Hflag1. unfold first_flag in Hflag1. rewrite Hf in Hflag1.
      injection Hflag1 as ->. reflexivity. }
    exists (new ++ new'). split.
    + rewrite Hev3, Hev2, Hev1, app_assoc. reflexivity.
    + rewrite map_app, Hcalls, Hcalls', Hfirst. cbn.
      destruct first; reflexivity.
Qed.

(** The calls of a stroke that runs to its end, on any host. *)
Lemma stroke_calls (host : Host) (position : loc)
    (brush : BrushInstance) (p : Path) (steps : list (loc * R * R))
    (w w' : World) (ds : list R) :
  stroke host position brush (Some p) steps w = (Ok ds, w') ->
  exists new,
    events w' = events w ++ new
    /\ map call_of new
       = match steps with
         | [] => []
         | _ :: rest =>
             InitPath_ p :: ExtendPath_ p :: Draw_ p
             :: concat (replicate (length rest) [ExtendPath_ p; Draw_ p])
         end.
Proof.
  intros H. unfold stroke in H.
  apply bind_Ok_inv in H as ([] & w1 & HR & HS).
  apply Reset_flag in HR as [Hev Hflag].
  destruct (segments_calls host p steps true w1 w' ds HS Hflag) as (new & Hev' & Hcalls).
  exists new. split; [rewrite Hev', Hev; reflexivity|].
  rewrite Hcalls. destruct steps as [|s rest]; [reflexivity|].
  cbn. rewrite segment_calls_next. reflexivity.
Qed.

(** ** What a computation keeps *)

Section Keeps.

Variable I : DynaDraw.t -> Prop.

Lemma keeps_bind {A B : Type} (m : M A) (k : A -> M B) :
  keeps I m -> (forall a, keeps I (k a)) -> keeps I (bind m k).
Proof.
  intros Hm Hk w r w' H HI. unfold bind in H.
  destruct (m w) as [[a|e] w1] eqn:E.
  - apply (Hk a w1 r w' H). apply (Hm w _ w1 E HI).
  - injection H as <- <-. apply (Hm w _ w1 E HI).
Qed.

Lemma keeps_try_catch {A : Type} (body : M A) (handler : Error -> M A) :
  keeps I body -> (forall e, keeps I (handler e)) -> keeps I (try_catch body handler).
Proof.
  intros Hb Hh w r w' H HI. unfold try_catch in H.
  destruct (body w) as [[a|e] w1] eqn:E.
  - injection H as <- <-. apply (Hb w _ w1 E HI).
  - apply (Hh e w1 r w' H). apply (Hb w _ w1 E HI).
Qed.

(** A computation that does not assign to the simulator. *)
Lemma keeps_this {A : Type} (m : M A) :
  (forall w r w', m w = (r, w') -> this w' = this w) -> keeps I m.
Proof. intros Hm w r w' H HI. rewrite (Hm w r w' H). exact HI. Qed.

Lemma keeps_ret {A : Type} (a : A) : keeps I (ret a).
Proof. apply keeps_this. intros w r w' [= <- <-]. reflexivity. Qed.

Lemma keeps_throw {A : Type} (e : Error) : keeps I (@throw A e).
Proof. apply keeps_this. intros w r w' [= <- <-]. reflexivity. Qed.

Lemma keeps_deref {A : Type} (o : option A) : keeps I (deref o).
Proof. destruct o; [apply keeps_ret|apply keeps_throw]. Qed.

Lemma keeps_modify (f : DynaDraw.t -> DynaDraw.t) :
  (forall d, I d -> I (f d)) -> keeps I (modify_this f).
Proof. intros Hf w r w' [= <- <-] HI. cbn. apply Hf. exact HI. Qed.

Lemma keeps_get_this : keeps I get_this.
Proof. apply keeps_this. intros w r w' [= <- <-]. reflexivity. Qed.

Lemma keeps_new (v : Vec.t) : keeps I (Vector2.new v).
Proof. apply keeps_this. intros w r w' [= <- <-]. reflexivity. Qed.

Lemma keeps_load (l : loc) : keeps I (Vector2.load l).
Proof.
  apply keeps_this. intros w r w'. unfold Vector2.load.
  destruct (heap w !! l); intros [= <- <-]; reflexivity.
Qed.

Lemma keeps_store (l : loc) (v : Vec.t) : keeps I (Vector2.store l v).
Proof. apply keeps_this. intros w r w' [= <- <-]. reflexivity. Qed.

Lemma keeps_call (host : Host) (e : Event) : keeps I (call host e).
Proof.
  apply keeps_this. intros w r w'. unfold call.
  destruct (fails host e (events w)); intros [= <- <-]; reflexivity.
Qed.

Lemma keeps_call_pathFactory (host : Host) : keeps I (call_pathFactory host).
Proof. apply keeps_this. intros w r w' [= <- <-]. reflexivity. Qed.

Lemma keeps_console_log (e : Error) : keeps I (console_log e).
Proof. apply keeps_this. intros w r w' [= <- <-]. reflexivity. Qed.

Lemma keeps_requestAnimationFrame (cb : Callback) : keeps I (requestAnimationFrame cb).
Proof. apply keeps_this. intros w r w' [= <- <-]. reflexivity. Qed.

End Keeps.

(** ** The brush profiles *)

Lemma cache_sound_profile_data (d d' : DynaDraw.t) :
  profile_data d' = profile_data d -> cache_sound d -> cache_sound d'.
Proof.
  unfold profile_data, cache_sound, interpolateMass, interpolateFriction.
  intros [= -> -> -> -> -> -> ->] H. exact H.
Qed.

Lemma GetBrush_keeps (s : R) : keeps cache_sound (GetBrush s).
Proof.
  intros w r w' H Hc. unfold GetBrush, bind, get_this, modify_this, ret in H.
  destruct (lookupBrush s (DynaDraw.brushes (this w))) as [b|] eqn:E.
  - injection H as <- <-. exact Hc.
  - injection H as <- <-. intros s' b'. cbn.
    destruct (decide (s = s')) as [<-|_].
    + intros [= <-]. reflexivity.
    + apply Hc.
Qed.

Lemma tip_keeps : keeps cache_sound tip.
Proof. apply keeps_this. intros w r w' [= <- <-]. reflexivity. Qed.

Lemma put_tip_keeps (c : BrushTip.t) : keeps cache_sound (put_tip c).
Proof.
  apply keeps_modify. intros d. apply cache_sound_profile_data. reflexivity.
Qed.

Ltac keeps_step :=
  first
    [ apply GetBrush_keeps | apply tip_keeps | apply put_tip_keeps
    | apply keeps_ret | apply keeps_throw | apply keeps_deref | apply keeps_get_this
    | apply keeps_new | apply keeps_load | apply keeps_store | apply keeps_call
    | apply keeps_call_pathFactory | apply keeps_console_log
    | apply keeps_requestAnimationFrame
    | apply keeps_modify;
      intros ?; apply cache_sound_profile_data; reflexivity
    | apply keeps_try_catch; [|intros ?]
    | apply keeps_bind; [|intros ?]
    | match goal with
      | |- keeps _ (if ?c then _ else _) => destruct c
      | |- keeps _ (match ?o with Some _ => _ | None => _ end) => destruct o
      end ].

Ltac keeps_auto := repeat keeps_step.

(** Whatever the host does and however the call ends, [ObserveCursorMovement]
    leaves the cache of brushes sound; so does [SetBrushSize]. *)
Lemma ObserveCursorMovement_keeps (host : Host) (cursor : CursorState) :
  keeps cache_sound (ObserveCursorMovement host cursor).
Proof.
  unfold ObserveCursorMovement, ObserveCursorMovement_try, StartPath, NextPoint, EndPath,
    BrushTip_StartPath, Reset, getRadius, interpolatePressure, field, assign,
    Vector2.clone, Vector2.distanceTo.
  keeps_auto.
Qed.

Lemma SetBrushSize_keeps (size : BrushSize) : keeps cache_sound (SetBrushSize size).
Proof. unfold SetBrushSize. keeps_auto. Qed.

Lemma constructor_run (slowSimulation : bool) (minBrushSize maxBrushSize : R) (w : World) :
  constructor slowSimulation minBrushSize maxBrushSize w
  = (Ok tt,
     mkWorld (heap w)
             (DynaDraw.mk (new_BrushTip true) None None None
                          1 10 0.4 0.6 None [] slowSimulation minBrushSize maxBrushSize
                          None None)
             (events w) (console w)
             (Some (if slowSimulation then FirstTick else NextTickWhile))).
Proof. destruct w, slowSimulation; reflexivity. Qed.

Lemma constructor_cache_sound (slowSimulation : bool) (minBrushSize maxBrushSize : R)
    (w w' : World) :
  constructor slowSimulation minBrushSize maxBrushSize w = (Ok tt, w') ->
  cache_sound (this w').
Proof.
  rewrite constructor_run. intros H. injection H as <-. intros s b H. discriminate H.
Qed.

(** C5.  The brush that [GetBrush] returns for the size [s], from a cache
    that only [GetBrush] has filled, has the mass
    [minMass + (maxMass - minMass) * t] and the friction
    [maxFriction - (maxFriction - minFriction) * t], where
    [t = (s - minBrushSize) / (maxBrushSize - minBrushSize)], for every [s]
    (there is no clamping); the cache stays such a cache.  With the sizes 5
    and 20, the masses 1 and 10 and [s = 10], the mass is 4. *)
Theorem C5_profile_of_brush_size (w : World) (s : R) :
  cache_sound (this w) ->
  DynaDraw.maxBrushSize (this w) <> DynaDraw.minBrushSize (this w) ->
  let d := this w in
  let t := (s - DynaDraw.minBrushSize d) / (DynaDraw.maxBrushSize d - DynaDraw.minBrushSize d) in
  exists w' b,
    GetBrush s w = (Ok b, w')
    /\ Mass b = DynaDraw.minMass d + (DynaDraw.maxMass d - DynaDraw.minMass d) * t
    /\ Friction b
       = DynaDraw.maxFriction d - (DynaDraw.maxFriction d - DynaDraw.minFriction d) * t
    /\ Size b = s
    /\ cache_sound (this w')
    /\ (DynaDraw.minBrushSize d = 5 -> DynaDraw.maxBrushSize d = 20 ->
        DynaDraw.minMass d = 1 -> DynaDraw.maxMass d = 10 -> s = 10 -> Mass b = 4).
Proof.
  intros Hc _ d t.
  assert (Hm : forall b, b = mkBrush (interpolateMass d s) (interpolateFriction d s) s ->
             Mass b = DynaDraw.minMass d + (DynaDraw.maxMass d - DynaDraw.minMass d) * t
             /\ Friction b
                = DynaDraw.maxFriction d - (DynaDraw.maxFriction d - DynaDraw.minFriction d) * t
             /\ Size b = s).
  { intros b ->. cbn. unfold interpolateMass, interpolateFriction, t, Rdiv.
    repeat split; ring. }
  assert (H4 : forall b, Mass b = DynaDraw.minMass d + (DynaDraw.maxMass d - DynaDraw.minMass d) * t ->
             DynaDraw.minBrushSize d = 5 -> DynaDraw.maxBrushSize d = 20 ->
             DynaDraw.minMass d = 1 -> DynaDraw.maxMass d = 10 -> s = 10 -> Mass b = 4).
  { intros b -> E1 E2 E3 E4 E5. unfold t. rewrite E1, E2, E3, E4, E5. lra. }
  unfold GetBrush, bind, get_this, modify_this, ret.
  destruct (lookupBrush s (DynaDraw.brushes (this w))) as [b|] eqn:E.
  - exists w, b. split; [reflexivity|].
    destruct (Hm b (Hc s b E)) as (H1 & H2 & H3).
    repeat split; try assumption. apply H4. exact H1.
  - eexists. eexists. split; [reflexivity|].
    destruct (Hm _ eq_refl) as (H1 & H2 & H3).
    split; [exact H1|]. split; [exact H2|]. split; [exact H3|]. split; [|apply H4; exact H1].
    intros s' b'. cbn. destruct (decide (s = s')) as [<-|_].
    + intros [= <-]. reflexivity.
    + apply Hc.
Qed.

Lemma C5_profile_of_brush_size_witness :
  let w := start_world [] in
  let d := this w in
  let t := (10 - DynaDraw.minBrushSize d) / (DynaDraw.maxBrushSize d - DynaDraw.minBrushSize d) in
  exists w' b,
    GetBrush 10 w = (Ok b, w')
    /\ Mass b = DynaDraw.minMass d + (DynaDraw.maxMass d - DynaDraw.minMass d) * t
    /\ Friction b
       = DynaDraw.maxFriction d - (DynaDraw.maxFriction d - DynaDraw.minFriction d) * t
    /\ Size b = 10
    /\ cache_sound (this w')
    /\ (DynaDraw.minBrushSize d = 5 -> DynaDraw.maxBrushSize d = 20 ->
        DynaDraw.minMass d = 1 -> DynaDraw.maxMass d = 10 -> 10 = 10 -> Mass b = 4).
Proof.
  apply (C5_profile_of_brush_size (start_world []) 10).
  - intros s b H. discriminate H.
  - cbn. lra.
Defined.

(** ** The boundary of the simulator *)

(** C6.  [ObserveCursorMovement] returns, for every sample, every world and
    every host, and so never lets an exception through to its caller: when
    the block under [try] throws, the error is appended to the console and
    nothing else changes in the world the block left; either way the sample
    becomes the last state. *)
Theorem C6_ObserveCursorMovement_never_throws (host : Host) (cursor : CursorState)
    (w : World) :
  exists w',
    ObserveCursorMovement host cursor w = (Ok tt, w')
    /\ DynaDraw.lastState (this w') = Some cursor
    /\ match ObserveCursorMovement_try host cursor w with
       | (Ok _, w1) =>
           w' = with_this (DynaDraw.with_lastState (Some cursor) (this w1)) w1
       | (Throw err, w1) =>
           w' = with_this (DynaDraw.with_lastState (Some cursor) (this w1))
                  (with_console (console w1 ++ [err]) w1)
       end.
Proof.
  unfold ObserveCursorMovement, bind, try_catch, console_log, modify_this.
  destruct (ObserveCursorMovement_try host cursor w) as [[[]|err] w1];
    eexists; (split; [reflexivity|]); split; reflexivity.
Qed.

(** A pen-down sample with a path factory that throws: the error ends in the
    console, and the call returns. *)
Lemma ObserveCursorMovement_logs_a_broken_factory :
  exists w',
    ObserveCursorMovement brokenHost (mkCursor 3 4 1) (start_world []) = (Ok tt, w')
    /\ console w' = [HostError 7]
    /\ DynaDraw.path (this w') = None.
Proof.
  unfold ObserveCursorMovement, ObserveCursorMovement_try, call_pathFactory, try_catch,
    console_log, start_world. run_unfold. cbn.
  destruct (decide (0 < 1)) as [_|N]; [|exfalso; lra].
  cbn. eexists. split; [reflexivity|]. split; reflexivity.
Qed.

(** C9, on the code.  The constructor has no check of the sizes: with
    [maxBrushSize = 5 <= 20 = minBrushSize] it returns a simulator. *)
Lemma C9_constructor_accepts_reversed_sizes :
  (5 <= 20)
  /\ forall err w', constructor false 20 5 (start_world []) <> (Throw err, w').
Proof.
  split; [lra|]. intros err w'. rewrite constructor_run. discriminate.
Qed.

(** C9, amended.  The constructor never raises: whatever the sizes, also
    with [maxBrushSize <= minBrushSize], it returns a simulator that holds
    them as given, with the four physical constants, an empty cache of
    brushes and a brush tip never reset, and it asks for the first animation
    frame. *)
Theorem C9_constructor_accepts_every_size (slowSimulation : bool)
    (minBrushSize maxBrushSize : R) (w : World) :
  exists w',
    constructor slowSimulation minBrushSize maxBrushSize w = (Ok tt, w')
    /\ DynaDraw.minBrushSize (this w') = minBrushSize
    /\ DynaDraw.maxBrushSize (this w') = maxBrushSize
    /\ DynaDraw.slowSimulation (this w') = slowSimulation
    /\ (DynaDraw.minMass (this w'), DynaDraw.maxMass (this w'),
        DynaDraw.minFriction (this w'), DynaDraw.maxFriction (this w')) = (1, 10, 0.4, 0.6)
    /\ DynaDraw.brushes (this w') = []
    /\ DynaDraw.cursor (this w') = new_BrushTip true
    /\ scheduled w' = Some (if slowSimulation then FirstTick else NextTickWhile).
Proof.
  rewrite constructor_run. eexists. split; [reflexivity|]. cbn.
  repeat split; reflexivity.
Qed.

(** * More of the brush tip *)

(** An object that exists goes on existing. *)
Ltac valid :=
  repeat match goal with
         | H : is_Some (_ !! _) |- _ => apply lookup_lt_is_Some in H
         end;
  apply lookup_lt_is_Some; lengths.

(** [ApplyForce] in a stroke: it returns the value of [step], leaves the
    brush tip in the stroke, and has set the angle when it reports a move. *)
Lemma ApplyForce_in_stroke (w : World) (b : BrushInstance) (t : loc)
    (T P V : Vec.t) (elapsedFrames : R) :
  in_stroke w b t T P V ->
  exists w', ApplyForce t elapsedFrames w = (Ok (fst (step b elapsedFrames T P V)), w')
    /\ in_stroke w' b t T (fst (snd (step b elapsedFrames T P V)))
                          (snd (snd (step b elapsedFrames T P V)))
    /\ same_simulator w w'
    /\ (is_Some (tip_angle w) -> is_Some (tip_angle w'))
    /\ (0 < fst (step b elapsedFrames T P V) -> is_Some (tip_angle w')).
Proof.
  intros (f & Hf & <- & Ht & Hp & Hv & [SP Hsp] & [PP Hpp] & [MP Hmp] & Hpv & Htv & Htp & Hn).
  unfold step, dragged, pulled, force, same_simulator.
  destruct f as [lp lsp lv acc b first lpp ppr lmp].
  open_world w. run_unfold. run.
  destruct (Rlt_dec _ _) as [Hlt|Hge]; run.
  { eexists. split; [reflexivity|]. cbn. split; [|repeat split; try reflexivity; try tauto; lra].
    eexists. split; [reflexivity|]. cbn. split; [reflexivity|].
    split; [solve_lookup|]. split; [solve_lookup|]. split; [solve_lookup|].
    split; [valid|]. split; [valid|]. split; [valid|].
    split; [assumption|]. split; [assumption|]. split; [assumption|].
    intros n Hn'. destruct (Hn n Hn') as [Hval Hap]. split; [valid|exact Hap]. }
  destruct (Rlt_dec _ _) as [Hlt|Hge']; run.
  { eexists. split; [reflexivity|]. cbn. split; [|repeat split; try reflexivity; try tauto; lra].
    eexists. split; [reflexivity|]. cbn. split; [reflexivity|].
    split; [solve_lookup|]. split; [solve_lookup|]. split; [solve_lookup|].
    split; [valid|]. split; [valid|]. split; [valid|].
    split; [assumption|]. split; [assumption|]. split; [assumption|].
    intros n Hn'. destruct (Hn n Hn') as [Hval Hap]. split; [valid|exact Hap]. }
  destruct (Req_dec_T _ _) as [E|_]; [exfalso; revert E; apply size_nonzero; assumption|].
  run.
  eexists. split; [reflexivity|]. cbn. split; [|repeat split; try reflexivity; eauto].
  eexists. split; [reflexivity|]. cbn. split; [reflexivity|].
  split; [solve_lookup|]. split; [solve_lookup|]. split; [solve_lookup|].
  split; [valid|]. split; [valid|]. split; [valid|].
  split; [assumption|]. split; [assumption|]. split; [assumption|].
  intros n [= <-]. split; [valid|].
  repeat (apply not_elem_of_cons; split); try apply not_elem_of_nil; lengths.
Qed.

Lemma step_nonneg (b : BrushInstance) (e : R) (T P V : Vec.t) : 0 <= fst (step b e T P V).
Proof.
  unfold step. repeat destruct (Rlt_dec _ _); cbn; try lra. apply sizeSq_nonneg.
Qed.



Lemma ApplyForce_unreset (mouse : loc) (elapsedFrames : R) (w : World) :
  tip_fields w = None ->
  exists w', ApplyForce mouse elapsedFrames w = (Throw TypeError, w')
    /\ events w' = events w /\ console w' = console w /\ this w' = this w.
Proof.
  intros Hf. open_world w. run_unfold. cbn.
  destruct (h !! mouse); cbn; eexists; (split; [reflexivity|]); repeat split; reflexivity.
Qed.

(** X2.  On a brush tip that was never [Reset], every other method throws a
    [TypeError]: [ApplyForce], [Draw], [StartPath], [getRadius] and
    [interpolatePressure], whatever their arguments; none of them has called
    the host or assigned a field of the simulator by then. *)
Theorem methods_before_Reset_throw (host : Host) (w : World) (mouse pt : loc)
    (elapsedFrames pressure speed : R) (path : option Path) :
  tip_fields w = None ->
  (exists w', ApplyForce mouse elapsedFrames w = (Throw TypeError, w')
     /\ events w' = events w /\ this w' = this w)
  /\ (exists w', Draw host path pressure w = (Throw TypeError, w')
        /\ events w' = events w /\ this w' = this w)
  /\ (exists w', BrushTip_StartPath host path pt pressure w = (Throw TypeError, w')
        /\ events w' = events w /\ this w' = this w)
  /\ getRadius pressure speed w = (Throw TypeError, w)
  /\ interpolatePressure pressure w = (Throw TypeError, w).
Proof.
  intros Hf. split.
  { destruct (ApplyForce_unreset mouse elapsedFrames w Hf) as (w' & H & He & _ & Ht).
    exists w'. repeat split; assumption. }
  unfold Draw, BrushTip_StartPath.
  open_world w. run_unfold. cbn.
  split.
  { destruct calculateSpeed; cbn; eexists; (split; [reflexivity|]); split; reflexivity. }
  split.
  { destruct path; cbn; eexists; (split; [reflexivity|]); split; reflexivity. }
  split; reflexivity.
Qed.

Lemma methods_before_Reset_throw_witness :
  let w := start_world [Vec.mk 0 0] in
  (exists w', ApplyForce 0%nat 1 w = (Throw TypeError, w')
     /\ events w' = events w /\ this w' = this w)
  /\ (exists w', Draw quietHost (Some 0%nat) 1 w = (Throw TypeError, w')
        /\ events w' = events w /\ this w' = this w)
  /\ (exists w', BrushTip_StartPath quietHost (Some 0%nat) 0%nat 1 w = (Throw TypeError, w')
        /\ events w' = events w /\ this w' = this w)
  /\ getRadius 1 0 w = (Throw TypeError, w)
  /\ interpolatePressure 1 w = (Throw TypeError, w).
Proof.
  intros w.
  apply (methods_before_Reset_throw quietHost w 0%nat 0%nat 1 1 0 (Some 0%nat)).
  reflexivity.
Defined.

(** What [Draw] does on a host that lets the calls through. *)
Lemma Draw_effect (host : Host) (w : World) (f : BrushTip.fields) (n : loc) (p : Path)
    (pressure : R) (A P SP V PP MP : Vec.t) :
  (forall e tr, fails host e tr = None) ->
  tip_fields w = Some f ->
  tip_angle w = Some n ->
  heap w !! n = Some A ->
  heap w !! BrushTip.position f = Some P ->
  heap w !! BrushTip.startPosition f = Some SP ->
  heap w !! BrushTip.velocity f = Some V ->
  heap w !! BrushTip.previousPosition f = Some PP ->
  heap w !! BrushTip.mousePosition f = Some MP ->
  n <> BrushTip.position f -> n <> BrushTip.startPosition f ->
  let ip := blend (Vec.dist P PP) (Vec.dist P MP) pressure (seeded f pressure) in
  let A' := Vec.times A (speedFactor (relativeSpeed w f V) * Size (BrushTip.brush f) * ip / 2) in
  exists w',
    Draw host (Some p) pressure w = (Ok tt, w')
    /\ tip_fields w'
       = Some (BrushTip.with_firstSegment false
                 (BrushTip.with_previousPressure ip
                    (BrushTip.with_previousPosition (BrushTip.position f) f)))
    /\ tip_angle w' = Some n
    /\ heap w' !! n = Some A'
    /\ (forall l v, heap w !! l = Some v -> l <> n -> heap w' !! l = Some v)
    /\ events w'
       = events w
         ++ (if BrushTip.firstSegment f
             then [PathInitPath p (Vec.plus SP A') (Vec.minus SP A')] else [])
         ++ [PathExtendPath p (Vec.plus P A') (Vec.minus P A'); PathDraw p]
    /\ console w' = console w /\ scheduled w' = scheduled w
    /\ this w' = DynaDraw.with_cursor (DynaDraw.cursor (this w')) (this w).
Proof.
  intros Hq Hf Ha HA HP HSP HV HPP HMP Hnp Hns.
  unfold relativeSpeed, blend, seeded.
  destruct f as [lp lsp lv acc b first lpp ppr lmp].
  open_world w. unfold Draw, call. run_unfold.
  destruct calculateSpeed; run.
  all: destruct (Rlt_dec _ _); run.
  all: destruct (decide _); run.
  all: destruct first; run.
  all: repeat (rewrite Hq; run).
  all: eexists; (split; [reflexivity|]).
  all: unfold BrushTip.with_firstSegment, BrushTip.with_previousPressure,
         BrushTip.with_previousPosition; cbn.
  all: (split; [reflexivity|]); (split; [reflexivity|]).
  all: (split; [solve_lookup|]).
  all: (split; [intros; solve_lookup|]).
  all: rewrite <- ?app_assoc; cbn.
  all: repeat split; reflexivity.
Qed.

(** X3.  [Draw], on a brush tip in a stroke and a host that lets the calls
    through: with [r] the radius [speedFactor(|velocity| / Size^2) * Size *
    interpolated pressure / 2] and [A] the angle before the call, the path
    is extended by the two points [position + A r] and [position - A r],
    which have the position in their middle, and then drawn; the first
    [Draw] of a stroke calls [InitPath] before, with the two points about
    the start position.  The angle object is left scaled by [r], and the
    fields are left as [getRadius] leaves them. *)
Theorem Draw_segment_about_the_position (host : Host) (w : World) (f : BrushTip.fields)
    (n : loc) (p : Path) (pressure : R) (A P SP V PP MP : Vec.t) :
  (forall e tr, fails host e tr = None) ->
  tip_fields w = Some f ->
  tip_angle w = Some n ->
  heap w !! n = Some A ->
  heap w !! BrushTip.position f = Some P ->
  heap w !! BrushTip.startPosition f = Some SP ->
  heap w !! BrushTip.velocity f = Some V ->
  heap w !! BrushTip.previousPosition f = Some PP ->
  heap w !! BrushTip.mousePosition f = Some MP ->
  n <> BrushTip.position f -> n <> BrushTip.startPosition f ->
  let ip := blend (Vec.dist P PP) (Vec.dist P MP) pressure (seeded f pressure) in
  let A' := Vec.times A (speedFactor (relativeSpeed w f V) * Size (BrushTip.brush f) * ip / 2) in
  exists w',
    Draw host (Some p) pressure w = (Ok tt, w')
    /\ events w'
       = events w
         ++ (if BrushTip.firstSegment f
             then [PathInitPath p (Vec.plus SP A') (Vec.minus SP A')] else [])
         ++ [PathExtendPath p (Vec.plus P A') (Vec.minus P A'); PathDraw p]
    /\ Vec.plus (Vec.plus P A') (Vec.minus P A') = Vec.times P 2
    /\ heap w' !! n = Some A'
    /\ tip_fields w'
       = Some (BrushTip.with_firstSegment false
                 (BrushTip.with_previousPressure ip
                    (BrushTip.with_previousPosition (BrushTip.position f) f))).
Proof.
  intros Hq Hf Ha HA HP HSP HV HPP HMP Hnp Hns ip A'.
  destruct (Draw_effect host w f n p pressure A P SP V PP MP Hq Hf Ha HA HP HSP HV HPP HMP
              Hnp Hns) as (w' & HD & Hf' & _ & HA' & _ & Hev & _).
  exists w'. split; [exact HD|]. split; [exact Hev|].
  split; [|split; [exact HA'|exact Hf']].
  unfold Vec.plus, Vec.minus, Vec.times. cbn. f_equal; ring.
Qed.

Lemma Draw_segment_about_the_position_witness :
  let b := mkBrush 5 0.5 10 in
  let P := Vec.mk 1 0 in
  let V := Vec.mk 1 0 in
  let A := Vec.mk 0 1 in
  let w := angled_world b P V (Vec.mk 10 0) A in
  let f := sample_fields b in
  let ip := blend (Vec.dist P P) (Vec.dist P P) 1 (seeded f 1) in
  let A' := Vec.times A (speedFactor (relativeSpeed w f V) * Size (BrushTip.brush f) * ip / 2) in
  exists w',
    Draw quietHost (Some 0%nat) 1 w = (Ok tt, w')
    /\ events w'
       = events w
         ++ (if BrushTip.firstSegment f
             then [PathInitPath 0%nat (Vec.plus P A') (Vec.minus P A')] else [])
         ++ [PathExtendPath 0%nat (Vec.plus P A') (Vec.minus P A'); PathDraw 0%nat]
    /\ Vec.plus (Vec.plus P A') (Vec.minus P A') = Vec.times P 2
    /\ heap w' !! 6%nat = Some A'
    /\ tip_fields w'
       = Some (BrushTip.with_firstSegment false
                 (BrushTip.with_previousPressure ip
                    (BrushTip.with_previousPosition (BrushTip.position f) f))).
Proof.
  intros b P V A w f.
  apply (Draw_segment_about_the_position quietHost w f 6%nat 0%nat 1 A P P V P P);
    try reflexivity; cbn; lia.
Defined.

Lemma dist_nonneg (a b : Vec.t) : 0 <= Vec.dist a b.
Proof. unfold Vec.dist, Vec.size. apply sqrt_pos. Qed.

Lemma blend_between (d1 d2 mp prev : R) :
  0 <= d1 -> 0 <= d2 ->
  Rmin mp prev <= blend d1 d2 mp prev <= Rmax mp prev.
Proof.
  intros H1 H2. unfold blend.
  pose proof (Rmin_l mp prev). pose proof (Rmin_r mp prev).
  pose proof (Rmax_l mp prev). pose proof (Rmax_r mp prev).
  destruct (decide _) as [_|N]; [lra|].
  assert (Hpos : 0 < d1 + d2).
  { destruct (Req_dec_T d1 0) as [E1|]; destruct (Req_dec_T d2 0) as [E2|];
      first [lra | exfalso; apply N; split; assumption]. }
  set (k := d1 / (d1 + d2)).
  assert (Hk : 0 <= k <= 1).
  { unfold k. split.
    - apply Rmult_le_pos; [lra|]. left. apply Rinv_0_lt_compat. exact Hpos.
    - apply (Rmult_le_reg_r (d1 + d2)); [exact Hpos|].
      unfold Rdiv. rewrite Rmult_assoc, Rinv_l by lra. lra. }
  replace (k * (mp - prev) + prev) with (k * mp + (1 - k) * prev) by ring.
  split; nra.
Qed.

(** X4.  [interpolatePressure] never leaves the range of its two pressures:
    on a brush tip that was reset, the value it returns lies between the
    pressure given and the previous pressure, whatever the three positions. *)
Theorem interpolatePressure_stays_between (w : World) (f : BrushTip.fields)
    (P PP MP : Vec.t) (mousePressure : R) :
  tip_fields w = Some f ->
  heap w !! BrushTip.position f = Some P ->
  heap w !! BrushTip.previousPosition f = Some PP ->
  heap w !! BrushTip.mousePosition f = Some MP ->
  exists ip,
    interpolatePressure mousePressure w = (Ok ip, w)
    /\ Rmin mousePressure (BrushTip.previousPressure f) <= ip
       <= Rmax mousePressure (BrushTip.previousPressure f).
Proof.
  intros Hf HP HPP HMP. eexists. split.
  - apply (interpolatePressure_run w f P PP MP Hf HP HPP HMP).
  - apply blend_between; apply dist_nonneg.
Qed.

Lemma interpolatePressure_stays_between_witness :
  let b := mkBrush 5 0.5 10 in
  let w := sample_world b (Vec.mk 1 0) (Vec.mk 1 0) (Vec.mk 10 0) in
  exists ip,
    interpolatePressure 0.5 w = (Ok ip, w)
    /\ Rmin 0.5 (BrushTip.previousPressure (sample_fields b)) <= ip
       <= Rmax 0.5 (BrushTip.previousPressure (sample_fields b)).
Proof.
  intros b w.
  apply (interpolatePressure_stays_between w (sample_fields b) (Vec.mk 1 0) (Vec.mk 1 0)
           (Vec.mk 1 0) 0.5); reflexivity.
Defined.

Lemma speedFactor_range (speed : R) :
  0 <= speed -> 0.4 <= speedFactor speed <= 1.
Proof.
  intros H. unfold speedFactor. split; [apply Rmax_r|].
  apply Rmax_lub; lra.
Qed.

(** X5.  The radius of [getRadius] is bounded: for a pressure, a speed and a
    brush size that are not negative, the pressure it saves is not negative
    and at most the greater of the pressure given and the previous one, and
    the radius lies between [0.4 * Size * saved / 2] and [Size * saved / 2];
    so it is never negative, and the speed takes at most 60% off. *)
Theorem getRadius_is_bounded (w : World) (f : BrushTip.fields) (P PP MP : Vec.t)
    (pressure speed : R) :
  tip_fields w = Some f ->
  heap w !! BrushTip.position f = Some P ->
  heap w !! BrushTip.previousPosition f = Some PP ->
  heap w !! BrushTip.mousePosition f = Some MP ->
  0 <= pressure -> 0 <= speed -> 0 <= Size (BrushTip.brush f) ->
  exists radius w' f',
    getRadius pressure speed w = (Ok radius, w')
    /\ tip_fields w' = Some f'
    /\ 0 <= BrushTip.previousPressure f'
       <= Rmax pressure (BrushTip.previousPressure f)
    /\ 0.4 * Size (BrushTip.brush f) * BrushTip.previousPressure f' / 2 <= radius
       <= Size (BrushTip.brush f) * BrushTip.previousPressure f' / 2.
Proof.
  intros Hf HP HPP HMP Hpr Hsp Hsz.
  pose proof (getRadius_run w f P PP MP Hf HP HPP HMP pressure speed) as Hrun.
  cbv zeta in Hrun.
  set (ip := blend (Vec.dist P PP) (Vec.dist P MP) pressure (seeded f pressure)) in *.
  assert (Hip : 0 <= ip <= Rmax pressure (BrushTip.previousPressure f)).
  { pose proof (blend_between (Vec.dist P PP) (Vec.dist P MP) pressure (seeded f pressure)
                  (dist_nonneg _ _) (dist_nonneg _ _)) as [Hlo Hhi].
    fold ip in Hlo, Hhi. unfold seeded in *.
    destruct (Rlt_dec _ _) as [Hneg|Hnn].
    - rewrite Rmin_left, Rmax_left in * by lra.
      split; [lra|]. pose proof (Rmax_l pressure (BrushTip.previousPressure f)). lra.
    - split; [|exact Hhi].
      assert (0 <= Rmin pressure (BrushTip.previousPressure f)) by (apply Rmin_glb; lra).
      lra. }
  eexists. eexists. eexists. split; [exact Hrun|].
  split; [unfold with_fields, tip_fields; reflexivity|]. cbn.
  split; [exact Hip|].
  pose proof (speedFactor_range speed Hsp) as [Hlo Hhi].
  destruct Hip as [Hip0 _].
  assert (0 <= Size (BrushTip.brush f) * ip) by (apply Rmult_le_pos; assumption).
  split; nra.
Qed.

Lemma getRadius_is_bounded_witness :
  let b := mkBrush 5 0.5 10 in
  let w := sample_world b (Vec.mk 1 0) (Vec.mk 1 0) (Vec.mk 10 0) in
  let f := sample_fields b in
  exists radius w' f',
    getRadius 0.5 0.3 w = (Ok radius, w')
    /\ tip_fields w' = Some f'
    /\ 0 <= BrushTip.previousPressure f'
       <= Rmax 0.5 (BrushTip.previousPressure f)
    /\ 0.4 * Size (BrushTip.brush f) * BrushTip.previousPressure f' / 2 <= radius
       <= Size (BrushTip.brush f) * BrushTip.previousPressure f' / 2.
Proof.
  intros b w f.
  apply (getRadius_is_bounded w f (Vec.mk 1 0) (Vec.mk 1 0) (Vec.mk 1 0) 0.5 0.3);
    try reflexivity; cbn; lra.
Defined.

(** * More of the brush profiles *)

(** X6.  [GetBrush] remembers: the brush it returns for a size is the one
    that a second call for that size returns, without any further change;
    a brush once in the cache stays in it, whatever sizes are asked for;
    and the call changes nothing but the cache. *)
Theorem GetBrush_remembers (w : World) (s : R) :
  exists w' b,
    GetBrush s w = (Ok b, w')
    /\ GetBrush s w' = (Ok b, w')
    /\ (forall s' b', lookupBrush s' (DynaDraw.brushes (this w)) = Some b' ->
                      lookupBrush s' (DynaDraw.brushes (this w')) = Some b')
    /\ w' = with_this (DynaDraw.with_brushes (DynaDraw.brushes (this w')) (this w)) w.
Proof.
  unfold GetBrush, bind, get_this, modify_this, ret.
  destruct (lookupBrush s (DynaDraw.brushes (this w))) as [b|] eqn:E.
  - exists w, b. rewrite E. split; [reflexivity|]. split; [reflexivity|].
    split; [auto|]. destruct w as [h [] ev co sc]. reflexivity.
  - eexists. eexists. split; [reflexivity|]. cbn.
    destruct (decide (s = s)) as [_|N]; [|contradiction].
    split; [reflexivity|]. split; [|reflexivity].
    intros s' b' H. destruct (decide (s = s')) as [<-|_]; [congruence|exact H].
Qed.

Lemma profile_in_range (d : DynaDraw.t) (s : R) :
  standard_constants d ->
  DynaDraw.minBrushSize d < DynaDraw.maxBrushSize d ->
  DynaDraw.minBrushSize d <= s <= DynaDraw.maxBrushSize d ->
  1 <= interpolateMass d s <= 10 /\ 0.4 <= interpolateFriction d s <= 0.6.
Proof.
  unfold standard_constants, interpolateMass, interpolateFriction.
  intros [= -> -> -> ->] Hlt [Hlo Hhi].
  unfold Rdiv. rewrite !Rmult_assoc.
  set (t := (s - DynaDraw.minBrushSize d) * / (DynaDraw.maxBrushSize d - DynaDraw.minBrushSize d)).
  assert (Ht : 0 <= t <= 1).
  { unfold t. split.
    - apply Rmult_le_pos; [lra|]. left. apply Rinv_0_lt_compat. lra.
    - apply (Rmult_le_reg_r (DynaDraw.maxBrushSize d - DynaDraw.minBrushSize d)); [lra|].
      rewrite Rmult_assoc, Rinv_l by lra. lra. }
  lra.
Qed.

Lemma in_range_damped (b : BrushInstance) :
  1 <= Mass b <= 10 -> 0.4 <= Friction b <= 0.6 -> damped b.
Proof. intros Hm Hf. unfold damped. split; [lra|nra]. Qed.

(** X7.  For a size between the two sizes of the simulator, [GetBrush]
    returns a brush with a mass from 1 to 10 and a friction from 0.4 to 0.6,
    the ends being those of the smallest size (mass 1, friction 0.6) and of
    the largest (mass 10, friction 0.4); every such brush is damped, which
    is the condition under which repeated [ApplyForce] comes to rest. *)
Theorem GetBrush_in_range (w : World) (s : R) :
  cache_sound (this w) ->
  standard_constants (this w) ->
  DynaDraw.minBrushSize (this w) < DynaDraw.maxBrushSize (this w) ->
  DynaDraw.minBrushSize (this w) <= s <= DynaDraw.maxBrushSize (this w) ->
  exists w' b,
    GetBrush s w = (Ok b, w')
    /\ Size b = s
    /\ 1 <= Mass b <= 10
    /\ 0.4 <= Friction b <= 0.6
    /\ damped b
    /\ (s = DynaDraw.minBrushSize (this w) -> Mass b = 1 /\ Friction b = 0.6)
    /\ (s = DynaDraw.maxBrushSize (this w) -> Mass b = 10 /\ Friction b = 0.4).
Proof.
  intros Hc Hst Hlt Hs.
  pose proof (profile_in_range (this w) s Hst Hlt Hs) as [Hm Hf].
  assert (Hb : forall b, b = mkBrush (interpolateMass (this w) s)
                                     (interpolateFriction (this w) s) s ->
     Size b = s /\ 1 <= Mass b <= 10 /\ 0.4 <= Friction b <= 0.6 /\ damped b
     /\ (s = DynaDraw.minBrushSize (this w) -> Mass b = 1 /\ Friction b = 0.6)
     /\ (s = DynaDraw.maxBrushSize (this w) -> Mass b = 10 /\ Friction b = 0.4)).
  { intros b ->. cbn. split; [reflexivity|]. split; [exact Hm|]. split; [exact Hf|].
    split; [apply in_range_damped; assumption|].
    unfold interpolateMass, interpolateFriction. unfold standard_constants in Hst.
    injection Hst as -> -> -> ->.
    unfold Rdiv. split; intros ->.
    - replace (DynaDraw.minBrushSize (this w) - DynaDraw.minBrushSize (this w)) with 0 by ring.
      rewrite !Rmult_0_r, !Rmult_0_l. lra.
    - rewrite !Rmult_assoc, Rinv_r by lra. lra. }
  unfold GetBrush, bind, get_this, modify_this, ret.
  destruct (lookupBrush s (DynaDraw.brushes (this w))) as [b|] eqn:E.
  - exists w, b. split; [reflexivity|]. apply Hb. apply Hc. exact E.
  - eexists. eexists. split; [reflexivity|]. apply Hb. reflexivity.
Qed.

Lemma GetBrush_in_range_witness :
  let w := start_world [] in
  exists w' b,
    GetBrush 10 w = (Ok b, w')
    /\ Size b = 10
    /\ 1 <= Mass b <= 10
    /\ 0.4 <= Friction b <= 0.6
    /\ damped b
    /\ (10 = DynaDraw.minBrushSize (this w) -> Mass b = 1 /\ Friction b = 0.6)
    /\ (10 = DynaDraw.maxBrushSize (this w) -> Mass b = 10 /\ Friction b = 0.4).
Proof.
  intros w. apply (GetBrush_in_range w 10).
  - intros s b H. discriminate H.
  - reflexivity.
  - cbn. lra.
  - cbn. lra.
Defined.

(** X8.  A larger brush is heavier and has less friction: when the smallest
    size of the simulator is below its largest, [GetBrush] for two sizes
    [s1 <= s2], in or out of the range, gives the second brush at least the
    mass and at most the friction of the first. *)
Theorem larger_brush_is_heavier (w : World) (s1 s2 : R) :
  cache_sound (this w) ->
  standard_constants (this w) ->
  DynaDraw.minBrushSize (this w) < DynaDraw.maxBrushSize (this w) ->
  s1 <= s2 ->
  exists w' b1 b2,
    (let* b1 := GetBrush s1 in let* b2 := GetBrush s2 in ret (b1, b2)) w = (Ok (b1, b2), w')
    /\ Mass b1 <= Mass b2 /\ Friction b2 <= Friction b1.
Proof.
  intros Hc Hst Hlt Hs.
  destruct (GetBrush s1 w) as [[b1|e] w1] eqn:E1.
  2:{ exfalso. revert E1. unfold GetBrush, bind, get_this, modify_this, ret.
      destruct (lookupBrush _ _); discriminate. }
  destruct (GetBrush s2 w1) as [[b2|e] w2] eqn:E2.
  2:{ exfalso. revert E2. unfold GetBrush, bind, get_this, modify_this, ret.
      destruct (lookupBrush _ _); discriminate. }
  exists w2, b1, b2. split; [unfold bind; rewrite E1, E2; reflexivity|].
  pose proof (GetBrush_keeps s1 w _ w1 E1 Hc) as Hc1.
  assert (Hd1 : profile_data (this w1) = (DynaDraw.brushes (this w1), DynaDraw.minMass (this w),
             DynaDraw.maxMass (this w), DynaDraw.minFriction (this w),
             DynaDraw.maxFriction (this w), DynaDraw.minBrushSize (this w),
             DynaDraw.maxBrushSize (this w))
          /\ lookupBrush s1 (DynaDraw.brushes (this w1)) = Some b1).
  { revert E1. unfold GetBrush, bind, get_this, modify_this, ret.
    destruct (lookupBrush s1 _) eqn:E; intros [= <- <-]; cbn; [split; [reflexivity|exact E]|].
    split; [reflexivity|]. destruct (decide (s1 = s1)); [reflexivity|contradiction]. }
  destruct Hd1 as [Hd1 Hl1].
  assert (Hl2 : lookupBrush s2 (DynaDraw.brushes (this w2)) = Some b2
                /\ profile_data (this w2)
                   = (DynaDraw.brushes (this w2), DynaDraw.minMass (this w1),
                      DynaDraw.maxMass (this w1), DynaDraw.minFriction (this w1),
                      DynaDraw.maxFriction (this w1), DynaDraw.minBrushSize (this w1),
                      DynaDraw.maxBrushSize (this w1))).
  { revert E2. unfold GetBrush, bind, get_this, modify_this, ret.
    destruct (lookupBrush s2 _) eqn:E; intros [= <- <-]; cbn; [split; [exact E|reflexivity]|].
    split; [|reflexivity]. destruct (decide (s2 = s2)); [reflexivity|contradiction]. }
  destruct Hl2 as [Hl2 Hd2].
  pose proof (GetBrush_keeps s2 w1 _ w2 E2 Hc1) as Hc2.
  rewrite (Hc1 s1 b1 Hl1), (Hc2 s2 b2 Hl2). cbn.
  unfold profile_data in Hd1, Hd2.
  injection Hd1 as H1 H2 H3 H4 H5 H6. injection Hd2 as G1 G2 G3 G4 G5 G6.
  unfold interpolateMass, interpolateFriction.
  rewrite G1, G2, G3, G4, G5, G6, H1, H2, H3, H4, H5, H6.
  unfold standard_constants in Hst. injection Hst as -> -> -> ->.
  set (m := DynaDraw.minBrushSize (this w)) in *.
  set (M := DynaDraw.maxBrushSize (this w)) in *.
  assert (Hi : 0 < / (M - m)) by (apply Rinv_0_lt_compat; lra).
  unfold Rdiv. split.
  - assert ((10 - 1) * (s1 - m) * / (M - m) <= (10 - 1) * (s2 - m) * / (M - m)).
    { apply Rmult_le_compat_r; lra. }
    lra.
  - assert ((0.6 - 0.4) * (s1 - m) * / (M - m) <= (0.6 - 0.4) * (s2 - m) * / (M - m)).
    { apply Rmult_le_compat_r; lra. }
    lra.
Qed.

Lemma larger_brush_is_heavier_witness :
  exists w' b1 b2,
    (let* b1 := GetBrush 8 in let* b2 := GetBrush 30 in ret (b1, b2)) (start_world [])
    = (Ok (b1, b2), w')
    /\ Mass b1 <= Mass b2 /\ Friction b2 <= Friction b1.
Proof.
  apply (larger_brush_is_heavier (start_world []) 8 30).
  - intros s b H. discriminate H.
  - reflexivity.
  - cbn. lra.
  - lra.
Defined.

(** * More of the boundary of the simulator *)

Lemma speedFactor_0 : speedFactor 0 = 1.
Proof. unfold speedFactor. rewrite Rminus_0_r. apply Rmax_left. lra. Qed.

(** A sample that starts a path, on a host that lets the calls through. *)
Lemma ObserveCursorMovement_start (host : Host) (c : CursorState) (size : BrushSize)
    (p : Path) (w : World) :
  (forall e tr, fails host e tr = None) ->
  pathFactory host (events w) = Ok p ->
  0 < Pressure c ->
  pen_up (this w) ->
  DynaDraw.currentBrushSize (this w) = Some size ->
  (forall n, tip_angle w = Some n -> is_Some (heap w !! n)) ->
  exists w' t b,
    ObserveCursorMovement host c w = (Ok tt, w')
    /\ events w'
       = events w ++ [CallFactory; TriggerStartPath p;
                      PathStartPath p (point c) (Size b * Pressure c / 2)]
    /\ console w' = console w
    /\ scheduled w' = scheduled w
    /\ lookupBrush (BrushSize_Size size) (DynaDraw.brushes (this w')) = Some b
    /\ match lookupBrush (BrushSize_Size size) (DynaDraw.brushes (this w)) with
       | Some b0 => b = b0
       | None => b = mkBrush (interpolateMass (this w) (BrushSize_Size size))
                             (interpolateFriction (this w) (BrushSize_Size size))
                             (BrushSize_Size size)
       end
    /\ aiming w' t p (Pressure c) size
    /\ DynaDraw.lastState (this w') = Some c
    /\ in_stroke w' b t (point c) (point c) (Vec.mk 0 0)
    /\ first_flag w' = Some true
    /\ tip_angle w' = tip_angle w
    /\ settings (this w') = settings (this w)
    /\ DynaDraw.lastAnimationTime (this w') = DynaDraw.lastAnimationTime (this w).
Proof.
  intros Hq Hfac Hdown Hup Hsize Hangle.
  unfold ObserveCursorMovement, ObserveCursorMovement_try, try_catch, call_pathFactory,
    StartPath, BrushTip_StartPath, GetBrush, call, console_log, pen_up, aiming, in_stroke,
    first_flag, point, settings in *.
  open_world w. run_unfold. cbn.
  destruct (decide (0 < Pressure c)) as [_|N]; [|contradiction].
  assert (Hlast : match lastState with
                  | Some last => bool_decide (Pressure last = 0)
                  | None => true
                  end = true).
  { destruct lastState; [apply bool_decide_eq_true_2; exact Hup|reflexivity]. }
  rewrite Hlast. cbn. rewrite Hfac. cbn. rewrite Hq. cbn.
  destruct (lookupBrush (BrushSize_Size size) brushes) as [b0|] eqn:Hb; run.
  all: destruct (Rlt_dec (-1) 0) as [_|N]; [|exfalso; lra]; run.
  all: rewrite !dist_self.
  all: destruct (decide (0 = 0 /\ 0 = 0)) as [_|N]; [|exfalso; tauto]; run.
  all: rewrite Hq; cbn.
  all: rewrite speedFactor_0, Rmult_1_l.
  all: eexists; eexists (Vector2.fresh _);
       match goal with
       | b0 : BrushInstance |- _ => exists b0
       | |- _ => eexists (mkBrush _ _ _)
       end.
  all: split; [reflexivity|]; cbn.
  all: split; [rewrite <- !app_assoc; reflexivity|].
  all: split; [reflexivity|]; split; [reflexivity|].
  all: split; [first [exact Hb | cbn; destruct (decide _) as [_|N]; [reflexivity|contradiction]]|].
  all: split; [reflexivity|].
  all: split; [repeat split; reflexivity|].
  all: split; [reflexivity|].
  all: split; [|split; [reflexivity|split; [reflexivity|split; reflexivity]]].
  all: eexists; split; [reflexivity|]; cbn.
  all: split; [reflexivity|].
  all: split; [solve_lookup|]; split; [solve_lookup|]; split; [solve_lookup|].
  all: split; [eexists; solve_lookup|]; split; [eexists; solve_lookup|];
       split; [eexists; solve_lookup|].
  all: split; [lengths|]; split; [lengths|]; split; [lengths|].
  all: intros n Hn; destruct (Hangle n Hn) as [x Hx]; split; [eexists; solve_lookup|].
  all: repeat (apply not_elem_of_cons; split); try apply not_elem_of_nil; lengths.
Qed.

(** X9.  A sample with pressure, after none or after one without, starts a
    path: with a brush size set and a host that lets the calls through,
    [ObserveCursorMovement] calls the factory, triggers the start of the
    path, and starts the path at the point of the sample with the radius
    [Size * pressure / 2] of the brush of that size; it makes the path, the
    point and the pressure the current ones, and leaves the brush tip reset
    at the point, at rest, with its first segment still to draw.  Nothing
    is logged. *)
Theorem pen_down_starts_a_stroke (host : Host) (c : CursorState) (size : BrushSize)
    (p : Path) (w : World) :
  (forall e tr, fails host e tr = None) ->
  pathFactory host (events w) = Ok p ->
  0 < Pressure c ->
  pen_up (this w) ->
  DynaDraw.currentBrushSize (this w) = Some size ->
  (forall n, tip_angle w = Some n -> is_Some (heap w !! n)) ->
  exists w' t b,
    ObserveCursorMovement host c w = (Ok tt, w')
    /\ events w'
       = events w ++ [CallFactory; TriggerStartPath p;
                      PathStartPath p (point c) (Size b * Pressure c / 2)]
    /\ console w' = console w
    /\ lookupBrush (BrushSize_Size size) (DynaDraw.brushes (this w')) = Some b
    /\ aiming w' t p (Pressure c) size
    /\ DynaDraw.lastState (this w') = Some c
    /\ in_stroke w' b t (point c) (point c) (Vec.mk 0 0)
    /\ first_flag w' = Some true.
Proof.
  intros Hq Hfac Hdown Hup Hsize Hangle.
  destruct (ObserveCursorMovement_start host c size p w Hq Hfac Hdown Hup Hsize Hangle)
    as (w' & t & b & H1 & H2 & H3 & _ & H4 & _ & H5 & H6 & H7 & H8 & _).
  exists w', t, b.
  split; [exact H1|]. split; [exact H2|]. split; [exact H3|]. split; [exact H4|].
  split; [exact H5|]. split; [exact H6|]. split; [exact H7|exact H8].
Qed.

Lemma pen_down_starts_a_stroke_witness :
  let c := mkCursor 3 4 1 in
  let size := mkBrushSize 10 in
  let w := sized_world in
  exists w' t b,
    ObserveCursorMovement quietHost c w = (Ok tt, w')
    /\ events w'
       = events w ++ [CallFactory; TriggerStartPath 0%nat;
                      PathStartPath 0%nat (point c) (Size b * Pressure c / 2)]
    /\ console w' = console w
    /\ lookupBrush (BrushSize_Size size) (DynaDraw.brushes (this w')) = Some b
    /\ aiming w' t 0%nat (Pressure c) size
    /\ DynaDraw.lastState (this w') = Some c
    /\ in_stroke w' b t (point c) (point c) (Vec.mk 0 0)
    /\ first_flag w' = Some true.
Proof.
  intros c size w.
  apply (pen_down_starts_a_stroke quietHost c size 0%nat w);
    first [reflexivity | exact I | (cbn; lra) | (intros n H; discriminate H)].
Defined.

(** A sample that does not start a path. *)
Lemma ObserveCursorMovement_later (host : Host) (c : CursorState) (w : World) :
  ~ (0 < Pressure c /\ pen_up (this w)) ->
  exists w',
    ObserveCursorMovement host c w = (Ok tt, w')
    /\ heap w' = heap w ++ [point c]
    /\ events w' = events w /\ console w' = console w /\ scheduled w' = scheduled w
    /\ DynaDraw.cursor (this w') = DynaDraw.cursor (this w)
    /\ DynaDraw.path (this w') = DynaDraw.path (this w)
    /\ DynaDraw.currentBrushSize (this w') = DynaDraw.currentBrushSize (this w)
    /\ profile_data (this w') = profile_data (this w)
    /\ DynaDraw.lastState (this w') = Some c
    /\ (DynaDraw.position (this w'), DynaDraw.pressure (this w'))
       = (if decide (0 < Pressure c)
          then (Some (Vector2.fresh (heap w)), Some (Pressure c))
          else match DynaDraw.lastState (this w) with
               | Some last =>
                   if decide (0 < Pressure last)
                   then (Some (Vector2.fresh (heap w)), DynaDraw.pressure (this w))
                   else (DynaDraw.position (this w), DynaDraw.pressure (this w))
               | None => (DynaDraw.position (this w), DynaDraw.pressure (this w))
               end)
    /\ settings (this w') = settings (this w)
    /\ DynaDraw.lastAnimationTime (this w') = DynaDraw.lastAnimationTime (this w).
Proof.
  intros Hns.
  unfold ObserveCursorMovement, ObserveCursorMovement_try, try_catch, NextPoint, EndPath,
    pen_up, point, settings in *.
  open_world w. run_unfold. cbn.
  destruct (decide (0 < Pressure c)) as [Hdown|Hup].
  - destruct lastState as [last|]; [|exfalso; apply Hns; split; [assumption|exact I]].
    rewrite bool_decide_eq_false_2 by (intros E; apply Hns; split; assumption).
    cbn. eexists. split; [reflexivity|]. cbn. repeat split; reflexivity.
  - destruct lastState as [last|]; cbn.
    + destruct (decide (0 < Pressure last)); cbn;
        eexists; (split; [reflexivity|]); cbn; repeat split; reflexivity.
    + eexists. split; [reflexivity|]. cbn. repeat split; reflexivity.
Qed.

(** X10.  Every sample that does not start a path only moves the target: it
    makes no call to the host, logs nothing, and leaves the brush tip, the
    path, the brush size and the brushes as they are.  With pressure, the
    point of the sample becomes the target and its pressure the current one;
    without pressure but after a sample with pressure, the point becomes the
    target and the pressure stays (the pressure that [EndPath] is given is
    not used); otherwise neither changes.  The sample becomes the last
    state. *)
Theorem later_samples_only_move_the_target (host : Host) (c : CursorState) (w : World) :
  ~ (0 < Pressure c /\ pen_up (this w)) ->
  exists w',
    ObserveCursorMovement host c w = (Ok tt, w')
    /\ heap w' = heap w ++ [point c]
    /\ events w' = events w /\ console w' = console w
    /\ DynaDraw.cursor (this w') = DynaDraw.cursor (this w)
    /\ DynaDraw.path (this w') = DynaDraw.path (this w)
    /\ DynaDraw.currentBrushSize (this w') = DynaDraw.currentBrushSize (this w)
    /\ DynaDraw.brushes (this w') = DynaDraw.brushes (this w)
    /\ DynaDraw.lastState (this w') = Some c
    /\ (DynaDraw.position (this w'), DynaDraw.pressure (this w'))
       = if decide (0 < Pressure c)
         then (Some (Vector2.fresh (heap w)), Some (Pressure c))
         else match DynaDraw.lastState (this w) with
              | Some last =>
                  if decide (0 < Pressure last)
                  then (Some (Vector2.fresh (heap w)), DynaDraw.pressure (this w))
                  else (DynaDraw.position (this w), DynaDraw.pressure (this w))
              | None => (DynaDraw.position (this w), DynaDraw.pressure (this w))
              end.
Proof.
  intros Hns.
  destruct (ObserveCursorMovement_later host c w Hns)
    as (w' & H1 & H2 & H3 & H4 & _ & H5 & H6 & H7 & H8 & H9 & H10 & _).
  exists w'. repeat split; try assumption.
  unfold profile_data in H8. injection H8 as -> _ _ _ _ _ _. reflexivity.
Qed.

Lemma later_samples_only_move_the_target_witness :
  let c := mkCursor 3 4 0 in
  let w := start_world [] in
  exists w',
    ObserveCursorMovement quietHost c w = (Ok tt, w')
    /\ heap w' = heap w ++ [point c]
    /\ events w' = events w /\ console w' = console w
    /\ DynaDraw.cursor (this w') = DynaDraw.cursor (this w)
    /\ DynaDraw.path (this w') = DynaDraw.path (this w)
    /\ DynaDraw.currentBrushSize (this w') = DynaDraw.currentBrushSize (this w)
    /\ DynaDraw.brushes (this w') = DynaDraw.brushes (this w)
    /\ DynaDraw.lastState (this w') = Some c
    /\ (DynaDraw.position (this w'), DynaDraw.pressure (this w'))
       = if decide (0 < Pressure c)
         then (Some (Vector2.fresh (heap w)), Some (Pressure c))
         else match DynaDraw.lastState (this w) with
              | Some last =>
                  if decide (0 < Pressure last)
                  then (Some (Vector2.fresh (heap w)), DynaDraw.pressure (this w))
                  else (DynaDraw.position (this w), DynaDraw.pressure (this w))
              | None => (DynaDraw.position (this w), DynaDraw.pressure (this w))
              end.
Proof.
  intros c w. apply (later_samples_only_move_the_target quietHost c w).
  cbn. lra.
Defined.

(** X11.  When the path factory throws, the sample that should start a path
    starts none and is not tried again: [ObserveCursorMovement] returns with
    the error logged, only the factory called, and the simulator as it was
    but for the last state; after it the pen counts as down, so that the
    next sample with pressure is taken as a further point of a path that
    was never started. *)
Theorem pen_down_with_a_failing_factory (host : Host) (c : CursorState) (err : Error)
    (w : World) :
  pathFactory host (events w) = Throw err ->
  0 < Pressure c ->
  pen_up (this w) ->
  exists w',
    ObserveCursorMovement host c w = (Ok tt, w')
    /\ events w' = events w ++ [CallFactory]
    /\ console w' = console w ++ [err]
    /\ this w' = DynaDraw.with_lastState (Some c) (this w)
    /\ ~ pen_up (this w').
Proof.
  intros Hfac Hdown Hup.
  unfold ObserveCursorMovement, ObserveCursorMovement_try, try_catch, call_pathFactory,
    console_log, pen_up in *.
  open_world w. run_unfold. cbn.
  destruct (decide (0 < Pressure c)) as [_|N]; [|contradiction].
  assert (Hlast : match lastState with
                  | Some last => bool_decide (Pressure last = 0)
                  | None => true
                  end = true).
  { destruct lastState; [apply bool_decide_eq_true_2; exact Hup|reflexivity]. }
  rewrite Hlast. cbn. rewrite Hfac. cbn.
  eexists. split; [reflexivity|]. cbn.
  split; [reflexivity|]. split; [reflexivity|]. split; [reflexivity|]. lra.
Qed.

Lemma pen_down_with_a_failing_factory_witness :
  let c := mkCursor 3 4 1 in
  let w := start_world [] in
  exists w',
    ObserveCursorMovement brokenHost c w = (Ok tt, w')
    /\ events w' = events w ++ [CallFactory]
    /\ console w' = console w ++ [HostError 7]
    /\ this w' = DynaDraw.with_lastState (Some c) (this w)
    /\ ~ pen_up (this w').
Proof.
  intros c w.
  apply (pen_down_with_a_failing_factory brokenHost c (HostError 7) w);
    first [reflexivity | exact I | (cbn; lra)].
Defined.

(** X12.  A stroke begun before any [SetBrushSize] stops the animation for
    good.  On a simulator without a brush size and with a brush tip never
    reset, the sample that should start the path fails in [StartPath] with a
    [TypeError], which is logged, after the factory was called and the start
    of the path triggered; the next sample with pressure makes its point
    the target; and the next animation frame, [Tick] or [TickWhile], throws
    a [TypeError] out of [ApplyForce], with no further frame asked for. *)
Theorem stroke_without_brush_size_stops_the_frames (host : Host) (c1 c2 : CursorState)
    (p : Path) (cb : Callback) (rounds : nat) (time : R) (w : World) :
  (forall e tr, fails host e tr = None) ->
  pathFactory host (events w) = Ok p ->
  0 < Pressure c1 -> 0 < Pressure c2 ->
  pen_up (this w) ->
  DynaDraw.currentBrushSize (this w) = None ->
  tip_fields w = None ->
  scheduled w = Some cb ->
  (cb = NextTick -> is_Some (DynaDraw.lastAnimationTime (this w))) ->
  exists w',
    (ObserveCursorMovement host c1;;;
     ObserveCursorMovement host c2;;;
     animationFrame host (S rounds) time) w = (Throw TypeError, w')
    /\ events w' = events w ++ [CallFactory; TriggerStartPath p]
    /\ console w' = console w ++ [TypeError]
    /\ scheduled w' = None.
Proof.
  intros Hq Hfac Hd1 Hd2 Hup Hsize Hf Hsc Hla.
  unfold ObserveCursorMovement, ObserveCursorMovement_try, try_catch, call_pathFactory,
    StartPath, NextPoint, call, console_log, pen_up, animationFrame, run_callback, Tick,
    TickWhile, number_of in *.
  open_world w. run_unfold. cbn.
  destruct (decide (0 < Pressure c1)) as [_|N]; [|contradiction].
  assert (Hlast : match lastState with
                  | Some last => bool_decide (Pressure last = 0)
                  | None => true
                  end = true).
  { destruct lastState; [apply bool_decide_eq_true_2; exact Hup|reflexivity]. }
  rewrite Hlast. cbn. rewrite Hfac. cbn. rewrite Hq. cbn.
  destruct (decide (0 < Pressure c2)) as [_|N]; [|contradiction].
  rewrite bool_decide_eq_false_2 by lra. cbn.
  destruct cb; [| destruct (Hla eq_refl) as [last ->] |];
    run; eexists; (split; [reflexivity|]); cbn;
    rewrite <- ?app_assoc; repeat split; reflexivity.
Qed.

Lemma stroke_without_brush_size_stops_the_frames_witness :
  let w := start_world [] in
  exists w',
    (ObserveCursorMovement quietHost (mkCursor 0 0 1);;;
     ObserveCursorMovement quietHost (mkCursor 10 0 1);;;
     animationFrame quietHost 1 0) w = (Throw TypeError, w')
    /\ events w' = events w ++ [CallFactory; TriggerStartPath 0%nat]
    /\ console w' = console w ++ [TypeError]
    /\ scheduled w' = None.
Proof.
  intros w.
  apply (stroke_without_brush_size_stops_the_frames quietHost (mkCursor 0 0 1)
           (mkCursor 10 0 1) 0%nat NextTickWhile 0 0 w);
    first [reflexivity | exact I | (cbn; lra) | (intros H; discriminate H)].
Defined.

(** * The frames *)

Lemma aiming_same (w w' : World) (t : loc) (p : Path) (pressure : R) (size : BrushSize) :
  this w' = DynaDraw.with_cursor (DynaDraw.cursor (this w')) (this w) ->
  aiming w t p pressure size -> aiming w' t p pressure size.
Proof. unfold aiming. intros ->. cbn. tauto. Qed.

(** [Draw] in a stroke, once there is an angle. *)
Lemma Draw_in_stroke (host : Host) (w : World) (b : BrushInstance) (t : loc)
    (T P V : Vec.t) (p : Path) (pressure : R) (first : bool) :
  (forall e tr, fails host e tr = None) ->
  in_stroke w b t T P V ->
  is_Some (tip_angle w) ->
  first_flag w = Some first ->
  exists w' new,
    Draw host (Some p) pressure w = (Ok tt, w')
    /\ in_stroke w' b t T P V
    /\ is_Some (tip_angle w')
    /\ first_flag w' = Some false
    /\ events w' = events w ++ new
    /\ map call_of new = segment_calls p first 1
    /\ console w' = console w /\ scheduled w' = scheduled w
    /\ this w' = DynaDraw.with_cursor (DynaDraw.cursor (this w')) (this w).
Proof.
  intros Hq (f & Hf & Hb & Ht & Hp & Hv & [SP Hsp] & [PP Hpp] & [MP Hmp] & Hpv & Htv & Htp & Hn)
    [n Ha] Hfirst.
  destruct (Hn n Ha) as [[A HA] Hap].
  repeat (apply not_elem_of_cons in Hap; destruct Hap as [? Hap]).
  destruct (Draw_effect host w f n p pressure A P SP V PP MP Hq Hf Ha HA Hp Hsp Hv Hpp Hmp)
    as (w' & HD & Hf' & Ha' & HA' & Hframe & Hev & Hco & Hsc & Hth); [assumption..|].
  exists w'. eexists. split; [exact HD|].
  assert (Hfl : BrushTip.firstSegment f = first).
  { unfold first_flag in Hfirst. rewrite Hf in Hfirst. injection Hfirst as ->. reflexivity. }
  split; [|split; [rewrite Ha'; eauto|]; split; [unfold first_flag; rewrite Hf'; reflexivity|];
           split; [exact Hev|]; split; [rewrite Hfl; destruct first; reflexivity|];
           repeat split; assumption].
  eexists. split; [exact Hf'|]. cbn.
  split; [exact Hb|]. split; [apply Hframe; auto|]. split; [apply Hframe; auto|].
  split; [apply Hframe; auto|]. split; [eexists; apply Hframe; eauto|].
  split; [eexists; apply Hframe; eauto|]. split; [eexists; apply Hframe; eauto|].
  split; [assumption|]. split; [assumption|]. split; [assumption|].
  intros n' Hn'. rewrite Ha' in Hn'. injection Hn' as <-.
  split; [eauto|]. apart.
Qed.

Lemma segment_calls_add (p : Path) (first : bool) (k k' : nat) :
  segment_calls p first k ++ segment_calls p (match k with O => first | _ => false end) k'
  = segment_calls p first (k + k').
Proof.
  revert first. induction k as [|k IH]; intros first; [reflexivity|].
  specialize (IH false). cbn [segment_calls Nat.add].
  rewrite <- !app_assoc. f_equal. cbn [app]. f_equal. f_equal.
  rewrite <- IH. destruct k; reflexivity.
Qed.

(** [Reset] puts the brush tip in a stroke towards every object of the
    store that is not the old angle. *)
Lemma Reset_in_stroke (w : World) (p : loc) (P : Vec.t) (brush : BrushInstance) :
  heap w !! p = Some P ->
  (forall n, tip_angle w = Some n -> is_Some (heap w !! n)) ->
  exists w', Reset p brush w = (Ok tt, w')
    /\ tip_angle w' = tip_angle w
    /\ forall m T, heap w !! m = Some T -> tip_angle w <> Some m ->
         in_stroke w' brush m T P (Vec.mk 0 0).
Proof.
  intros Hp Hangle. unfold in_stroke. open_world w. run_unfold. run.
  eexists. split; [reflexivity|]. cbn. split; [reflexivity|].
  intros m T Hm Hnm.
  eexists. split; [reflexivity|]. cbn. split; [reflexivity|].
  split; [solve_lookup|]. split; [solve_lookup|]. split; [solve_lookup|].
  split; [eexists; solve_lookup|]. split; [eexists; solve_lookup|].
  split; [eexists; solve_lookup|].
  split; [lengths|]. split; [lengths|]. split; [lengths|].
  intros n Hn. destruct (Hangle n Hn) as [x Hx]. split; [eexists; solve_lookup|].
  apply not_elem_of_cons. split; [intros ->; apply Hnm; exact Hn|].
  repeat (apply not_elem_of_cons; split); try apply not_elem_of_nil; lengths.
Qed.

(** [ApplyForce] towards one object leaves the brush tip in its strokes
    towards the others. *)
Lemma ApplyForce_in_stroke_others (w w' : World) (b : BrushInstance) (t t2 : loc)
    (T T2 P V : Vec.t) (elapsedFrames d : R) :
  in_stroke w b t T P V ->
  in_stroke w b t2 T2 P V ->
  ApplyForce t elapsedFrames w = (Ok d, w') ->
  in_stroke w' b t2 T2 (fst (snd (step b elapsedFrames T P V)))
                       (snd (snd (step b elapsedFrames T P V))).
Proof.
  intros (f & Hf & <- & Ht & Hp & Hv & [SP Hsp] & [PP Hpp] & [MP Hmp] & Hpv & Htv & Htp & Hn)
         (f2 & Hf2 & _ & Ht2 & _ & _ & _ & _ & _ & _ & Htv2 & Htp2 & Hn2).
  rewrite Hf in Hf2. injection Hf2 as <-.
  unfold step, dragged, pulled, force.
  destruct f as [lp lsp lv acc b first lpp ppr lmp].
  open_world w. run_unfold. run.
  destruct (Rlt_dec _ _) as [Hlt|Hge]; run.
  { intros [= <- <-].
    eexists. split; [reflexivity|]. cbn. split; [reflexivity|].
    split; [solve_lookup|]. split; [solve_lookup|]. split; [solve_lookup|].
    split; [valid|]. split; [valid|]. split; [valid|].
    split; [assumption|]. split; [assumption|]. split; [assumption|].
    intros n Hn'. destruct (Hn2 n Hn') as [Hval Hap]. split; [valid|exact Hap]. }
  destruct (Rlt_dec _ _) as [Hlt|Hge']; run.
  { intros [= <- <-].
    eexists. split; [reflexivity|]. cbn. split; [reflexivity|].
    split; [solve_lookup|]. split; [solve_lookup|]. split; [solve_lookup|].
    split; [valid|]. split; [valid|]. split; [valid|].
    split; [assumption|]. split; [assumption|]. split; [assumption|].
    intros n Hn'. destruct (Hn2 n Hn') as [Hval Hap]. split; [valid|exact Hap]. }
  destruct (Req_dec_T _ _) as [E|_]; [exfalso; revert E; apply size_nonzero; assumption|].
  run. intros [= <- <-].
  eexists. split; [reflexivity|]. cbn. split; [reflexivity|].
  split; [solve_lookup|]. split; [solve_lookup|]. split; [solve_lookup|].
  split; [valid|]. split; [valid|]. split; [valid|].
  split; [assumption|]. split; [assumption|]. split; [assumption|].
  intros n [= <-]. split; [valid|].
  repeat (apply not_elem_of_cons; split); try apply not_elem_of_nil; lengths.
Qed.

(** The pulls of a stroke all return, and so do its [Draw]s, once there is
    an angle: from a stroke before, or from the first pull when it moves
    the brush. *)
Lemma segments_return (host : Host) (b : BrushInstance) (p : Path) :
  (forall e tr, fails host e tr = None) ->
  forall (steps : list (loc * R * R)) (w : World) (P V : Vec.t) (first : bool),
    Forall (fun s => exists T, in_stroke w b s.1.1 T P V) steps ->
    first_flag w = Some first ->
    (is_Some (tip_angle w)
     \/ forall m e pr rest T, steps = (m, e, pr) :: rest -> heap w !! m = Some T ->
          0 < fst (step b e T P V)) ->
    exists ds w', segments host (Some p) steps w = (Ok ds, w') /\ length ds = length steps.
Proof.
  intros Hq. induction steps as [|[[m e] pr] rest IH]; intros w P V first Hall Hfl Hang.
  - exists [], w. split; reflexivity.
  - apply Forall_cons in Hall as [[T Hin] Hrest]. cbn [fst] in Hin.
    destruct (ApplyForce_in_stroke w b m T P V e Hin)
      as (w1 & HA & Hin1 & _ & Hang1 & Hang1').
    assert (Hfl1 : first_flag w1 = Some first).
    { destruct (ApplyForce_flag _ _ _ _ _ HA) as [_ ->]. exact Hfl. }
    assert (Ha1 : is_Some (tip_angle w1)).
    { destruct Hang as [Ha|Hmove]; [apply Hang1; exact Ha|].
      apply Hang1'. apply (Hmove m e pr rest T eq_refl).
      destruct Hin as (f & _ & _ & Ht & _). exact Ht. }
    destruct (Draw_in_stroke host w1 b m T _ _ p pr first Hq Hin1 Ha1 Hfl1)
      as (w2 & new & HD & Hin2 & Ha2 & Hfl2 & _).
    destruct (IH w2 (fst (snd (step b e T P V))) (snd (snd (step b e T P V))) false)
      as (ds & w3 & HS & Hlen).
    + apply Forall_forall. intros s Hs. rewrite Forall_forall in Hrest.
      destruct (Hrest s Hs) as [T' Hin'].
      exists T'.
      pose proof (ApplyForce_in_stroke_others w w1 b m s.1.1 T T' P V e _ Hin Hin' HA) as Hin1'.
      destruct (Draw_in_stroke host w1 b s.1.1 T' _ _ p pr first Hq Hin1' Ha1 Hfl1)
        as (w2' & new' & HD' & Hin2' & _).
      rewrite HD in HD'. injection HD' as <-. exact Hin2'.
    + exact Hfl2.
    + left. exact Ha2.
    + exists (fst (step b e T P V) :: ds), w3. split; [|cbn; rewrite Hlen; reflexivity].
      cbn [segments]. eapply bind_Ok; [exact HA|]. eapply bind_Ok; [exact HD|].
      eapply bind_Ok; [exact HS|]. reflexivity.
Qed.

Lemma step_at_rest (b : BrushInstance) (e : R) (T P V : Vec.t) :
  ~ 0 < fst (step b e T P V) ->
  Vec.sizeSq (force T (fst (snd (step b e T P V)))) < 1
  \/ Vec.sizeSq (snd (snd (step b e T P V))) < 1.
Proof.
  unfold step, Threshold.Force, Threshold.Velocity.
  destruct (Rlt_dec _ _) as [H1|H1]; cbn [fst snd]; [left; exact H1|].
  destruct (Rlt_dec _ _) as [H2|H2]; cbn [fst snd]; [right; exact H2|].
  intros H. right. pose proof (sizeSq_nonneg (dragged b e T P V)). lra.
Qed.

(** C2.  A stroke of the brush tip, that is one [Reset] followed by pulls
    each followed by a [Draw], returns and makes these calls on its path, on
    a host that lets the calls through: [InitPath] once, by the first [Draw]
    and before its [ExtendPath]; then for every [Draw], the first and each
    later one, [ExtendPath] and after it [Draw] of the path, once each; a
    later [Draw] makes no other call.  The targets of the pulls are objects
    of the store.  A [Draw] needs the angle that a pull leaves when it moves
    the brush: the first pull moves it (as when every [ApplyForce] of the
    stroke returns nonzero), or there is an angle of an earlier stroke. *)
Theorem C2_InitPath_once_then_ExtendPath_Draw (host : Host) (position : loc)
    (brush : BrushInstance) (p : Path) (steps : list (loc * R * R))
    (w : World) (P : Vec.t) :
  (forall e tr, fails host e tr = None) ->
  heap w !! position = Some P ->
  Forall (fun s => is_Some (heap w !! s.1.1) /\ tip_angle w <> Some s.1.1) steps ->
  (forall n, tip_angle w = Some n -> is_Some (heap w !! n)) ->
  (is_Some (tip_angle w)
   \/ forall m e pr rest T, steps = (m, e, pr) :: rest -> heap w !! m = Some T ->
        0 < fst (step brush e T P (Vec.mk 0 0))) ->
  exists ds w' new,
    stroke host position brush (Some p) steps w = (Ok ds, w')
    /\ length ds = length steps
    /\ events w' = events w ++ new
    /\ map call_of new
       = match steps with
         | [] => []
         | _ :: rest =>
             InitPath_ p :: ExtendPath_ p :: Draw_ p
             :: concat (replicate (length rest) [ExtendPath_ p; Draw_ p])
         end.
Proof.
  intros Hq Hp Hmice Hangle Hfirst.
  destruct (Reset_in_stroke w position P brush Hp Hangle) as (w1 & HR & Ha1 & Hin).
  destruct (Reset_flag _ _ _ _ HR) as [_ Hfl1].
  destruct (segments_return host brush p Hq steps w1 P (Vec.mk 0 0) true)
    as (ds & w' & HS & Hlen).
  - apply Forall_forall. intros s Hs. rewrite Forall_forall in Hmice.
    destruct (Hmice s Hs) as [[T HT] Hna]. exists T. apply Hin; assumption.
  - exact Hfl1.
  - destruct Hfirst as [Ha|Hmove]; [left; rewrite Ha1; exact Ha|].
    right. intros m e pr rest T -> HT.
    apply Forall_cons in Hmice as [[[T0 HT0] Hna] _]. cbn [fst] in HT0, Hna.
    destruct (Hin m T0 HT0 Hna) as (f & _ & _ & HT1 & _).
    rewrite HT1 in HT. injection HT as <-.
    apply (Hmove m e pr rest T0 eq_refl HT0).
  - assert (Hrun : stroke host position brush (Some p) steps w = (Ok ds, w')).
    { unfold stroke. eapply bind_Ok; [exact HR|exact HS]. }
    destruct (stroke_calls host position brush p steps w w' ds Hrun) as (new & Hev & Hcalls).
    exists ds, w', new. split; [exact Hrun|]. split; [exact Hlen|].
    split; [exact Hev|exact Hcalls].
Qed.

Lemma C2_InitPath_once_then_ExtendPath_Draw_witness :
  let w := start_world [Vec.mk 0 0; Vec.mk 10 0] in
  exists ds w' new,
    stroke quietHost 0%nat (mkBrush 5 0.5 10) (Some 0%nat) two_pulls w = (Ok ds, w')
    /\ length ds = length two_pulls
    /\ events w' = events w ++ new
    /\ map call_of new
       = [InitPath_ 0%nat; ExtendPath_ 0%nat; Draw_ 0%nat; ExtendPath_ 0%nat; Draw_ 0%nat].
Proof.
  intros w.
  apply (C2_InitPath_once_then_ExtendPath_Draw quietHost 0%nat (mkBrush 5 0.5 10) 0%nat
           two_pulls w (Vec.mk 0 0)).
  - intros e tr. reflexivity.
  - reflexivity.
  - unfold two_pulls. repeat constructor; cbn; first [eauto | discriminate].
  - intros n H. discriminate H.
  - right. intros m e pr rest T [= <- <- <- <-] HT. cbn in HT. injection HT as <-.
    unfold step, dragged, pulled, force, Vec.sizeSq, Vec.plus, Vec.times, Vec.minus,
      Threshold.Force, Threshold.Velocity. cbn.
    destruct (Rlt_dec _ _) as [H|_]; [exfalso; lra|].
    destruct (Rlt_dec _ _) as [H|_]; [exfalso; lra|].
    cbn. lra.
Defined.

Section Loop.

Variables (host : Host) (b : BrushInstance) (t : loc) (T : Vec.t) (p : Path)
  (pressure : R) (size : BrushSize).
Hypothesis Hquiet : forall e tr, fails host e tr = None.
Hypothesis Hfriction : 0 < Friction b < 1.
Hypothesis Hmass : 2 * Mass b * (2 - Friction b) > 1 - Friction b.
Hypothesis Hsize : 0 <= BrushSize_Size size.

(** The loop of [TickWhile] ends within [N] rounds when the energy is below
    [N] times the loss of a moving step.  Along the way, the distance [s]
    counted since the last [Draw] is positive only if there is an angle. *)
Lemma TickWhile_loop_finishes :
  forall (N : nat) (w : World) (s0 : R) (P V : Vec.t) (first : bool),
    in_stroke w b t T P V ->
    aiming w t p pressure size ->
    first_flag w = Some first ->
    0 <= s0 -> (0 < s0 -> is_Some (tip_angle w)) ->
    energy b T P V < INR N * loss b ->
    exists w' s P' V' new k,
      TickWhile_loop host N t s0 w = (Ok (Some s), w')
      /\ in_stroke w' b t T P' V'
      /\ aiming w' t p pressure size
      /\ first_flag w' = Some (match k with O => first | _ => false end)
      /\ 0 <= s /\ (0 < s -> is_Some (tip_angle w'))
      /\ events w' = events w ++ new
      /\ map call_of new = segment_calls p first k
      /\ console w' = console w /\ scheduled w' = scheduled w
      /\ this w' = DynaDraw.with_cursor (DynaDraw.cursor (this w')) (this w)
      /\ (Vec.sizeSq (force T P') < 1 \/ Vec.sizeSq V' < 1)
      /\ (0 < s0 \/ 0 < fst (step b 1 T P V) -> 0 < s \/ (0 < k)%nat)
      /\ (s0 = 0 -> ~ 0 < fst (step b 1 T P V) -> k = 0%nat /\ s = 0).
Proof.
  pose proof (loss_pos b Hfriction Hmass) as Hloss.
  assert (Hm : 0 < Mass b) by nra.
  induction N as [|N IH]; intros w s0 P V first Hin Haim Hfl Hs0 Hang HE.
  - pose proof (energy_nonneg b T P V Hfriction Hmass). cbn in HE. lra.
  - destruct (ApplyForce_in_stroke w b t T P V 1 Hin)
      as (w1 & HA & Hin1 & (Hev1 & Hco1 & Hsc1 & Hth1) & Hang1 & Hang1').
    pose proof (step_nonneg b 1 T P V) as Hd.
    pose proof (aiming_same w w1 t p pressure size Hth1 Haim) as Haim1.
    assert (Hfl1 : first_flag w1 = Some first).
    { destruct (ApplyForce_flag _ _ _ _ _ HA) as [_ ->]. exact Hfl. }
    set (d := fst (step b 1 T P V)) in *.
    set (P1 := fst (snd (step b 1 T P V))) in *.
    set (V1 := snd (snd (step b 1 T P V))) in *.
    assert (Hang2 : 0 < s0 + d -> is_Some (tip_angle w1)).
    { intros Hpos. destruct (Rlt_dec 0 d); [auto|].
      apply Hang1, Hang. lra. }
    (* the body of the loop, up to the test *)
    assert (Hbody : exists w2 s2 new k,
      (if decide (BrushSize_Size size < s0 + d) then
         let* pressure0 := number_of (DynaDraw.pressure (this w1)) in
         Draw host (DynaDraw.path (this w1)) pressure0;;; ret 0
       else ret (s0 + d)) w1 = (Ok s2, w2)
      /\ (0 < s0 + d -> 0 < s2 \/ (0 < k)%nat)
      /\ (s0 + d = 0 -> k = 0%nat /\ s2 = 0)
      /\ in_stroke w2 b t T P1 V1
      /\ aiming w2 t p pressure size
      /\ first_flag w2 = Some (match k with O => first | _ => false end)
      /\ 0 <= s2 /\ (0 < s2 -> is_Some (tip_angle w2))
      /\ events w2 = events w1 ++ new
      /\ map call_of new = segment_calls p first k
      /\ console w2 = console w1 /\ scheduled w2 = scheduled w1
      /\ this w2 = DynaDraw.with_cursor (DynaDraw.cursor (this w2)) (this w1)).
    { destruct Haim1 as (Hpo & Hpa & Hpr & Hsi).
      destruct (decide (BrushSize_Size size < s0 + d)) as [Hgt|Hle].
      - destruct (Draw_in_stroke host w1 b t T P1 V1 p pressure first Hquiet Hin1)
          as (w2 & new & HD & Hin2 & Hang3 & Hfl2 & Hev2 & Hcalls & Hco2 & Hsc2 & Hth2);
          [apply Hang2; lra|exact Hfl1|].
        exists w2, 0, new, 1%nat. rewrite Hpr, Hpa. cbn [number_of deref].
        split; [eapply bind_Ok; [reflexivity|]; eapply bind_Ok; [exact HD|]; reflexivity|].
        split; [intros _; right; lia|]. split; [intros H0; exfalso; lra|].
        split; [exact Hin2|]. split; [apply (aiming_same w1); [exact Hth2|repeat split; assumption]|].
        split; [exact Hfl2|]. split; [lra|]. split; [intros; lra|].
        repeat split; assumption.
      - exists w1, (s0 + d), [], 0%nat. split; [reflexivity|].
        split; [intros H0; left; exact H0|].
        split; [intros H0; split; [reflexivity|exact H0]|].
        split; [exact Hin1|]. split; [repeat split; assumption|].
        split; [exact Hfl1|]. split; [lra|]. split; [exact Hang2|].
        rewrite app_nil_r. repeat split; try reflexivity.
        destruct (this w1); reflexivity. }
    destruct Hbody as (w2 & s2 & new & k & HB & Hk1 & Hk0 & Hin2 & Haim2 & Hfl2 & Hs2 & Hang3 & Hev2 & Hcalls & Hco2 & Hsc2 & Hth2).
    assert (Hunf : TickWhile_loop host (S N) t s0 w
                   = (if decide (0 < d) then TickWhile_loop host N t s2 else ret (Some s2)) w2).
    { cbn [TickWhile_loop]. eapply bind_Ok; [exact HA|].
      eapply bind_Ok; [reflexivity|]. cbv beta.
      destruct Haim1 as (_ & _ & _ & Hsi). rewrite Hsi.
      eapply bind_Ok; [reflexivity|]. cbv beta.
      eapply bind_Ok; [exact HB|]. reflexivity. }
    rewrite Hunf. clear Hunf HB.
    destruct (decide (0 < d)) as [Hmove|Hstop].
    + (* the brush moved: the energy went down *)
      assert (HE1 : energy b T P1 V1 < INR N * loss b).
      { subst d P1 V1. revert Hmove. unfold step.
        destruct (Rlt_dec _ _); cbn [fst snd]; [lra|].
        destruct (Rlt_dec _ _) as [|Hge]; cbn [fst snd]; [lra|]. intros _.
        rewrite energy_step by lra. rewrite S_INR in HE.
        unfold Threshold.Velocity in Hge.
        assert (loss b <= loss b * Vec.sizeSq (pulled b T P V)) by nra.
        lra. }
      destruct (IH w2 s2 P1 V1 _ Hin2 Haim2 Hfl2 Hs2 Hang3 HE1)
        as (w3 & s3 & P3 & V3 & new' & k' & HL & Hin3 & Haim3 & Hfl3 & Hs3 & Hang4 & Hev3 & Hcalls' & Hco3 & Hsc3 & Hth3 & Hend & Hfw & _).
      exists w3, s3, P3, V3, (new ++ new'), (k + k')%nat.
      split; [exact HL|]. split; [exact Hin3|]. split; [exact Haim3|].
      split; [rewrite Hfl3; destruct k, k'; reflexivity|].
      split; [exact Hs3|]. split; [exact Hang4|].
      split; [rewrite Hev3, Hev2, Hev1, app_assoc; reflexivity|].
      split; [rewrite map_app, Hcalls, Hcalls'; apply segment_calls_add|].
      split; [congruence|]. split; [congruence|].
      split; [rewrite Hth3, Hth2, Hth1; reflexivity|]. split; [exact Hend|].
      split.
      * intros _. destruct Hk1 as [H|H]; [lra| |right; lia].
        destruct (Hfw (or_introl H)) as [H3|H3]; [left; exact H3|right; lia].
      * intros _ Hn. contradiction.
    + exists w2, s2, P1, V1, new, k.
      split; [reflexivity|]. split; [exact Hin2|]. split; [exact Haim2|].
      split; [exact Hfl2|]. split; [exact Hs2|]. split; [exact Hang3|].
      split; [rewrite Hev2, Hev1; reflexivity|]. split; [exact Hcalls|].
      split; [congruence|]. split; [congruence|].
      split; [rewrite Hth2, Hth1; reflexivity|].
      split; [apply step_at_rest; exact Hstop|].
      split.
      * intros [H|H]; [|contradiction]. apply Hk1. lra.
      * intros H0 _. apply Hk0. lra.
Qed.

End Loop.

Lemma TickWhile_finishes (host : Host) (b : BrushInstance) (t : loc) (T P V : Vec.t)
    (p : Path) (pressure : R) (size : BrushSize) (first : bool) (w : World) :
  (forall e tr, fails host e tr = None) ->
  0 < Friction b < 1 ->
  2 * Mass b * (2 - Friction b) > 1 - Friction b ->
  0 <= BrushSize_Size size ->
  in_stroke w b t T P V ->
  aiming w t p pressure size ->
  first_flag w = Some first ->
  exists rounds0, forall rounds, (rounds0 <= rounds)%nat ->
    exists w' new k P' V',
      TickWhile host rounds w = (Ok true, w')
      /\ DynaDraw.position (this w') = None
      /\ scheduled w' = Some NextTickWhile
      /\ events w' = events w ++ new
      /\ map call_of new = segment_calls p first k
      /\ console w' = console w
      /\ in_stroke w' b t T P' V'
      /\ first_flag w' = Some (match k with O => first | _ => false end)
      /\ this w' = DynaDraw.with_position None
                     (DynaDraw.with_cursor (DynaDraw.cursor (this w')) (this w))
      /\ (Vec.sizeSq (force T P') < 1 \/ Vec.sizeSq V' < 1)
      /\ ((0 < k)%nat <-> 0 < fst (step b 1 T P V)).
Proof.
  intros Hq Hf Hm Hs Hin Haim Hfl.
  pose proof (loss_pos b Hf Hm) as Hloss.
  destruct (INR_unbounded (energy b T P V / loss b)) as [N0 HN0].
  exists N0. intros N HN.
  assert (HE : energy b T P V < INR N * loss b).
  { apply le_INR in HN.
    assert (energy b T P V / loss b < INR N) by lra.
    apply (Rmult_lt_compat_r (loss b)) in H; [|exact Hloss].
    unfold Rdiv in H. rewrite Rmult_assoc, Rinv_l in H by lra. lra. }
  destruct (TickWhile_loop_finishes host b t T p pressure size Hq Hf Hm Hs
              N w 0 P V first Hin Haim Hfl (Rle_refl 0))
    as (w1 & s & P1 & V1 & new & k & HL & Hin1 & Haim1 & Hfl1 & Hs1 & Hang & Hev & Hcalls & Hco & Hsc & Hth & Hend & Hfw & Hbw);
    [intros; lra|exact HE|].
  destruct Haim as (Hpo & _). destruct Haim1 as (Hpo1 & Hpa1 & Hpr1 & Hsi1).
  unfold TickWhile.
  assert (Hrest : exists w2 new2 k2,
    (0 < s -> (0 < k2)%nat) /\ (~ 0 < s -> k2 = 0%nat) /\
    (if decide (0 < s) then
       let* d := get_this in
       let* pressure0 := number_of (DynaDraw.pressure d) in
       Draw host (DynaDraw.path d) pressure0
     else ret tt) w1 = (Ok tt, w2)
    /\ events w2 = events w1 ++ new2
    /\ map call_of new2 = segment_calls p (match k with O => first | _ => false end) k2
    /\ console w2 = console w1
    /\ in_stroke w2 b t T P1 V1
    /\ first_flag w2 = Some (match (k + k2)%nat with O => first | _ => false end)
    /\ this w2 = DynaDraw.with_cursor (DynaDraw.cursor (this w2)) (this w1)).
  { destruct (decide (0 < s)) as [Hpos|Hzero].
    - destruct (Draw_in_stroke host w1 b t T P1 V1 p pressure _ Hq Hin1 (Hang Hpos) Hfl1)
        as (w2 & new2 & HD & Hin2 & _ & Hfl2 & Hev2 & Hcalls2 & Hco2 & _ & Hth2).
      exists w2, new2, 1%nat.
      split; [intros _; lia|]. split; [intros Hn; contradiction|].
      split; [|split; [exact Hev2|]; split; [exact Hcalls2|]; split; [exact Hco2|];
               split; [exact Hin2|]; split; [|exact Hth2];
               rewrite Hfl2; destruct k; reflexivity].
      eapply bind_Ok; [reflexivity|]. cbv beta. rewrite Hpr1, Hpa1.
      eapply bind_Ok; [reflexivity|]. exact HD.
    - exists w1, [], 0%nat. rewrite app_nil_r, Nat.add_0_r.
      split; [intros Hn; contradiction|]. split; [intros _; reflexivity|].
      split; [reflexivity|]. split; [reflexivity|]. split; [reflexivity|].
      split; [reflexivity|]. split; [exact Hin1|]. split; [exact Hfl1|].
      destruct (this w1); reflexivity. }
  destruct Hrest as (w2 & new2 & k2 & Hk2p & Hk2z & HR & Hev2 & Hcalls2 & Hco2 & Hin2 & Hfl2 & Hth2).
  eexists. exists (new ++ new2), (k + k2)%nat, P1, V1.
  split.
  { eapply bind_Ok; [reflexivity|]. cbv beta. rewrite Hpo.
    eapply bind_Ok; [exact HL|]. cbv beta iota.
    eapply bind_Ok; [exact HR|]. reflexivity. }
  cbn. split; [reflexivity|]. split; [reflexivity|].
  split; [rewrite Hev2, Hev, app_assoc; reflexivity|].
  split; [rewrite map_app, Hcalls, Hcalls2; apply segment_calls_add|].
  split; [congruence|].
  split.
  { destruct Hin2 as (f & Hf2 & Hrest). exists f.
    unfold tip_fields, tip_angle in *. cbn. split; [exact Hf2|]. exact Hrest. }
  split; [exact Hfl2|].
  split; [rewrite Hth2, Hth; reflexivity|]. split; [exact Hend|].
  split.
  - intros Hk. destruct (Rlt_dec 0 (fst (step b 1 T P V))) as [Hd|Hd]; [exact Hd|].
    destruct (Hbw eq_refl Hd) as [Hk0 Hs0]. rewrite Hs0 in Hk2z.
    rewrite Hk0, (Hk2z (Rlt_irrefl 0)) in Hk. lia.
  - intros Hd. destruct (Hfw (or_intror Hd)) as [H|H]; [pose proof (Hk2p H); lia|lia].
Qed.

(** X13.  [TickWhile] comes to an end.  In a stroke with a brush of a
    mass from 1 to 10 and a friction from 0.4 to 0.6, a target, a position
    and a velocity within [reach], a brush size that is not negative and a
    host that lets the calls through, the loop of [TickWhile] ends after
    finitely many rounds: the method returns, having drawn some number [k]
    of segments on the current path ([InitPath] only before the first
    segment of the stroke), with the target cleared, nothing logged and the
    next frame asked for.  The brush is then less than 1 away from the
    target, or slower than 1.  There is a segment exactly when the first
    [ApplyForce] moves the brush: [k] is 0 for a target too close or a brush
    too heavy to start.  Every bound on the rounds from some bound on gives
    this. *)
Theorem TickWhile_comes_to_rest (host : Host) (b : BrushInstance) (t : loc) (T P V : Vec.t)
    (p : Path) (pressure : R) (size : BrushSize) (first : bool) (w : World) :
  (forall e tr, fails host e tr = None) ->
  made_brush b ->
  within_reach T -> within_reach P -> within_reach V ->
  0 <= BrushSize_Size size ->
  in_stroke w b t T P V ->
  aiming w t p pressure size ->
  first_flag w = Some first ->
  exists rounds0, forall rounds, (rounds0 <= rounds)%nat ->
    exists w' new k P' V',
      TickWhile host rounds w = (Ok true, w')
      /\ DynaDraw.position (this w') = None
      /\ scheduled w' = Some NextTickWhile
      /\ events w' = events w ++ new
      /\ map call_of new = segment_calls p first k
      /\ console w' = console w
      /\ in_stroke w' b t T P' V'
      /\ (Vec.sizeSq (force T P') < 1 \/ Vec.sizeSq V' < 1)
      /\ ((0 < k)%nat <-> 0 < fst (step b 1 T P V)).
Proof.
  intros Hq [Hma Hfri] _ _ _ Hs Hin Haim Hfl.
  assert (Hf : 0 < Friction b < 1) by lra.
  assert (Hm : 2 * Mass b * (2 - Friction b) > 1 - Friction b) by nra.
  destruct (TickWhile_finishes host b t T P V p pressure size first w Hq Hf Hm Hs Hin Haim Hfl)
    as (rounds0 & H).
  exists rounds0. intros rounds Hge.
  destruct (H rounds Hge)
    as (w' & new & k & P' & V' & H1 & H2 & H3 & H4 & H5 & H6 & H7 & _ & _ & H8 & H9).
  exists w', new, k, P', V'.
  split; [exact H1|]. split; [exact H2|]. split; [exact H3|]. split; [exact H4|].
  split; [exact H5|]. split; [exact H6|]. split; [exact H7|]. split; [exact H8|exact H9].
Qed.

Lemma TickWhile_comes_to_rest_witness :
  let b := mkBrush 5 0.5 10 in
  let w := stroke_world b (Vec.mk 0 0) (Vec.mk 0 0) (Vec.mk 10 0) in
  exists rounds0, forall rounds, (rounds0 <= rounds)%nat ->
    exists w' new k P' V',
      TickWhile quietHost rounds w = (Ok true, w')
      /\ DynaDraw.position (this w') = None
      /\ scheduled w' = Some NextTickWhile
      /\ events w' = events w ++ new
      /\ map call_of new = segment_calls 0%nat true k
      /\ console w' = console w
      /\ in_stroke w' b 5%nat (Vec.mk 10 0) P' V'
      /\ (Vec.sizeSq (force (Vec.mk 10 0) P') < 1 \/ Vec.sizeSq V' < 1)
      /\ ((0 < k)%nat <-> 0 < fst (step b 1 (Vec.mk 10 0) (Vec.mk 0 0) (Vec.mk 0 0))).
Proof.
  intros b w.
  apply (TickWhile_comes_to_rest quietHost b 5%nat (Vec.mk 10 0) (Vec.mk 0 0) (Vec.mk 0 0)
           0%nat 1 (mkBrushSize 10) true w).
  - reflexivity.
  - unfold made_brush. cbn. lra.
  - unfold within_reach, reach. cbn. split; apply Rabs_le; lra.
  - unfold within_reach, reach. cbn. split; apply Rabs_le; lra.
  - unfold within_reach, reach. cbn. split; apply Rabs_le; lra.
  - cbn. lra.
  - exists (sample_fields b).
    do 11 (split; [first [reflexivity | (cbn; eauto) | (cbn; lia)]|]).
    intros n H. discriminate H.
  - repeat split; reflexivity.
  - reflexivity.
Defined.

(** One [Tick] in a stroke. *)
Lemma Tick_in_stroke (host : Host) (b : BrushInstance) (t : loc) (T P V : Vec.t)
    (p : Path) (pressure last time : R) (first : bool) (w : World) :
  (forall e tr, fails host e tr = None) ->
  in_stroke w b t T P V ->
  DynaDraw.position (this w) = Some t ->
  DynaDraw.path (this w) = Some p ->
  DynaDraw.pressure (this w) = Some pressure ->
  DynaDraw.lastAnimationTime (this w) = Some last ->
  first_flag w = Some first ->
  let s := step b ((time - last) / oneFrame) T P V in
  exists w',
    Tick host time w = (Ok tt, w')
    /\ DynaDraw.lastAnimationTime (this w') = Some time
    /\ scheduled w' = Some NextTick
    /\ console w' = console w
    /\ in_stroke w' b t T (fst (snd s)) (snd (snd s))
    /\ (if decide (0 < fst s)
        then DynaDraw.position (this w') = Some t
             /\ exists new, events w' = events w ++ new
                  /\ map call_of new = segment_calls p first 1
        else DynaDraw.position (this w') = None /\ events w' = events w)
    /\ first_flag w' = Some (if decide (0 < fst s) then false else first)
    /\ this w'
       = with_lastAnimationTime (Some time)
           (DynaDraw.with_position (DynaDraw.position (this w'))
              (DynaDraw.with_cursor (DynaDraw.cursor (this w')) (this w))).
Proof.
  intros Hq Hin Hpo Hpa Hpr Hla Hfl s.
  destruct (ApplyForce_in_stroke w b t T P V ((time - last) / oneFrame) Hin)
    as (w1 & HA & Hin1 & (Hev1 & Hco1 & Hsc1 & Hth1) & _ & Hang1).
  fold s in HA, Hin1, Hang1.
  assert (Hfl1 : first_flag w1 = Some first).
  { destruct (ApplyForce_flag _ _ _ _ _ HA) as [_ ->]. exact Hfl. }
  assert (Hpa1 : DynaDraw.path (this w1) = Some p) by (rewrite Hth1; exact Hpa).
  assert (Hpr1 : DynaDraw.pressure (this w1) = Some pressure) by (rewrite Hth1; exact Hpr).
  assert (Hpo1 : DynaDraw.position (this w1) = Some t) by (rewrite Hth1; exact Hpo).
  unfold Tick.
  destruct (decide (0 < fst s)) as [Hmove|Hstop].
  - destruct (Draw_in_stroke host w1 b t T _ _ p pressure first Hq Hin1 (Hang1 Hmove) Hfl1)
      as (w2 & new & HD & Hin2 & _ & Hfl2 & Hev2 & Hcalls & Hco2 & Hsc2 & Hth2).
    eexists. split.
    { eapply bind_Ok; [reflexivity|]. cbv beta. rewrite Hpo.
      eapply bind_Ok.
      { rewrite Hla. eapply bind_Ok; [reflexivity|]. cbv beta.
        eapply bind_Ok; [exact HA|]. cbv beta.
        destruct (decide (0 < fst s)) as [_|N]; [|contradiction].
        eapply bind_Ok; [reflexivity|]. cbv beta. rewrite Hpr1, Hpa1.
        eapply bind_Ok; [reflexivity|]. exact HD. }
      reflexivity. }
    cbn. split; [reflexivity|]. split; [reflexivity|]. split; [congruence|].
    split.
    { destruct Hin2 as (f & Hf2 & Hrest). exists f.
      unfold tip_fields, tip_angle in *. cbn. split; [exact Hf2|]. exact Hrest. }
    split.
    { split; [rewrite Hth2; exact Hpo1|].
      exists new. split; [rewrite Hev2, Hev1; reflexivity|exact Hcalls]. }
    split; [exact Hfl2|].
    rewrite Hth2, Hth1. reflexivity.
  - eexists. split.
    { eapply bind_Ok; [reflexivity|]. cbv beta. rewrite Hpo.
      eapply bind_Ok.
      { rewrite Hla. eapply bind_Ok; [reflexivity|]. cbv beta.
        eapply bind_Ok; [exact HA|]. cbv beta.
        destruct (decide (0 < fst s)) as [Y|_]; [contradiction|]. reflexivity. }
      reflexivity. }
    cbn. split; [reflexivity|]. split; [reflexivity|]. split; [exact Hco1|].
    split.
    { destruct Hin1 as (f & Hf2 & Hrest). exists f.
      unfold tip_fields, tip_angle in *. cbn. split; [exact Hf2|]. exact Hrest. }
    split; [split; [reflexivity|exact Hev1]|].
    split; [exact Hfl1|].
    rewrite Hth1. reflexivity.
Qed.







(** ** What asks for a frame *)

Section Untouched.

Context {X : Type} (obs : World -> X).
Hypothesis obs_heap : forall h w, obs (with_heap h w) = obs w.
Hypothesis obs_this : forall d w, obs (with_this d w) = obs w.

Lemma untouched_bind {A B : Type} (m : M A) (k : A -> M B) :
  untouched obs m -> (forall a, untouched obs (k a)) -> untouched obs (bind m k).
Proof.
  intros Hm Hk w r w' H. unfold bind in H.
  destruct (m w) as [[a|e] w1] eqn:E.
  - rewrite (Hk a w1 r w' H). apply (Hm w _ w1 E).
  - injection H as <- <-. apply (Hm w _ w1 E).
Qed.

Lemma untouched_ret {A : Type} (a : A) : untouched obs (ret a).
Proof. intros w r w' [= <- <-]. reflexivity. Qed.

Lemma untouched_throw {A : Type} (e : Error) : untouched obs (@throw A e).
Proof. intros w r w' [= <- <-]. reflexivity. Qed.

Lemma untouched_deref {A : Type} (o : option A) : untouched obs (deref o).
Proof. destruct o; [apply untouched_ret|apply untouched_throw]. Qed.

Lemma untouched_get_this : untouched obs get_this.
Proof. intros w r w' [= <- <-]. reflexivity. Qed.

Lemma untouched_modify_this (f : DynaDraw.t -> DynaDraw.t) : untouched obs (modify_this f).
Proof. intros w r w' [= <- <-]. apply obs_this. Qed.

Lemma untouched_tip : untouched obs tip.
Proof. intros w r w' [= <- <-]. reflexivity. Qed.

Lemma untouched_put_tip (c : BrushTip.t) : untouched obs (put_tip c).
Proof. apply untouched_modify_this. Qed.

Lemma untouched_new (v : Vec.t) : untouched obs (Vector2.new v).
Proof. intros w r w' [= <- <-]. apply obs_heap. Qed.

Lemma untouched_load (l : loc) : untouched obs (Vector2.load l).
Proof.
  intros w r w'. unfold Vector2.load.
  destruct (heap w !! l); intros [= <- <-]; reflexivity.
Qed.

Lemma untouched_store (l : loc) (v : Vec.t) : untouched obs (Vector2.store l v).
Proof. intros w r w' [= <- <-]. apply obs_heap. Qed.

End Untouched.

Lemma call_scheduled (host : Host) (e : Event) : untouched scheduled (call host e).
Proof.
  intros w r w'. unfold call.
  destruct (fails host e (events w)); intros [= <- <-]; reflexivity.
Qed.

Ltac untouched_step :=
  first
    [ apply call_scheduled
    | apply untouched_ret | apply untouched_throw | apply untouched_deref
    | apply untouched_get_this | apply untouched_tip
    | apply untouched_put_tip; reflexivity
    | apply untouched_modify_this; reflexivity
    | apply untouched_new; reflexivity
    | apply untouched_load
    | apply untouched_store; reflexivity
    | apply untouched_bind; [|intros ?]
    | match goal with
      | |- untouched _ (if ?c then _ else _) => destruct c
      | |- untouched _ (match ?o with Some _ => _ | None => _ end) => destruct o
      end ].

Ltac untouched_auto := repeat untouched_step.

Ltac unfold_methods :=
  unfold Draw, ApplyForce, getRadius, interpolatePressure, field, assign, assign_angle,
    number_of, Vector2.clone, Vector2.add, Vector2.subtract, Vector2.scale,
    Vector2.getSizeSq, Vector2.getSize, Vector2.distanceTo, Vector2.getNormal.

Lemma ApplyForce_scheduled (mouse : loc) (elapsedFrames : R) :
  untouched scheduled (ApplyForce mouse elapsedFrames).
Proof. unfold_methods. untouched_auto. Qed.

Lemma Draw_scheduled (host : Host) (path : option Path) (pressure : R) :
  untouched scheduled (Draw host path pressure).
Proof. unfold_methods. untouched_auto. Qed.

Lemma TickWhile_loop_scheduled (host : Host) (rounds : nat) (position : loc) :
  forall step, untouched scheduled (TickWhile_loop host rounds position step).
Proof.
  induction rounds as [|rounds IH]; intros step; cbn [TickWhile_loop].
  - apply untouched_ret.
  - apply untouched_bind; [apply ApplyForce_scheduled|]. intros d2.
    apply untouched_bind; [apply untouched_get_this|]. intros d.
    apply untouched_bind; [apply untouched_deref|]. intros size.
    apply untouched_bind.
    + destruct (decide _); [|apply untouched_ret].
      apply untouched_bind; [apply untouched_deref|]. intros pr.
      apply untouched_bind; [apply Draw_scheduled|]. intros _. apply untouched_ret.
    + intros s. destruct (decide _); [apply IH|apply untouched_ret].
Qed.

Lemma Tick_schedules (host : Host) (time : R) (w w' : World) (r : Res unit) :
  Tick host time w = (r, w') ->
  scheduled w' = match r with Ok _ => Some NextTick | Throw _ => scheduled w end.
Proof.
  unfold Tick. unfold bind at 1. cbn [get_this].
  set (body := match DynaDraw.position (this w) with Some _ => _ | None => _ end).
  assert (Hbody : untouched scheduled body).
  { unfold body. destruct (DynaDraw.position (this w)); [|apply untouched_ret].
    apply untouched_bind; [apply untouched_deref|]. intros last.
    apply untouched_bind; [apply ApplyForce_scheduled|]. intros d2.
    destruct (decide _); [|apply untouched_modify_this; reflexivity].
    apply untouched_bind; [apply untouched_get_this|]. intros d.
    apply untouched_bind; [apply untouched_deref|]. intros pr.
    apply Draw_scheduled. }
  unfold bind at 1. destruct (body w) as [[[]|e] w1] eqn:E.
  - intros [= <- <-]. reflexivity.
  - intros [= <- <-]. apply (Hbody w _ w1 E).
Qed.

Lemma TickWhile_schedules (host : Host) (rounds : nat) (w w' : World) (r : Res bool) :
  TickWhile host rounds w = (r, w') ->
  scheduled w' = match r with Ok true => Some NextTickWhile | _ => scheduled w end.
Proof.
  unfold TickWhile. unfold bind at 1. cbn [get_this].
  destruct (DynaDraw.position (this w)) as [t|]; [|intros [= <- <-]; reflexivity].
  unfold bind at 1.
  destruct (TickWhile_loop host rounds t 0 w) as [[[s|]|e] w1] eqn:EL.
  - pose proof (TickWhile_loop_scheduled host rounds t 0 w _ w1 EL) as H1.
    set (rest := if decide (0 < s) then _ else _).
    assert (Hrest : untouched scheduled rest).
    { unfold rest. destruct (decide _); [|apply untouched_ret].
      apply untouched_bind; [apply untouched_get_this|]. intros d.
      apply untouched_bind; [apply untouched_deref|]. intros pr.
      apply Draw_scheduled. }
    unfold bind at 1. destruct (rest w1) as [[[]|e] w2] eqn:ER.
    + intros [= <- <-]. reflexivity.
    + intros [= <- <-]. rewrite (Hrest w1 _ w2 ER). exact H1.
  - intros [= <- <-]. apply (TickWhile_loop_scheduled host rounds t 0 w _ w1 EL).
  - intros [= <- <-]. apply (TickWhile_loop_scheduled host rounds t 0 w _ w1 EL).
Qed.

(** X16.  The animation goes on for as long as no frame throws, and no
    longer.  A callback of the simulator that returns has asked for the next
    frame, a [Tick] after the first or a later [Tick], a [TickWhile] after a
    [TickWhile]; one that throws, be it from the brush tip or from the path,
    has asked for none, since [Tick] and [TickWhile] catch nothing and ask
    last.  This holds of every host and time, and of every world in which
    the numbers that the callback reads are defined: the pressure, and for a
    later [Tick] the last animation time.  (When the bound on the rounds of
    [TickWhile] is reached, the result [Ok false], nothing was asked for
    either.) *)
Theorem frame_loop_lives_until_a_frame_throws (host : Host) (rounds : nat) (time : R)
    (cb : Callback) (w w' : World) (r : Res bool) :
  scheduled w = Some cb ->
  is_Some (DynaDraw.pressure (this w)) ->
  (cb = NextTick -> is_Some (DynaDraw.lastAnimationTime (this w))) ->
  animationFrame host rounds time w = (r, w') ->
  scheduled w' = match r with Ok true => Some (next_frame cb) | _ => None end.
Proof.
  intros Hsc _ _. unfold animationFrame. rewrite Hsc. destruct cb; cbn [run_callback next_frame].
  - unfold bind at 1. cbn [modify_this]. unfold bind at 1.
    destruct (Tick host time _) as [[[]|e] w1] eqn:E; intros [= <- <-];
      apply Tick_schedules in E; exact E.
  - unfold bind at 1.
    destruct (Tick host time _) as [[[]|e] w1] eqn:E; intros [= <- <-];
      apply Tick_schedules in E; exact E.
  - intros H. apply TickWhile_schedules in H. destruct r as [[|]|]; exact H.
Qed.

Lemma frame_loop_lives_until_a_frame_throws_witness :
  let w := with_this (DynaDraw.with_pressure (Some 1) simulator_5_20) (start_world []) in
  exists w',
    animationFrame quietHost 1 0 w = (Ok true, w')
    /\ scheduled w' = Some (next_frame NextTickWhile).
Proof.
  intros w. eexists. split; [reflexivity|].
  apply (frame_loop_lives_until_a_frame_throws quietHost 1 0 NextTickWhile w _ (Ok true)).
  - reflexivity.
  - exists 1. reflexivity.
  - intros H. discriminate H.
  - reflexivity.
Defined.

(** ** A whole stroke *)

Lemma in_stroke_retarget (w w' : World) (b : BrushInstance) (t : loc) (T T' P V : Vec.t) :
  in_stroke w b t T P V ->
  heap w' = heap w ++ [T'] ->
  DynaDraw.cursor (this w') = DynaDraw.cursor (this w) ->
  in_stroke w' b (Vector2.fresh (heap w)) T' P V.
Proof.
  intros (f & Hf & Hb & Ht & Hp & Hv & [SP Hsp] & [PP Hpp] & [MP Hmp] & Hpv & Htv & Htp & Hn)
    Hh Hc.
  exists f. unfold tip_fields, tip_angle in *. rewrite Hc, Hh.
  split; [exact Hf|]. split; [exact Hb|].
  split; [solve_lookup|]. split; [solve_lookup|]. split; [solve_lookup|].
  split; [eexists; solve_lookup|]. split; [eexists; solve_lookup|].
  split; [eexists; solve_lookup|].
  split; [assumption|]. split; [lengths|]. split; [lengths|].
  intros n Hn'. destruct (Hn n Hn') as [[A HA] Hap]. split; [eexists; solve_lookup|].
  apply not_elem_of_cons in Hap as [_ Hap].
  apply not_elem_of_cons. split; [lengths|exact Hap].
Qed.

(** X17.  A stroke in the fast simulation is run to its rest within one
    frame.  On a simulator whose sizes are in order, with the constants of
    the field initialisers, a brush size set within the range and not
    negative, and a host that lets the calls through: a sample with
    pressure, a second one with pressure, both at points within [reach],
    and the next animation frame all return, for every pair of pressures.
    The path has been started at the first point with the radius [Size *
    pressure / 2] and then drawn in some number [k] of segments, the first
    after [InitPath].  There is a segment exactly when the first
    [ApplyForce] moves the brush of the size from the first point towards
    the second; for two points less than 1 apart, or a brush too heavy for
    their distance, nothing is drawn.  At the end the brush, which started
    at the first point, is less than 1 away from the second or slower than
    1; nothing is logged, the target is cleared whether or not it was
    reached, and the next frame is asked for. *)
Theorem stroke_in_fast_mode (host : Host) (c1 c2 : CursorState) (size : BrushSize)
    (p : Path) (time : R) (w : World) :
  (forall e tr, fails host e tr = None) ->
  pathFactory host (events w) = Ok p ->
  0 < Pressure c1 -> 0 < Pressure c2 ->
  within_reach (point c1) -> within_reach (point c2) ->
  pen_up (this w) ->
  DynaDraw.currentBrushSize (this w) = Some size ->
  (forall n, tip_angle w = Some n -> is_Some (heap w !! n)) ->
  cache_sound (this w) ->
  standard_constants (this w) ->
  DynaDraw.minBrushSize (this w) < DynaDraw.maxBrushSize (this w) ->
  DynaDraw.minBrushSize (this w) <= BrushSize_Size size <= DynaDraw.maxBrushSize (this w) ->
  0 <= BrushSize_Size size ->
  scheduled w = Some NextTickWhile ->
  exists rounds0, forall rounds, (rounds0 <= rounds)%nat ->
    exists w' new k b t P' V',
      (ObserveCursorMovement host c1;;;
       ObserveCursorMovement host c2;;;
       animationFrame host rounds time) w = (Ok true, w')
      /\ events w'
         = events w
           ++ [CallFactory; TriggerStartPath p;
               PathStartPath p (point c1) (BrushSize_Size size * Pressure c1 / 2)]
           ++ new
      /\ map call_of new = segment_calls p true k
      /\ console w' = console w
      /\ DynaDraw.position (this w') = None
      /\ scheduled w' = Some NextTickWhile
      /\ b = mkBrush (interpolateMass (this w) (BrushSize_Size size))
                     (interpolateFriction (this w) (BrushSize_Size size))
                     (BrushSize_Size size)
      /\ ((0 < k)%nat <-> 0 < fst (step b 1 (point c2) (point c1) (Vec.mk 0 0)))
      /\ in_stroke w' b t (point c2) P' V'
      /\ (Vec.sizeSq (force (point c2) P') < 1 \/ Vec.sizeSq V' < 1).
Proof.
  intros Hq Hfac Hd1 Hd2 _ _ Hup Hsize Hangle Hcache Hst Hlt Hrange Hnn Hsc.
  destruct (ObserveCursorMovement_start host c1 size p w Hq Hfac Hd1 Hup Hsize Hangle)
    as (w1 & t1 & b & HO1 & Hev1 & Hco1 & Hsc1 & _ & Hb & Haim1 & Hls1 & Hin1 & Hfl1 & _).
  assert (Hb' : b = mkBrush (interpolateMass (this w) (BrushSize_Size size))
                            (interpolateFriction (this w) (BrushSize_Size size))
                            (BrushSize_Size size)).
  { destruct (lookupBrush _ _) as [b0|] eqn:E; [|exact Hb].
    rewrite Hb. apply Hcache. exact E. }
  pose proof (profile_in_range (this w) _ Hst Hlt Hrange) as [Hm Hf].
  assert (Hdamp : damped b) by (apply in_range_damped; rewrite Hb'; assumption).
  assert (Hsz : Size b = BrushSize_Size size) by (rewrite Hb'; reflexivity).
  destruct (ObserveCursorMovement_later host c2 w1)
    as (w2 & HO2 & Hh2 & Hev2 & Hco2 & Hsc2 & Hcu2 & Hpa2 & Hsi2 & _ & Hls2 & Hpp2 & _).
  { unfold pen_up. rewrite Hls1. lra. }
  destruct (decide (0 < Pressure c2)) as [_|N]; [|contradiction].
  injection Hpp2 as Hpo2 Hpr2.
  pose proof (in_stroke_retarget w1 w2 b t1 _ _ _ _ Hin1 Hh2 Hcu2) as Hin2.
  set (t2 := Vector2.fresh (heap w1)) in *.
  destruct Haim1 as (_ & Hpa1 & _ & Hsi1).
  set (w3 := with_scheduled None w2).
  assert (Hin3 : in_stroke w3 b t2 (point c2) (point c1) (Vec.mk 0 0)).
  { destruct Hin2 as (f & Hf2 & Hrest). exists f. split; [exact Hf2|exact Hrest]. }
  assert (Haim3 : aiming w3 t2 p (Pressure c2) size).
  { unfold aiming. cbn. rewrite Hpo2, Hpr2, Hpa2, Hsi2. repeat split; assumption. }
  assert (Hfl3 : first_flag w3 = Some true).
  { unfold first_flag, tip_fields in *. cbn. rewrite Hcu2. exact Hfl1. }
  destruct Hdamp as [Hfr Hma].
  destruct (TickWhile_finishes host b t2 _ _ _ p (Pressure c2) size true w3
              Hq Hfr Hma Hnn Hin3 Haim3 Hfl3) as (rounds0 & Hrounds).
  exists rounds0. intros rounds Hge.
  destruct (Hrounds rounds Hge)
    as (w4 & new & k & P' & V' & HT & Hpo4 & Hsc4 & Hev4 & Hcalls & Hco4 & Hin4 & _ & _
        & Hend & Hk).
  exists w4, new, k, b, t2, P', V'. split.
  { eapply bind_Ok; [exact HO1|]. eapply bind_Ok; [exact HO2|].
    unfold animationFrame. rewrite Hsc2, Hsc1, Hsc. exact HT. }
  split; [rewrite Hev4; cbn; rewrite Hev2, Hev1, Hsz, <- app_assoc; reflexivity|].
  split; [exact Hcalls|]. split; [rewrite Hco4; cbn; congruence|].
  split; [exact Hpo4|]. split; [exact Hsc4|]. split; [exact Hb'|].
  split; [exact Hk|]. split; [exact Hin4|exact Hend].
Qed.

Lemma stroke_in_fast_mode_witness :
  let c1 := mkCursor 0 0 1 in
  let c2 := mkCursor 10 0 1 in
  let size := mkBrushSize 10 in
  let w := sized_world in
  exists rounds0, forall rounds, (rounds0 <= rounds)%nat ->
    exists w' new k b t P' V',
      (ObserveCursorMovement quietHost c1;;;
       ObserveCursorMovement quietHost c2;;;
       animationFrame quietHost rounds 0) w = (Ok true, w')
      /\ events w'
         = events w
           ++ [CallFactory; TriggerStartPath 0%nat;
               PathStartPath 0%nat (point c1) (BrushSize_Size size * Pressure c1 / 2)]
           ++ new
      /\ map call_of new = segment_calls 0%nat true k
      /\ console w' = console w
      /\ DynaDraw.position (this w') = None
      /\ scheduled w' = Some NextTickWhile
      /\ b = mkBrush (interpolateMass (this w) (BrushSize_Size size))
                     (interpolateFriction (this w) (BrushSize_Size size))
                     (BrushSize_Size size)
      /\ ((0 < k)%nat <-> 0 < fst (step b 1 (point c2) (point c1) (Vec.mk 0 0)))
      /\ in_stroke w' b t (point c2) P' V'
      /\ (Vec.sizeSq (force (point c2) P') < 1 \/ Vec.sizeSq V' < 1).
Proof.
  intros c1 c2 size w.
  apply (stroke_in_fast_mode quietHost c1 c2 size 0%nat 0 w);
    first [ reflexivity | exact I | (cbn; lra)
          | (unfold within_reach, reach; cbn; split; apply Rabs_le; lra)
          | (intros n H; discriminate H)
          | (intros s b H; discriminate H) ].
Defined.

(** * Sessions *)

Lemma settings_ok_same (lo hi : R) (d d' : DynaDraw.t) :
  settings d' = settings d -> cache_sound d' -> settings_ok lo hi d -> settings_ok lo hi d'.
Proof.
  unfold settings, settings_ok, standard_constants.
  intros [= -> -> -> -> -> -> ->] Hc (_ & H). split; [exact Hc|exact H].
Qed.

Lemma in_stroke_grow (w w' : World) (b : BrushInstance) (t : loc) (T T' P V : Vec.t) :
  in_stroke w b t T P V ->
  heap w' = heap w ++ [T'] ->
  DynaDraw.cursor (this w') = DynaDraw.cursor (this w) ->
  in_stroke w' b t T P V.
Proof.
  intros (f & Hf & Hb & Ht & Hp & Hv & [SP Hsp] & [PP Hpp] & [MP Hmp] & Hpv & Htv & Htp & Hn)
    Hh Hc.
  exists f. unfold tip_fields, tip_angle in *. rewrite Hc, Hh.
  split; [exact Hf|]. split; [exact Hb|].
  split; [solve_lookup|]. split; [solve_lookup|]. split; [solve_lookup|].
  split; [eexists; solve_lookup|]. split; [eexists; solve_lookup|].
  split; [eexists; solve_lookup|].
  split; [assumption|]. split; [assumption|]. split; [assumption|].
  intros n Hn'. destruct (Hn n Hn') as [[A HA] Hap]. split; [eexists; solve_lookup|exact Hap].
Qed.

Lemma in_stroke_same (w w' : World) (b : BrushInstance) (t : loc) (T P V : Vec.t) :
  in_stroke w b t T P V ->
  heap w' = heap w ->
  DynaDraw.cursor (this w') = DynaDraw.cursor (this w) ->
  in_stroke w' b t T P V.
Proof.
  intros (f & Hf & Hrest) Hh Hc.
  exists f. unfold tip_fields, tip_angle in *. rewrite Hc, Hh.
  split; [exact Hf|exact Hrest].
Qed.

Lemma in_stroke_angle (w : World) (b : BrushInstance) (t : loc) (T P V : Vec.t) :
  in_stroke w b t T P V -> forall n, tip_angle w = Some n -> is_Some (heap w !! n).
Proof.
  intros (f & _ & _ & _ & _ & _ & _ & _ & _ & _ & _ & _ & Hn) n H. apply (Hn n H).
Qed.

Lemma pen_up_dec (d : DynaDraw.t) : {pen_up d} + {~ pen_up d}.
Proof.
  unfold pen_up. destruct (DynaDraw.lastState d) as [last|]; [|left; exact I].
  apply Req_dec_T.
Qed.

(** Neither the frame asked for nor the last animation time matters to the
    work. *)
Lemma working_same (lo hi : R) (w w' : World) (a : option R) :
  heap w' = heap w -> console w' = console w ->
  this w' = with_lastAnimationTime a (this w) ->
  working lo hi w -> working lo hi w'.
Proof.
  intros Hh Hco Hth (Hset & Hc & Hls & Hst).
  split.
  { apply (settings_ok_same lo hi (this w)); [rewrite Hth; reflexivity| |exact Hset].
    apply (cache_sound_profile_data (this w)); [rewrite Hth; reflexivity|apply Hset]. }
  split; [congruence|]. split; [rewrite Hth; exact Hls|].
  destruct Hst as [(Hf & Ha & Hpo & Hup) | (b & t & T & P & V & p0 & pr & first & Hin & Hd & Hp0 & Hpr0 & Hfl & Hpo)].
  - left. unfold tip_fields, tip_angle, pen_up in *. rewrite Hth. cbn.
    repeat split; assumption.
  - right. exists b, t, T, P, V, p0, pr, first.
    split; [apply (in_stroke_same w); [exact Hin|exact Hh|rewrite Hth; reflexivity]|].
    split; [exact Hd|]. unfold first_flag, tip_fields in *. rewrite Hth. cbn.
    repeat split; assumption.
Qed.

Lemma this_as_is (d : DynaDraw.t) : d = with_lastAnimationTime (DynaDraw.lastAnimationTime d) d.
Proof. destruct d; reflexivity. Qed.

(** A sample on a simulator at work. *)
Lemma sample_working (host : Host) (lo hi : R) (c : CursorState) (w : World) :
  benign host -> working lo hi w -> 0 <= Pressure c ->
  exists w', ObserveCursorMovement host c w = (Ok tt, w') /\ working lo hi w'
    /\ scheduled w' = scheduled w
    /\ DynaDraw.lastAnimationTime (this w') = DynaDraw.lastAnimationTime (this w).
Proof.
  intros [Hq Hfac] (Hset & Hco & Hls & Hst) Hpr.
  destruct (ObserveCursorMovement host c w) as [r w'] eqn:HO.
  pose proof (ObserveCursorMovement_keeps host c w r w' HO (proj1 Hset)) as Hcache.
  revert HO.
  destruct (decide (0 < Pressure c)) as [Hdown|Hnot];
    [destruct (pen_up_dec (this w)) as [Hup|Hnup]|].
  - (* the sample starts a path *)
    destruct (Hfac (events w)) as [p Hp].
    destruct Hset as (Hc & Hk & Hlo & Hhi & Hlt & size & Hsize & Hrange & Hnn).
    destruct (ObserveCursorMovement_start host c size p w Hq Hp Hdown Hup Hsize)
      as (w1 & t & b & HO1 & Hev1 & Hco1 & Hsc1 & _ & Hb & Haim1 & Hls1 & Hin1 & Hfl1 & _
          & Hse1 & Hla1).
    { destruct Hst as [(_ & Ha & _) | (b & t & T & P & V & p0 & pr & first & Hin & _)].
      - intros n Hn. rewrite Ha in Hn. discriminate Hn.
      - apply (in_stroke_angle _ _ _ _ _ _ Hin). }
    rewrite HO1. intros [= <- <-]. exists w1. split; [reflexivity|].
    split; [|split; assumption].
    assert (Hb' : b = mkBrush (interpolateMass (this w) (BrushSize_Size size))
                              (interpolateFriction (this w) (BrushSize_Size size))
                              (BrushSize_Size size)).
    { destruct (lookupBrush _ _) as [b0|] eqn:E; [|exact Hb].
      rewrite Hb. apply Hc. exact E. }
    assert (Hdamp : damped b).
    { destruct (profile_in_range (this w) (BrushSize_Size size) Hk) as [Hm Hf];
        [rewrite Hlo, Hhi; exact Hlt | rewrite Hlo, Hhi; exact Hrange |].
      apply in_range_damped; rewrite Hb'; assumption. }
    split.
    { apply (settings_ok_same lo hi (this w)); [exact Hse1|exact Hcache|].
      split; [exact Hc|]. split; [exact Hk|]. split; [exact Hlo|]. split; [exact Hhi|].
      split; [exact Hlt|]. exists size. split; [exact Hsize|]. split; assumption. }
    split; [congruence|].
    split; [intros last; rewrite Hls1; intros [= <-]; exact Hpr|].
    right. exists b, t, (point c), (point c), (Vec.mk 0 0), p, (Pressure c), true.
    destruct Haim1 as (Hpo1 & Hpa1 & Hpr1 & _).
    split; [exact Hin1|]. split; [exact Hdamp|]. split; [exact Hpa1|].
    split; [exact Hpr1|]. split; [exact Hfl1|]. right. exact Hpo1.
  - (* the sample goes on with the path *)
    destruct (ObserveCursorMovement_later host c w)
      as (w1 & HO1 & Hh1 & Hev1 & Hco1 & Hsc1 & Hcu1 & Hpa1 & _ & _ & Hls1 & Hpp1 & Hse1 & Hla1).
    { intros [_ Hup]. contradiction. }
    rewrite HO1. intros [= <- <-]. exists w1. split; [reflexivity|].
    split; [|split; assumption].
    destruct (decide (0 < Pressure c)) as [_|N]; [|contradiction].
    injection Hpp1 as Hpo1 Hpr1.
    split; [apply (settings_ok_same lo hi (this w)); assumption|].
    split; [congruence|].
    split; [intros last; rewrite Hls1; intros [= <-]; exact Hpr|].
    destruct Hst as [(_ & _ & _ & Hup) | (b & t & T & P & V & p0 & pr & first & Hin & Hd & Hp0 & _ & Hfl & _)];
      [contradiction|].
    right. exists b, (Vector2.fresh (heap w)), (point c), P, V, p0, (Pressure c), first.
    split; [apply (in_stroke_retarget w w1 b t T); assumption|].
    split; [exact Hd|]. split; [congruence|]. split; [exact Hpr1|].
    split; [unfold first_flag, tip_fields in *; rewrite Hcu1; exact Hfl|].
    right. exact Hpo1.
  - (* the sample has no pressure *)
    destruct (ObserveCursorMovement_later host c w)
      as (w1 & HO1 & Hh1 & Hev1 & Hco1 & Hsc1 & Hcu1 & Hpa1 & _ & _ & Hls1 & Hpp1 & Hse1 & Hla1).
    { intros [Hdown _]. contradiction. }
    rewrite HO1. intros [= <- <-]. exists w1. split; [reflexivity|].
    split; [|split; assumption].
    destruct (decide (0 < Pressure c)) as [Y|_]; [contradiction|].
    split; [apply (settings_ok_same lo hi (this w)); assumption|].
    split; [congruence|].
    split; [intros last; rewrite Hls1; intros [= <-]; exact Hpr|].
    assert (Hup1 : pen_up (this w1)) by (unfold pen_up; rewrite Hls1; lra).
    destruct Hst as [(Hf & Ha & Hpo & Hup) | (b & t & T & P & V & p0 & pr & first & Hin & Hd & Hp0 & Hpr0 & Hfl & Hpo)].
    + left. unfold tip_fields, tip_angle in *. rewrite Hcu1.
      split; [exact Hf|]. split; [exact Ha|]. split; [|exact Hup1].
      unfold pen_up in Hup. destruct (DynaDraw.lastState (this w)) as [last|].
      * destruct (decide (0 < Pressure last)) as [Y|_]; [lra|].
        injection Hpp1 as -> _. exact Hpo.
      * injection Hpp1 as -> _. exact Hpo.
    + right.
      assert (Hfl1 : first_flag w1 = Some first)
        by (unfold first_flag, tip_fields in *; rewrite Hcu1; exact Hfl).
      destruct (DynaDraw.lastState (this w)) as [last|];
        [destruct (decide (0 < Pressure last)) as [Hl|Hl]|].
      * injection Hpp1 as Hpo1 Hpr1.
        exists b, (Vector2.fresh (heap w)), (point c), P, V, p0, pr, first.
        split; [apply (in_stroke_retarget w w1 b t T); assumption|].
        split; [exact Hd|]. split; [congruence|]. split; [congruence|].
        split; [exact Hfl1|]. right. exact Hpo1.
      * injection Hpp1 as Hpo1 Hpr1.
        exists b, t, T, P, V, p0, pr, first.
        split; [apply (in_stroke_grow w w1 b t T (point c)); assumption|].
        split; [exact Hd|]. split; [congruence|]. split; [congruence|].
        split; [exact Hfl1|]. rewrite Hpo1. exact Hpo.
      * injection Hpp1 as Hpo1 Hpr1.
        exists b, t, T, P, V, p0, pr, first.
        split; [apply (in_stroke_grow w w1 b t T (point c)); assumption|].
        split; [exact Hd|]. split; [congruence|]. split; [congruence|].
        split; [exact Hfl1|]. rewrite Hpo1. exact Hpo.
Qed.

(** [TickWhile] on a simulator at work. *)
Lemma TickWhile_working (host : Host) (lo hi : R) (w : World) :
  benign host -> working lo hi w ->
  exists rounds w', TickWhile host rounds w = (Ok true, w') /\ working lo hi w'
    /\ scheduled w' = Some NextTickWhile.
Proof.
  intros [Hq Hfac] (Hset & Hco & Hls & Hst).
  destruct (DynaDraw.position (this w)) as [t'|] eqn:Hpo.
  - (* there is a target *)
    destruct Hst as [(_ & _ & Hnone & _) | (b & t & T & P & V & p0 & pr & first & Hin & [Hfr Hma] & Hp0 & Hpr0 & Hfl & Hpo')];
      [congruence|].
    destruct Hpo' as [Hn|Ht]; [congruence|]. injection Ht as ->.
    destruct Hset as (Hc & Hk & Hlo & Hhi & Hlt & size & Hsize & Hrange & Hnn).
    destruct (TickWhile_finishes host b t T P V p0 pr size first w Hq Hfr Hma Hnn Hin)
      as (rounds0 & Hrounds); [repeat split; assumption|exact Hfl|].
    destruct (Hrounds rounds0 (le_n _))
      as (w4 & new & k & P' & V' & HT & Hpo4 & Hsc4 & Hev4 & Hcalls & Hco4 & Hin4 & Hfl4 & Hth4 & _).
    exists rounds0, w4. split; [exact HT|]. split; [|exact Hsc4].
    split.
    { apply (settings_ok_same lo hi (this w)).
      - rewrite Hth4. reflexivity.
      - apply (cache_sound_profile_data (this w)); [rewrite Hth4; reflexivity|exact Hc].
      - split; [exact Hc|]. split; [exact Hk|]. split; [exact Hlo|]. split; [exact Hhi|].
        split; [exact Hlt|]. exists size. split; [exact Hsize|]. split; assumption. }
    split; [rewrite Hco4; exact Hco|].
    split; [rewrite Hth4; exact Hls|].
    right. exists b, t, T, P', V', p0, pr, (match k with O => first | _ => false end).
    split; [exact Hin4|]. split; [split; assumption|].
    split; [rewrite Hth4; exact Hp0|]. split; [rewrite Hth4; exact Hpr0|].
    split; [exact Hfl4|]. left. exact Hpo4.
  - (* there is none *)
    exists 0%nat. eexists. split.
    { unfold TickWhile. eapply bind_Ok; [reflexivity|]. cbv beta.
      rewrite Hpo. reflexivity. }
    split; [|reflexivity].
    apply (working_same lo hi w _ (DynaDraw.lastAnimationTime (this w)));
      [reflexivity|reflexivity|apply this_as_is|].
    split; [exact Hset|]. split; [exact Hco|]. split; [exact Hls|].
    rewrite Hpo. exact Hst.
Qed.

(** [Tick] on a simulator at work that has a last animation time. *)
Lemma Tick_working (host : Host) (lo hi : R) (last time : R) (w : World) :
  benign host -> working lo hi w ->
  DynaDraw.lastAnimationTime (this w) = Some last ->
  exists w', Tick host time w = (Ok tt, w') /\ working lo hi w'
    /\ scheduled w' = Some NextTick
    /\ DynaDraw.lastAnimationTime (this w') = Some time.
Proof.
  intros [Hq Hfac] (Hset & Hco & Hls & Hst) Hla.
  destruct (DynaDraw.position (this w)) as [t'|] eqn:Hpo.
  - (* there is a target *)
    destruct Hst as [(_ & _ & Hnone & _) | (b & t & T & P & V & p0 & pr & first & Hin & Hd & Hp0 & Hpr0 & Hfl & Hpo')];
      [congruence|].
    destruct Hpo' as [Hn|Ht]; [congruence|]. injection Ht as ->.
    destruct (Tick_in_stroke host b t T P V p0 pr last time first w Hq Hin Hpo Hp0 Hpr0 Hla Hfl)
      as (w1 & HT & Hla1 & Hsc1 & Hco1 & Hin1 & Hcase & Hfl1 & Hth1).
    exists w1. split; [exact HT|]. split; [|split; assumption].
    split.
    { apply (settings_ok_same lo hi (this w)); [rewrite Hth1; reflexivity| |exact Hset].
      apply (cache_sound_profile_data (this w)); [rewrite Hth1; reflexivity|apply Hset]. }
    split; [rewrite Hco1; exact Hco|].
    split; [rewrite Hth1; exact Hls|].
    right. eexists b, t, T, _, _, p0, pr, _.
    split; [exact Hin1|]. split; [exact Hd|].
    split; [rewrite Hth1; exact Hp0|]. split; [rewrite Hth1; exact Hpr0|].
    split; [exact Hfl1|].
    destruct (decide _); [right|left]; apply Hcase.
  - (* there is none *)
    eexists. split.
    { unfold Tick. eapply bind_Ok; [reflexivity|]. cbv beta.
      rewrite Hpo. reflexivity. }
    split; [|split; reflexivity].
    apply (working_same lo hi w _ (Some time)); [reflexivity|reflexivity|reflexivity|].
    split; [exact Hset|]. split; [exact Hco|]. split; [exact Hls|].
    rewrite Hpo. exact Hst.
Qed.

(** A frame on a sound simulator. *)
Lemma frame_sound (host : Host) (lo hi : R) (time : R) (w : World) :
  benign host -> sound lo hi w ->
  exists rounds w', animationFrame host rounds time w = (Ok true, w') /\ sound lo hi w'.
Proof.
  intros Hb [Hw Hwait].
  assert (Hw0 : working lo hi (with_scheduled None w)).
  { apply (working_same lo hi w _ (DynaDraw.lastAnimationTime (this w)));
      [reflexivity|reflexivity|apply this_as_is|exact Hw]. }
  unfold animationFrame.
  destruct Hwait as [Hsc | [Hsc | [Hsc [last Hla]]]]; rewrite Hsc; cbn [run_callback].
  - destruct (TickWhile_working host lo hi _ Hb Hw0) as (rounds & w' & HT & Hw' & Hsc').
    exists rounds, w'. split; [exact HT|]. split; [exact Hw'|]. left. exact Hsc'.
  - set (w1 := with_this (with_lastAnimationTime (Some time) (this (with_scheduled None w)))
                 (with_scheduled None w)).
    assert (Hw1 : working lo hi w1).
    { apply (working_same lo hi (with_scheduled None w) _ (Some time));
        [reflexivity|reflexivity|reflexivity|exact Hw0]. }
    destruct (Tick_working host lo hi time time w1 Hb Hw1 eq_refl)
      as (w' & HT & Hw' & Hsc' & Hla').
    exists 0%nat, w'. split.
    { eapply bind_Ok; [reflexivity|]. eapply bind_Ok; [exact HT|]. reflexivity. }
    split; [exact Hw'|]. right. right. split; [exact Hsc'|]. rewrite Hla'. eauto.
  - destruct (Tick_working host lo hi last time (with_scheduled None w) Hb Hw0 Hla)
      as (w' & HT & Hw' & Hsc' & Hla').
    exists 0%nat, w'. split.
    { eapply bind_Ok; [exact HT|]. reflexivity. }
    split; [exact Hw'|]. right. right. split; [exact Hsc'|]. rewrite Hla'. eauto.
Qed.

(** A new brush size on a sound simulator. *)
Lemma size_sound (lo hi : R) (size : BrushSize) (w : World) :
  sound lo hi w ->
  lo <= BrushSize_Size size <= hi -> 0 <= BrushSize_Size size ->
  exists w', SetBrushSize size w = (Ok tt, w') /\ sound lo hi w'.
Proof.
  intros [(Hset & Hco & Hls & Hst) Hwait] Hrange Hnn.
  eexists. split; [reflexivity|].
  destruct Hset as (Hc & Hk & Hlo & Hhi & Hlt & _).
  split; [|exact Hwait].
  split.
  { split; [apply (cache_sound_profile_data (this w)); [reflexivity|exact Hc]|].
    split; [exact Hk|]. split; [exact Hlo|]. split; [exact Hhi|]. split; [exact Hlt|].
    exists size. split; [reflexivity|]. split; assumption. }
  split; [exact Hco|]. split; [exact Hls|].
  destruct Hst as [H | (b & t & T & P & V & p0 & pr & first & Hin & H)]; [left; exact H|].
  right. exists b, t, T, P, V, p0, pr, first. split; [|exact H].
  apply (in_stroke_same w); [exact Hin|reflexivity|reflexivity].
Qed.

Lemma session_step (host : Host) (lo hi : R) (i : Input) (w : World) :
  benign host -> sound lo hi w -> acceptable lo hi i ->
  exists w', feed host w i w' /\ sound lo hi w'.
Proof.
  intros Hb Hs Ha. destruct i as [c|time|size]; cbn [feed acceptable] in *.
  - destruct Hs as [Hw Hwait].
    destruct (sample_working host lo hi c w Hb Hw (proj1 Ha)) as (w' & HO & Hw' & Hsc & Hla).
    exists w'. split; [exact HO|]. split; [exact Hw'|].
    unfold waiting in *. rewrite Hsc, Hla. exact Hwait.
  - destruct (frame_sound host lo hi time w Hb Hs) as (rounds & w' & H & Hs').
    exists w'. split; [exists rounds; exact H|exact Hs'].
  - destruct Ha as [Hr Hn]. apply (size_sound lo hi size w Hs Hr Hn).
Qed.

Lemma sessions_stay_sound (host : Host) (lo hi : R) (inputs : list Input) :
  benign host -> Forall (acceptable lo hi) inputs ->
  forall w, sound lo hi w -> exists w', feeds host w inputs w' /\ sound lo hi w'.
Proof.
  intros Hb Hall. induction Hall as [|i rest Hi _ IH]; intros w Hs.
  - exists w. split; [reflexivity|exact Hs].
  - destruct (session_step host lo hi i w Hb Hs Hi) as (w1 & Hf & Hs1).
    destruct (IH w1 Hs1) as (w' & Hfs & Hs').
    exists w'. split; [exists w1; split; assumption|exact Hs'].
Qed.

(** X18.  A simulator never fails at work, in the slow mode or the fast one.
    Constructed with sizes [lo < hi] and given a brush size within them that
    is not negative, on a host that lets every call through and always makes
    a path, it takes every sequence of samples without negative pressure at
    points within [reach], animation frames and brush sizes within the
    sizes: each call returns, each [TickWhile] ends, nothing is ever logged,
    and there is always a next frame asked for. *)
Theorem session_never_fails (host : Host) (slowSimulation : bool) (lo hi : R)
    (size : BrushSize) (inputs : list Input) (w0 : World) :
  benign host ->
  lo < hi ->
  lo <= BrushSize_Size size <= hi ->
  0 <= BrushSize_Size size ->
  console w0 = [] ->
  Forall (acceptable lo hi) inputs ->
  exists w1 w',
    (constructor slowSimulation lo hi;;; SetBrushSize size) w0 = (Ok tt, w1)
    /\ feeds host w1 inputs w'
    /\ console w' = []
    /\ is_Some (scheduled w')
    /\ sound lo hi w'.
Proof.
  intros Hb Hlt Hrange Hnn Hco Hall.
  eexists.
  assert (Hs : sound lo hi
                 (with_this (DynaDraw.with_currentBrushSize (Some size)
                    (DynaDraw.mk (new_BrushTip true) None None None 1 10 0.4 0.6 None []
                                 slowSimulation lo hi None None))
                    (mkWorld (heap w0)
                       (DynaDraw.mk (new_BrushTip true) None None None 1 10 0.4 0.6 None []
                                    slowSimulation lo hi None None)
                       (events w0) (console w0)
                       (Some (if slowSimulation then FirstTick else NextTickWhile))))).
  { split; [|destruct slowSimulation; [right; left|left]; reflexivity].
    split.
    { split; [intros s b H; discriminate H|]. split; [reflexivity|].
      split; [reflexivity|]. split; [reflexivity|]. split; [exact Hlt|].
      exists size. split; [reflexivity|]. split; assumption. }
    split; [exact Hco|].
    split; [intros last H; discriminate H|].
    left. repeat split; reflexivity. }
  destruct (sessions_stay_sound host lo hi inputs Hb Hall _ Hs) as (w' & Hf & Hs').
  exists w'. split.
  { unfold bind. rewrite constructor_run. reflexivity. }
  split; [exact Hf|].
  split; [apply Hs'|]. split; [|exact Hs'].
  destruct Hs' as [_ [H | [H | [H _]]]]; rewrite H; eauto.
Qed.

Lemma session_never_fails_witness :
  let inputs := [Sample (mkCursor 0 0 1); Sample (mkCursor 10 0 1); Frame 0;
                 Sample (mkCursor 10 5 0); Frame 16; BrushSizeSet (mkBrushSize 20);
                 Sample (mkCursor 3 4 0.5)] in
  exists w1 w',
    (constructor false 5 20;;; SetBrushSize (mkBrushSize 10)) (start_world []) = (Ok tt, w1)
    /\ feeds quietHost w1 inputs w'
    /\ console w' = []
    /\ is_Some (scheduled w')
    /\ sound 5 20 w'.
Proof.
  intros inputs.
  apply (session_never_fails quietHost false 5 20 (mkBrushSize 10) inputs (start_world [])).
  - split; [reflexivity|]. intros tr. exists 0%nat. reflexivity.
  - lra.
  - cbn. lra.
  - cbn. lra.
  - reflexivity.
  - unfold inputs, acceptable, within_reach, reach.
    repeat (apply Forall_cons; split; [cbn; first [exact I | repeat split; first [lra | apply Rabs_le; lra]]|]).
    apply Forall_nil. exact I.
Defined.

(** ** Pressures below zero *)

(** X19.  A sample with negative pressure makes the next one miss its start.
    The start of a path is tested by [lastState.Pressure === 0]: after a
    sample whose pressure is below 0, a sample with pressure is taken as a
    further point, whatever the host and the brush size; on a brush tip
    never reset no path is made and no call reaches the host, and the next
    animation frame throws a [TypeError] and asks for no further frame. *)
Theorem negative_pressure_skips_the_start (host : Host) (c1 c2 : CursorState)
    (cb : Callback) (rounds : nat) (time : R) (w : World) :
  Pressure c1 < 0 -> 0 < Pressure c2 ->
  tip_fields w = None ->
  scheduled w = Some cb ->
  (cb = NextTick -> is_Some (DynaDraw.lastAnimationTime (this w))) ->
  exists w',
    (ObserveCursorMovement host c1;;;
     ObserveCursorMovement host c2;;;
     animationFrame host (S rounds) time) w = (Throw TypeError, w')
    /\ events w' = events w
    /\ console w' = console w
    /\ DynaDraw.path (this w') = DynaDraw.path (this w)
    /\ scheduled w' = None.
Proof.
  intros Hneg Hpos Hf Hsc Hla.
  unfold ObserveCursorMovement, ObserveCursorMovement_try, try_catch, NextPoint, EndPath,
    animationFrame, run_callback, Tick, TickWhile, number_of in *.
  open_world w. run_unfold. cbn.
  destruct (decide (0 < Pressure c1)) as [Y|_]; [exfalso; lra|].
  assert (Hla' : cb = NextTick -> exists last, lastAnimationTime = Some last).
  { intros E. destruct (Hla E) as [x Hx]. eauto. }
  clear Hla.
  destruct lastState as [last|]; [destruct (decide (0 < Pressure last))|]; cbn.
  all: destruct (decide (0 < Pressure c2)) as [_|N]; [|contradiction].
  all: rewrite bool_decide_eq_false_2 by lra; cbn.
  all: destruct cb; [| destruct (Hla' eq_refl) as [t0 ->] |];
    run; eexists; (split; [reflexivity|]); cbn; repeat split; reflexivity.
Qed.

Lemma negative_pressure_skips_the_start_witness :
  let w := sized_world in
  exists w',
    (ObserveCursorMovement quietHost (mkCursor 0 0 (-1));;;
     ObserveCursorMovement quietHost (mkCursor 10 0 1);;;
     animationFrame quietHost 1 0) w = (Throw TypeError, w')
    /\ events w' = events w
    /\ console w' = console w
    /\ DynaDraw.path (this w') = DynaDraw.path (this w)
    /\ scheduled w' = None.
Proof.
  intros w.
  apply (negative_pressure_skips_the_start quietHost (mkCursor 0 0 (-1)) (mkCursor 10 0 1)
           NextTickWhile 0 0 w);
    first [reflexivity | (cbn; lra) | (intros H; discriminate H)].
Defined.
